(** * The JOS kernel monitor (kern/monitor.c): a shallow embedding

    The monitor is a read-eval-print loop over a handful of commands that
    look at, and change, live kernel state: the page tables behind
    [kern_pgdir], raw memory, the saved frame-pointer chain and the trap
    frame of the paused environment.  The embedding keeps the shape of the
    C file: one definition per C function, with the same name, written in a
    small state-and-failure monad over a [machine] record. *)

From Stdlib Require Import ZArith Ascii String List Lia.
From stdpp Require Import base option list gmap strings.

Local Open Scope Z_scope.

(** ** Machine words *)

(** [size_t], [uint32_t], [uintptr_t] and [pte_t] are 32 bits wide on the
    i386 target; a value is a [Z] reduced modulo [2^32] where C wraps. *)
Definition wrap32 (x : Z) : Z := x mod 2 ^ 32.

(** A 32-bit word read as a signed [int] (or [ptrdiff_t]). *)
Definition signed32 (x : Z) : Z := if x <? 2 ^ 31 then x else x - 2 ^ 32.

Definition NUL : ascii := Ascii.zero.

(** ** Constants of the headers *)

(** Modelled from the spec: the headers inc/mmu.h, inc/memlayout.h and
    inc/trap.h are not among the sources; the page size, the kernel/user
    split, the nine flag bits of a page-table entry, the single-step bit of
    the flags word and the two trap numbers take their i386 values. *)
Definition PGSIZE : Z := 4096.
Definition KERNBASE : Z := 0xF0000000.
Definition PTE_P : Z := 0x001.
Definition PTE_W : Z := 0x002.
Definition PTE_U : Z := 0x004.
Definition PTE_PWT : Z := 0x008.
Definition PTE_PCD : Z := 0x010.
Definition PTE_A : Z := 0x020.
Definition PTE_D : Z := 0x040.
Definition PTE_PS : Z := 0x080.
Definition PTE_G : Z := 0x100.
Definition FL_TF : Z := 0x100.
Definition T_DEBUG : Z := 1.
Definition T_BRKPT : Z := 3.

(** Modelled from the spec: the macros [PGNUM], [PTE_ADDR], [ROUNDDOWN] and
    [ROUNDUP] of inc/mmu.h and inc/types.h.  An entry keeps the frame
    address in its high twenty bits and the flags in its low twelve. *)
Definition PGNUM (la : Z) : Z := Z.shiftr la 12.
Definition PTE_ADDR (pte : Z) : Z := Z.land pte (wrap32 (Z.lnot 0xFFF)).
Definition ROUNDDOWN (a n : Z) : Z := wrap32 (a - a mod n).
Definition ROUNDUP (a n : Z) : Z := ROUNDDOWN (wrap32 (a + n - 1)) n.

Definition CMDBUF_SIZE : Z := 80.
Definition MAXARGS : nat := 16.
Definition WHITESPACE : list ascii :=
  [ascii_of_nat 9; ascii_of_nat 13; ascii_of_nat 10; ascii_of_nat 32].

(** ** Data *)

(** Modelled from the spec: [struct Trapframe] of inc/trap.h, the register
    snapshot of a paused environment. *)
Record Trapframe := {
  tf_regs : list Z;
  tf_es : Z;
  tf_ds : Z;
  tf_trapno : Z;
  tf_err : Z;
  tf_eip : Z;
  tf_cs : Z;
  tf_eflags : Z;
  tf_esp : Z;
  tf_ss : Z
}.

Definition set_tf_eflags (t : Trapframe) (fl : Z) : Trapframe :=
  {| tf_regs := tf_regs t; tf_es := tf_es t; tf_ds := tf_ds t;
     tf_trapno := tf_trapno t; tf_err := tf_err t; tf_eip := tf_eip t;
     tf_cs := tf_cs t; tf_eflags := fl; tf_esp := tf_esp t;
     tf_ss := tf_ss t |}.

(** Modelled from the spec: [struct Eipdebuginfo] of kern/kdebug.h, what the
    symbol resolver reports for an instruction address. *)
Record Eipdebuginfo := {
  eip_file : string;
  eip_line : Z;
  eip_fn_name : string;
  eip_fn_namelen : Z;
  eip_fn_addr : Z;
  eip_fn_narg : Z
}.

(** The linker symbols [mon_kerninfo] prints. *)
Record KernSyms := {
  sym_start : Z;
  sym_entry : Z;
  sym_etext : Z;
  sym_edata : Z;
  sym_end : Z
}.

(** A [char*] held in [argv].  The array is an uninitialised local of
    [runcmd]: a slot is garbage until it is written, then it is either the
    null pointer or a pointer into the line buffer (an offset). *)
Inductive slot :=
| SUnset
| SNull
| SPtr (p : nat).

(** One argument of a [cprintf] call. *)
Inductive parg :=
| AInt (n : Z)
| AStr (s : string).

(** What reaches the console: a [cprintf] call with its format and its
    arguments, the prompt of a [readline] call, or the dump of
    [print_trapframe]. *)
Inductive event :=
| Cprintf (fmt : string) (args : list parg)
| Readline (prompt : string)
| PrintTrapframe (t : Trapframe).

(** The state the monitor works on. *)
Record machine := {
  m_out : list event;          (* console output so far, oldest first *)
  m_buf : list ascii;          (* the line buffer readline hands out *)
  m_pt : gmap Z Z;             (* kern_pgdir: page number to entry *)
  m_tfs : gmap Z Trapframe;    (* trap frames in memory, by address *)
  m_mem : gmap Z Z;            (* the word a 32-bit load finds at an address *)
  m_ebp : Z;                   (* the frame-pointer register *)
  m_npages : Z;                (* installed physical pages *)
  m_syms : Z -> Eipdebuginfo;  (* the debug tables debuginfo_eip consults *)
  m_ksyms : KernSyms
}.

Definition set_out (m : machine) (o : list event) : machine :=
  {| m_out := o; m_buf := m_buf m; m_pt := m_pt m; m_tfs := m_tfs m;
     m_mem := m_mem m; m_ebp := m_ebp m; m_npages := m_npages m;
     m_syms := m_syms m; m_ksyms := m_ksyms m |}.

Definition set_buf (m : machine) (b : list ascii) : machine :=
  {| m_out := m_out m; m_buf := b; m_pt := m_pt m; m_tfs := m_tfs m;
     m_mem := m_mem m; m_ebp := m_ebp m; m_npages := m_npages m;
     m_syms := m_syms m; m_ksyms := m_ksyms m |}.

Definition set_pt (m : machine) (pt : gmap Z Z) : machine :=
  {| m_out := m_out m; m_buf := m_buf m; m_pt := pt; m_tfs := m_tfs m;
     m_mem := m_mem m; m_ebp := m_ebp m; m_npages := m_npages m;
     m_syms := m_syms m; m_ksyms := m_ksyms m |}.

Definition set_tfs (m : machine) (t : gmap Z Trapframe) : machine :=
  {| m_out := m_out m; m_buf := m_buf m; m_pt := m_pt m; m_tfs := t;
     m_mem := m_mem m; m_ebp := m_ebp m; m_npages := m_npages m;
     m_syms := m_syms m; m_ksyms := m_ksyms m |}.

(** ** Outcomes *)

(** Why a command never came back. *)
Inductive crash :=
| BadString (s : slot)    (* a char* that is null or garbage was read as text *)
| PageFault (a : Z)       (* a load from an address nothing is mapped at *)
| KaddrPanic (pa : Z)     (* KADDR called beyond installed memory *)
| BadTrapframe (tf : Z).  (* a trap-frame pointer to no trap frame *)

(** A C function of the monitor either returns a value, or gives the
    processor away through [env_run] (which does not return), or dies on a
    fault, or is still looping when the fuel of the model runs out, or sits
    in [readline] with no more input scripted. *)
Inductive result (A : Type) :=
| Ret (a : A) (m : machine)
| EnvRun (m : machine)
| Crash (c : crash) (m : machine)
| OutOfFuel (m : machine)
| AwaitInput (m : machine).

Arguments Ret {A} a m.
Arguments EnvRun {A} m.
Arguments Crash {A} c m.
Arguments OutOfFuel {A} m.
Arguments AwaitInput {A} m.

Definition M (A : Type) : Type := machine -> result A.

Definition ret {A} (a : A) : M A := fun m => Ret a m.

Definition bind {A B} (c : M A) (k : A -> M B) : M B :=
  fun m =>
    match c m with
    | Ret a m' => k a m'
    | EnvRun m' => EnvRun m'
    | Crash e m' => Crash e m'
    | OutOfFuel m' => OutOfFuel m'
    | AwaitInput m' => AwaitInput m'
    end.

Notation "'do' x <- c ; k" := (bind c (fun x => k))
  (at level 10, x name, c at level 100, k at level 200).
Notation "c ;; k" := (bind c (fun _ => k))
  (at level 100, k at level 200, right associativity).

Definition get : M machine := fun m => Ret m m.
Definition put (m : machine) : M unit := fun _ => Ret tt m.
Definition env_run {A} : M A := fun m => EnvRun m.
Definition out_of_fuel {A} : M A := fun m => OutOfFuel m.

(** ** The collaborators of the monitor *)

(** Console output: the call is recorded, rendering is the console's. *)
Definition cprintf (fmt : string) (args : list parg) : M unit :=
  fun m => Ret tt (set_out m (m_out m ++ [Cprintf fmt args])).

(** Modelled from the spec: [print_trapframe] of kern/trap.c, which dumps
    the paused context to the console. *)
Definition print_trapframe (tf : Z) : M unit :=
  fun m =>
    match m_tfs m !! tf with
    | Some t => Ret tt (set_out m (m_out m ++ [PrintTrapframe t]))
    | None => Crash (BadTrapframe tf) m
    end.

(** A 32-bit load; nothing mapped at the address is a page fault, which in
    the kernel is fatal. *)
Definition load32 (a : Z) : M Z :=
  fun m =>
    match m_mem m !! a with
    | Some w => Ret w m
    | None => Crash (PageFault a) m
    end.

(** Modelled from the spec: the macro [KADDR] of kern/pmap.h, the
    physical-to-virtual translation: a physical address maps into the
    kernel window at [KERNBASE]; beyond installed memory it panics. *)
Definition KADDR (pa : Z) : M Z :=
  fun m =>
    if m_npages m <=? PGNUM pa then Crash (KaddrPanic pa) m
    else Ret (wrap32 (pa + KERNBASE)) m.

(** Modelled from the spec: [debuginfo_eip] of kern/kdebug.c, the symbol
    resolver; it fills in file, line, function name and function start. *)
Definition debuginfo_eip (addr : Z) : M Eipdebuginfo :=
  fun m => Ret (m_syms m addr) m.

(** Modelled from the spec: [pgdir_walk] of kern/pmap.c called with
    [create] set: it resolves the entry for the page of [va] and creates it,
    zeroed, when it is missing.  The pointer it returns is the page number
    the entry is stored under. *)
Definition pgdir_walk (va : Z) : M Z :=
  fun m =>
    match m_pt m !! PGNUM va with
    | Some _ => Ret (PGNUM va) m
    | None => Ret (PGNUM va) (set_pt m (<[PGNUM va := 0]> (m_pt m)))
    end.

(** [*pgtable] as an rvalue and as an lvalue. *)
Definition pte_load (p : Z) : M Z :=
  fun m => Ret (default 0 (m_pt m !! p)) m.

Definition pte_store (p : Z) (v : Z) : M unit :=
  fun m => Ret tt (set_pt m (<[p := v]> (m_pt m))).

(** ** C strings in the line buffer *)

Definition is_nul (c : ascii) : bool := Ascii.eqb c NUL.

(** [*buf]: past the end of the list sits the terminator of the buffer. *)
Definition deref (b : list ascii) (p : nat) : ascii := default NUL (b !! p).

(** [strchr(s, c) != 0], used for non-null [c] only. *)
Definition strchr (s : list ascii) (c : ascii) : bool := existsb (Ascii.eqb c) s.

(** The text a [char*] points at: the characters up to the first null. *)
Fixpoint until_nul (s : list ascii) : list ascii :=
  match s with
  | [] => []
  | c :: s' => if is_nul c then [] else c :: until_nul s'
  end.

Definition cstr (b : list ascii) (p : nat) : list ascii := until_nul (drop p b).

(** Modelled from the spec: [strtol] of lib/string.c called with base 0, the
    base-auto-detect parser: a [0x] prefix selects base 16, a leading [0]
    base 8, otherwise base 10; digits are taken while they are valid in the
    base, and text without such digits yields zero. *)
Definition digit_val (c : ascii) : option Z :=
  let n := Z.of_nat (nat_of_ascii c) in
  if (48 <=? n) && (n <=? 57) then Some (n - 48)
  else if (97 <=? n) && (n <=? 122) then Some (n - 97 + 10)
  else if (65 <=? n) && (n <=? 90) then Some (n - 65 + 10)
  else None.

Fixpoint strtol_digits (base : Z) (s : list ascii) (val : Z) : Z :=
  match s with
  | [] => val
  | c :: s' =>
      match digit_val c with
      | Some d =>
          if d <? base then strtol_digits base s' (val * base + d) else val
      | None => val
      end
  end.

Definition strtol (s : list ascii) : Z :=
  match s with
  | c0 :: c1 :: s' =>
      if Ascii.eqb c0 "0" && Ascii.eqb c1 "x" then strtol_digits 16 s' 0
      else if Ascii.eqb c0 "0" then strtol_digits 8 (c1 :: s') 0
      else strtol_digits 10 s 0
  | _ => strtol_digits 10 s 0
  end.

(** [argv[i]]; the array has [MAXARGS] slots. *)
Definition argv_get (argv : list slot) (i : nat) : slot :=
  default SUnset (argv !! i).

(** Reading the text behind a [char*].  A null or garbage pointer is not
    text: C leaves the read undefined, the model stops the command there and
    keeps the slot that was handed over. *)
Definition str_at (s : slot) : M (list ascii) :=
  fun m =>
    match s with
    | SPtr p => Ret (cstr (m_buf m) p) m
    | _ => Crash (BadString s) m
    end.

(** [x = strtol(s, NULL, 0)] with [x] a [size_t]. *)
Definition strtol_at (s : slot) : M Z :=
  do txt <- str_at s; ret (wrap32 (strtol txt)).

(** ** The command table *)

(** The nine functions a [struct Command] can point at. *)
Inductive fn :=
| fn_mon_help
| fn_mon_kerninfo
| fn_mon_backtrace
| fn_mon_map
| fn_mon_set
| fn_mon_xp
| fn_mon_xv
| fn_mon_c
| fn_mon_si.

Record Command := {
  name : string;
  desc : string;
  func : fn
}.

Definition commands : list Command :=
  [ {| name := "help"; desc := "Display this list of commands"; func := fn_mon_help |};
    {| name := "kerninfo"; desc := "Display information about the kernel"; func := fn_mon_kerninfo |};
    {| name := "backtrace"; desc := "Display stack"; func := fn_mon_backtrace |};
    {| name := "map"; desc := "Display mapping"; func := fn_mon_map |};
    {| name := "set"; desc := "Set mapping"; func := fn_mon_set |};
    {| name := "xp"; desc := "Dump physical memory"; func := fn_mon_xp |};
    {| name := "xv"; desc := "Dump virtual memory"; func := fn_mon_xv |};
    {| name := "c"; desc := "Continue process"; func := fn_mon_c |};
    {| name := "si"; desc := "Step"; func := fn_mon_si |} ].

Definition NCOMMANDS : nat := length commands.

(** ** The commands *)

(** Every command has the C signature [(int argc, char **argv, struct
    Trapframe *tf)]; [fuel] bounds the iterations of its loop. *)
Definition handler : Type := nat -> nat -> list slot -> Z -> M Z.

Fixpoint mon_help_loop (cs : list Command) : M unit :=
  match cs with
  | [] => ret tt
  | c :: cs' =>
      cprintf "%s - %s\n" [AStr (name c); AStr (desc c)] ;;
      mon_help_loop cs'
  end.

Definition mon_help (fuel argc : nat) (argv : list slot) (tf : Z) : M Z :=
  mon_help_loop commands ;; ret 0.

Definition mon_kerninfo (fuel argc : nat) (argv : list slot) (tf : Z) : M Z :=
  do m <- get;
  let k := m_ksyms m in
  cprintf "Special kernel symbols:\n" [] ;;
  cprintf "  _start                  %08x (phys)\n" [AInt (sym_start k)] ;;
  cprintf "  entry  %08x (virt)  %08x (phys)\n"
    [AInt (sym_entry k); AInt (wrap32 (sym_entry k - KERNBASE))] ;;
  cprintf "  etext  %08x (virt)  %08x (phys)\n"
    [AInt (sym_etext k); AInt (wrap32 (sym_etext k - KERNBASE))] ;;
  cprintf "  edata  %08x (virt)  %08x (phys)\n"
    [AInt (sym_edata k); AInt (wrap32 (sym_edata k - KERNBASE))] ;;
  cprintf "  end    %08x (virt)  %08x (phys)\n"
    [AInt (sym_end k); AInt (wrap32 (sym_end k - KERNBASE))] ;;
  cprintf "Kernel executable memory footprint: %dKB\n"
    [AInt (Z.quot (signed32 (ROUNDUP (wrap32 (sym_end k - sym_entry k)) 1024))
             1024)] ;;
  ret 0.

(** The [do ... while (cur)] of [mon_backtrace]: the body runs before the
    link is tested. *)
Fixpoint mon_backtrace_loop (n : nat) (cur : Z) : M unit :=
  match n with
  | O => out_of_fuel
  | S n' =>
      do eip <- load32 (wrap32 (cur + 4));
      do a1 <- load32 (wrap32 (cur + 8));
      do a2 <- load32 (wrap32 (cur + 12));
      do a3 <- load32 (wrap32 (cur + 16));
      do a4 <- load32 (wrap32 (cur + 20));
      do a5 <- load32 (wrap32 (cur + 24));
      cprintf "  ebp %08x  eip %08x  args %08x %08x %08x %08x %08x\n"
        [AInt cur; AInt eip; AInt a1; AInt a2; AInt a3; AInt a4; AInt a5] ;;
      do eip' <- load32 (wrap32 (cur + 4));
      do info <- debuginfo_eip eip';
      do eip'' <- load32 (wrap32 (cur + 4));
      cprintf "         %s:%d: %.*s+%d\n"
        [AStr (eip_file info); AInt (eip_line info);
         AInt (eip_fn_namelen info); AStr (eip_fn_name info);
         AInt (wrap32 (eip'' - eip_fn_addr info))] ;;
      do next <- load32 cur;
      if next =? 0 then ret tt else mon_backtrace_loop n' next
  end.

Definition mon_backtrace (fuel argc : nat) (argv : list slot) (tf : Z) : M Z :=
  do m <- get;
  let cur := m_ebp m in
  cprintf "Stack backtrace:\n" [] ;;
  mon_backtrace_loop fuel cur ;;
  ret 0.

(** The nine characters of [status], in the order the C code fills them. *)
Definition flag_char (pte flag : Z) (c : ascii) : ascii :=
  if Z.land pte flag =? 0 then "-"%char else c.

Definition render_status (pte : Z) : string :=
  String (flag_char pte PTE_G "G")
 (String (flag_char pte PTE_PS "S")
 (String (flag_char pte PTE_D "D")
 (String (flag_char pte PTE_A "A")
 (String (flag_char pte PTE_PCD "C")
 (String (flag_char pte PTE_PWT "T")
 (String (flag_char pte PTE_U "U")
 (String (flag_char pte PTE_W "W")
 (String (flag_char pte PTE_P "P") EmptyString)))))))).

Definition print_row (va pte : Z) : M unit :=
  cprintf "[%5x-%5x] %s %5x\n"
    [AInt (PGNUM va); AInt (wrap32 (PGNUM va + 1));
     AStr (render_status pte); AInt (PGNUM pte)].

(** [for (i = start; i < end; i += PGSIZE)] *)
Fixpoint mon_map_loop (n : nat) (i end_ : Z) : M unit :=
  if i <? end_ then
    match n with
    | O => out_of_fuel
    | S n' =>
        do pgtable <- pgdir_walk i;
        do pte <- pte_load pgtable;
        print_row i pte ;;
        mon_map_loop n' (wrap32 (i + PGSIZE)) end_
    end
  else ret tt.

Definition mon_map (fuel argc : nat) (argv : list slot) (tf : Z) : M Z :=
  do start <- strtol_at (argv_get argv 1);
  do end_ <- strtol_at (argv_get argv 2);
  if (start <? 0) || (end_ <? start) then
    cprintf "Invalid parameters[start=%08x, end=%08x]\n"
      [AInt start; AInt end_] ;;
    ret 0
  else
    let start := ROUNDDOWN start PGSIZE in
    mon_map_loop fuel start end_ ;;
    ret 0.

Definition mon_set (fuel argc : nat) (argv : list slot) (tf : Z) : M Z :=
  do page <- strtol_at (argv_get argv 1);
  do flag <- strtol_at (argv_get argv 2);
  if (page <? 0) || (KERNBASE <? page) then
    cprintf "Invalid parameters[page=%08x]\n" [AInt page] ;;
    ret 0
  else
    let page := ROUNDDOWN page PGSIZE in
    do pgtable <- pgdir_walk page;
    do old <- pte_load pgtable;
    pte_store pgtable (Z.lor (PTE_ADDR old) flag) ;;
    do pte <- pte_load pgtable;
    print_row page pte ;;
    ret 0.

Definition print_dump (start w0 w1 w2 w3 : Z) : M unit :=
  cprintf "[%08x]: 0x%08x 0x%08x 0x%08x 0x%08x\n"
    [AInt start; AInt w0; AInt w1; AInt w2; AInt w3].

(** [for (i = 0; i < length; i+=4, start+=16)], through [KADDR]. *)
Fixpoint mon_xp_loop (n : nat) (i start length : Z) : M unit :=
  if i <? length then
    match n with
    | O => out_of_fuel
    | S n' =>
        do p0 <- KADDR start;
        do w0 <- load32 p0;
        do p1 <- KADDR (wrap32 (start + 4));
        do w1 <- load32 p1;
        do p2 <- KADDR (wrap32 (start + 8));
        do w2 <- load32 p2;
        do p3 <- KADDR (wrap32 (start + 12));
        do w3 <- load32 p3;
        print_dump start w0 w1 w2 w3 ;;
        mon_xp_loop n' (wrap32 (i + 4)) (wrap32 (start + 16)) length
    end
  else ret tt.

Definition mon_xp (fuel argc : nat) (argv : list slot) (tf : Z) : M Z :=
  do start <- strtol_at (argv_get argv 1);
  do length <- strtol_at (argv_get argv 2);
  mon_xp_loop fuel 0 start length ;;
  ret 0.

Fixpoint mon_xv_loop (n : nat) (i start length : Z) : M unit :=
  if i <? length then
    match n with
    | O => out_of_fuel
    | S n' =>
        do w0 <- load32 start;
        do w1 <- load32 (wrap32 (start + 4));
        do w2 <- load32 (wrap32 (start + 8));
        do w3 <- load32 (wrap32 (start + 12));
        print_dump start w0 w1 w2 w3 ;;
        mon_xv_loop n' (wrap32 (i + 4)) (wrap32 (start + 16)) length
    end
  else ret tt.

Definition mon_xv (fuel argc : nat) (argv : list slot) (tf : Z) : M Z :=
  do start <- strtol_at (argv_get argv 1);
  do length <- strtol_at (argv_get argv 2);
  mon_xv_loop fuel 0 start length ;;
  ret 0.

(** [tf->field] for a non-null [tf]. *)
Definition tf_load (p : Z) : M Trapframe :=
  fun m =>
    match m_tfs m !! p with
    | Some t => Ret t m
    | None => Crash (BadTrapframe p) m
    end.

Definition tf_store (p : Z) (t : Trapframe) : M unit :=
  fun m => Ret tt (set_tfs m (<[p := t]> (m_tfs m))).

(** [tf == NULL || (tf->tf_trapno != T_BRKPT && tf->tf_trapno != T_DEBUG)] *)
Definition bad_trapframe (tf : Z) : M bool :=
  if tf =? 0 then ret true
  else
    do t <- tf_load tf;
    ret (negb (tf_trapno t =? T_BRKPT) && negb (tf_trapno t =? T_DEBUG)).

Definition mon_c (fuel argc : nat) (argv : list slot) (tf : Z) : M Z :=
  do bad <- bad_trapframe tf;
  if bad then
    cprintf "Invalid Trapframe\n" [] ;;
    ret (-1)
  else
    do t <- tf_load tf;
    tf_store tf (set_tf_eflags t (Z.land (tf_eflags t) (wrap32 (Z.lnot FL_TF)))) ;;
    env_run.

Definition mon_si (fuel argc : nat) (argv : list slot) (tf : Z) : M Z :=
  do bad <- bad_trapframe tf;
  if bad then
    cprintf "Invalid Trapframe\n" [] ;;
    ret (-1)
  else
    do t <- tf_load tf;
    do info <- debuginfo_eip (tf_eip t);
    cprintf "0x%08x %s:%d: %.*s+%d\n"
      [AInt (tf_eip t); AStr (eip_file info); AInt (eip_line info);
       AInt (eip_fn_namelen info); AStr (eip_fn_name info);
       AInt (wrap32 (tf_eip t - eip_fn_addr info))] ;;
    do t' <- tf_load tf;
    tf_store tf (set_tf_eflags t' (Z.lor (tf_eflags t') FL_TF)) ;;
    env_run.

(** [commands[i].func(argc, argv, tf)] *)
Definition call (f : fn) : handler :=
  match f with
  | fn_mon_help => mon_help
  | fn_mon_kerninfo => mon_kerninfo
  | fn_mon_backtrace => mon_backtrace
  | fn_mon_map => mon_map
  | fn_mon_set => mon_set
  | fn_mon_xp => mon_xp
  | fn_mon_xv => mon_xv
  | fn_mon_c => mon_c
  | fn_mon_si => mon_si
  end.

(** ** The command interpreter *)

(** [while ( *buf && strchr(WHITESPACE, *buf)) *buf++ = 0;]
    [n] counts the characters left before the terminator. *)
Fixpoint gobble (n : nat) (b : list ascii) (p : nat) : list ascii * nat :=
  match n with
  | O => (b, p)
  | S n' =>
      if negb (is_nul (deref b p)) && strchr WHITESPACE (deref b p)
      then gobble n' (<[p := NUL]> b) (S p)
      else (b, p)
  end.

(** [while ( *buf && !strchr(WHITESPACE, *buf)) buf++;] *)
Fixpoint scan_arg (n : nat) (b : list ascii) (p : nat) : nat :=
  match n with
  | O => p
  | S n' =>
      if negb (is_nul (deref b p)) && negb (strchr WHITESPACE (deref b p))
      then scan_arg n' b (S p)
      else p
  end.

(** How the [while (1)] of [runcmd] ends: with the argument vector, or with
    the complaint about too many arguments. *)
Inductive parsed :=
| Parsed (b : list ascii) (argc : nat) (argv : list slot)
| TooMany (b : list ascii)
| Unfinished.

(** The [while (1)] loop.  Every round that does not leave the loop fills
    one slot, so [MAXARGS] rounds are enough to leave it. *)
Fixpoint parse_loop (n : nat) (b : list ascii) (p : nat) (argc : nat)
    (argv : list slot) : parsed :=
  match n with
  | O => Unfinished
  | S n' =>
      let '(b1, p1) := gobble (length b - p) b p in
      if is_nul (deref b1 p1) then Parsed b1 argc argv
      else if (argc =? MAXARGS - 1)%nat then TooMany b1
      else
        let argv1 := <[argc := SPtr p1]> argv in
        let p2 := scan_arg (length b1 - p1) b1 p1 in
        parse_loop n' b1 p2 (S argc) argv1
  end.

(** [for (i = 0; i < NCOMMANDS; i++) if (strcmp(argv[0], commands[i].name) == 0) ...] *)
Fixpoint find_command (arg0 : list ascii) (cs : list Command) : option Command :=
  match cs with
  | [] => None
  | c :: cs' =>
      if String.eqb (string_of_list_ascii arg0) (name c) then Some c
      else find_command arg0 cs'
  end.

Definition runcmd (fuel : nat) (buf : nat) (tf : Z) : M Z :=
  do m <- get;
  let argv0 := <[0%nat := SNull]> (replicate MAXARGS SUnset) in
  match parse_loop MAXARGS (m_buf m) buf 0 argv0 with
  | Unfinished => out_of_fuel
  | TooMany b =>
      put (set_buf m b) ;;
      cprintf "Too many arguments (max %d)\n" [AInt (Z.of_nat MAXARGS)] ;;
      ret 0
  | Parsed b argc argv1 =>
      put (set_buf m b) ;;
      let argv := <[argc := SNull]> argv1 in
      if (argc =? 0)%nat then ret 0
      else
        do arg0 <- str_at (argv_get argv 0);
        match find_command arg0 commands with
        | Some c => call (func c) fuel argc argv tf
        | None =>
            cprintf "Unknown command '%s'\n" [AStr (string_of_list_ascii arg0)] ;;
            ret 0
        end
  end.

(** ** The monitor loop *)

(** Modelled from the spec: [readline] of lib/readline.c, the line
    acquisition.  It prints the prompt and hands out the next line in its
    buffer, or a null pointer at end of input.  [line] is what the operator
    supplies to this call. *)
Definition readline (prompt : string) (line : option (list ascii)) : M (option nat) :=
  fun m =>
    let m1 := set_out m (m_out m ++ [Readline prompt]) in
    match line with
    | Some s => Ret (Some 0%nat) (set_buf m1 s)
    | None => Ret None m1
    end.

(** One round of the [while (1)] of [monitor]; [true] stands for [break]. *)
Definition monitor_body (fuel : nat) (line : option (list ascii)) (tf : Z) : M bool :=
  do buf <- readline "K> " line;
  match buf with
  | Some b =>
      do r <- runcmd fuel b tf;
      if r <? 0 then ret true else ret false
  | None => ret false
  end.

(** The loop over the lines the operator will type; it hands back the lines
    it never asked for.  With the script used up it sits in [readline]. *)
Fixpoint monitor_loop (fuel : nat) (input : list (option (list ascii))) (tf : Z)
    : M (list (option (list ascii))) :=
  match input with
  | [] => fun m => AwaitInput (set_out m (m_out m ++ [Readline "K> "]))
  | line :: rest =>
      do stop <- monitor_body fuel line tf;
      if stop then ret rest else monitor_loop fuel rest tf
  end.

Definition monitor (fuel : nat) (input : list (option (list ascii))) (tf : Z)
    : M (list (option (list ascii))) :=
  cprintf "%<RWelcome to the JOS kernel monitor!\n" [] ;;
  cprintf "%<GType 'help' for a list of commands.\n" [] ;;
  (if tf =? 0 then ret tt else print_trapframe tf) ;;
  monitor_loop fuel input tf.

(** ** Trying the model *)

Definition buf_of (s : string) : list ascii := list_ascii_of_string s.

Definition no_syms : Z -> Eipdebuginfo :=
  fun _ => {| eip_file := "<unknown>"; eip_line := 0;
              eip_fn_name := "<unknown>"; eip_fn_namelen := 9;
              eip_fn_addr := 0; eip_fn_narg := 0 |}.

(** A machine with empty page tables, no memory mapped and no trap frame. *)
Definition machine0 : machine :=
  {| m_out := []; m_buf := []; m_pt := ∅; m_tfs := ∅; m_mem := ∅;
     m_ebp := 0; m_npages := 0; m_syms := no_syms;
     m_ksyms := {| sym_start := 0x10000c; sym_entry := 0xF010000C;
                   sym_etext := 0xF0101000; sym_edata := 0xF0112000;
                   sym_end := 0xF0113000 |} |}.

(** * Notions used in the statements *)

(** The number a command finds in [argv[i]], when the slot points at text. *)
Definition arg_num (m : machine) (argv : list slot) (i : nat) : option Z :=
  match argv_get argv i with
  | SPtr p => Some (wrap32 (strtol (cstr (m_buf m) p)))
  | _ => None
  end.

(** The flag bits of an entry: its low twelve bits. *)
Definition PTE_FLAGS (pte : Z) : Z := Z.land pte 0xFFF.

(** The entry of the page of [va]; a page without an entry reads as the
    zeroed entry the walker would create. *)
Definition pte_of (m : machine) (va : Z) : Z := default 0 (m_pt m !! PGNUM va).

(** The line [print_row] sends to the console. *)
Definition row (va pte : Z) : event :=
  Cprintf "[%5x-%5x] %s %5x\n"
    [AInt (PGNUM va); AInt (wrap32 (PGNUM va + 1));
     AStr (render_status pte); AInt (PGNUM pte)].

(** *** The status string, from the flag bits

    The nine flags a row shows, in the order of the string: global,
    large page, dirty, accessed, cache disable, write through, user,
    writable, present, each with its bit number in an entry and its letter. *)
Definition flag_letters : list (Z * ascii) :=
  [(8, "G"); (7, "S"); (6, "D"); (5, "A"); (4, "C"); (3, "T"); (2, "U");
   (1, "W"); (0, "P")]%char.

(** The status string of a flags value: the letter of every flag whose bit
    is set, a dash for every flag whose bit is clear. *)
Definition status_of_flags (flags : Z) : string :=
  string_of_list_ascii
    (map (fun bc : Z * ascii => if Z.testbit flags (fst bc) then snd bc else "-"%char)
         flag_letters).

(** Reading a status string back: the bits of the positions that do not
    show a dash. *)
Fixpoint flags_of_chars (cs : list ascii) (bs : list (Z * ascii)) : Z :=
  match cs, bs with
  | c :: cs', bc :: bs' =>
      Z.lor (if Ascii.eqb c "-" then 0 else 2 ^ fst bc) (flags_of_chars cs' bs')
  | _, _ => 0
  end.

Definition flags_of_status (s : string) : Z :=
  flags_of_chars (list_ascii_of_string s) flag_letters.

(** Two trap frames with the same registers, the flags word apart. *)
Definition same_registers (t t' : Trapframe) : Prop :=
  tf_regs t' = tf_regs t /\ tf_es t' = tf_es t /\ tf_ds t' = tf_ds t /\
  tf_trapno t' = tf_trapno t /\ tf_err t' = tf_err t /\
  tf_eip t' = tf_eip t /\ tf_cs t' = tf_cs t /\ tf_esp t' = tf_esp t /\
  tf_ss t' = tf_ss t.

(** The pages a [mon_map] loop of [n] rounds visits from [va] on. *)
Fixpoint map_pages (n : nat) (va : Z) : list Z :=
  match n with
  | O => []
  | S n' => va :: map_pages n' (va + PGSIZE)
  end.

(** What a walk with [create] set does to the page tables. *)
Definition touch (pt : gmap Z Z) (va : Z) : gmap Z Z :=
  match pt !! PGNUM va with
  | Some _ => pt
  | None => <[PGNUM va := 0]> pt
  end.

(** *** The tokens of a line

    The tokenizer is specified by a function on the text alone: the tokens
    are the maximal runs of characters that are not white space, up to the
    first null. *)

Definition is_ws (c : ascii) : bool := negb (is_nul c) && strchr WHITESPACE c.
Definition is_tok (c : ascii) : bool := negb (is_nul c) && negb (strchr WHITESPACE c).

Definition push (w : list ascii) (ws : list (list ascii)) : list (list ascii) :=
  match w with
  | [] => ws
  | _ => w :: ws
  end.

(** One pass from the right: the run of token characters the text starts
    with (empty when it starts otherwise), and the tokens after that run. *)
Fixpoint lex (s : list ascii) : list ascii * list (list ascii) :=
  match s with
  | [] => ([], [])
  | c :: s' =>
      if is_nul c then ([], [])
      else
        let '(w, ws) := lex s' in
        if strchr WHITESPACE c then ([], push w ws) else (c :: w, ws)
  end.

Definition tokens (s : list ascii) : list (list ascii) :=
  let '(w, ws) := lex s in push w ws.

Fixpoint skip_ws (s : list ascii) : list ascii :=
  match s with
  | [] => []
  | c :: s' => if is_ws c then skip_ws s' else s
  end.

Fixpoint take_tok (s : list ascii) : list ascii :=
  match s with
  | [] => []
  | c :: s' => if is_tok c then c :: take_tok s' else []
  end.

Fixpoint drop_tok (s : list ascii) : list ascii :=
  match s with
  | [] => []
  | c :: s' => if is_tok c then drop_tok s' else s
  end.

(** What a command is handed for a line with the tokens [toks]: the slots
    of the tokens point at their text in the buffer [b], the slot after
    them is null, the slots beyond were never written. *)
Definition argv_holds (b : list ascii) (argv : list slot)
    (toks : list (list ascii)) : Prop :=
  length argv = MAXARGS /\
  (forall i t, toks !! i = Some t ->
     exists q, argv !! i = Some (SPtr q) /\ cstr b q = t) /\
  argv !! length toks = Some SNull /\
  (forall i, (length toks < i < MAXARGS)%nat -> argv !! i = Some SUnset).

(** The argument vector before the first token is stored: [argv[0] = 0],
    the other slots never written. *)
Definition argv0 : list slot := <[0%nat := SNull]> (replicate MAXARGS SUnset).

(** No context to resume: the trap-frame pointer is null, or the frame it
    points at was pushed by a trap that is neither a breakpoint nor a
    single step. *)
Definition no_valid_context (m : machine) (tf : Z) : Prop :=
  tf = 0 \/
  exists t, m_tfs m !! tf = Some t /\
            tf_trapno t <> T_BRKPT /\ tf_trapno t <> T_DEBUG.

(** The commands that parse [argv[1]] and [argv[2]] as numbers. *)
Definition numeric_fns : list fn := [fn_mon_map; fn_mon_set; fn_mon_xp; fn_mon_xv].

(** *** What the dumpers print *)

(** The word a load from the virtual address [a] finds, and the word behind
    the physical address [pa] seen through the kernel window. *)
Definition word_at (m : machine) (a : Z) : Z := default 0 (m_mem m !! a).
Definition phys_word_at (m : machine) (pa : Z) : Z :=
  word_at m (wrap32 (pa + KERNBASE)).

(** Line [k] of a dump from [start]: its address is [start + 16 k], and its
    four words are the words [4 k] to [4 k + 3] of the dump, word [j] being
    read at [start + 4 j]. *)
Definition dump_line (rd : Z -> Z) (start : Z) (k : nat) : event :=
  let j := 4 * Z.of_nat k in
  Cprintf "[%08x]: 0x%08x 0x%08x 0x%08x 0x%08x\n"
    [AInt (wrap32 (start + 16 * Z.of_nat k));
     AInt (rd (wrap32 (start + 4 * j)));
     AInt (rd (wrap32 (start + 4 * (j + 1))));
     AInt (rd (wrap32 (start + 4 * (j + 2))));
     AInt (rd (wrap32 (start + 4 * (j + 3))))].

Definition dump_lines (rd : Z -> Z) (start : Z) (n : nat) : list event :=
  map (dump_line rd start) (seq 0 n).

(** The number of lines for a length: the length over four, rounded up. *)
Definition dump_count (length : Z) : nat := Z.to_nat ((length + 3) / 4).

(** The number of memory words on the console: every dump line shows the
    words that follow its address. *)
Definition event_words (e : event) : nat :=
  match e with
  | Cprintf fmt args =>
      if String.eqb fmt "[%08x]: 0x%08x 0x%08x 0x%08x 0x%08x\n"
      then (length args - 1)%nat else O
  | _ => O
  end.

Definition words_printed (out : list event) : nat :=
  foldr (fun e n => (event_words e + n)%nat) O out.

(** *** The saved frame-pointer chain *)

(** What the unwinder reads of one frame: the frame pointer, the return
    address one word above it, the five words after that, and the saved
    frame pointer of the caller the frame pointer points at. *)
Record frame := {
  fr_ebp : Z;
  fr_eip : Z;
  fr_args : list Z;
  fr_link : Z
}.

Definition read_frame (mem : gmap Z Z) (fp : Z) : option frame :=
  eip ← mem !! wrap32 (fp + 4);
  a1 ← mem !! wrap32 (fp + 8);
  a2 ← mem !! wrap32 (fp + 12);
  a3 ← mem !! wrap32 (fp + 16);
  a4 ← mem !! wrap32 (fp + 20);
  a5 ← mem !! wrap32 (fp + 24);
  link ← mem !! fp;
  Some {| fr_ebp := fp; fr_eip := eip; fr_args := [a1; a2; a3; a4; a5];
          fr_link := link |}.

(** A chain of exactly [n] frames from [fp] on: every frame but the last
    links to the next one, the last one has a zero link. *)
Fixpoint frame_chain (mem : gmap Z Z) (n : nat) (fp : Z) : option (list frame) :=
  match n with
  | O => None
  | S n' =>
      fr ← read_frame mem fp;
      if fr_link fr =? 0 then
        match n' with
        | O => Some [fr]
        | S _ => None
        end
      else
        frs ← frame_chain mem n' (fr_link fr);
        Some (fr :: frs)
  end.

(** The seven addresses the unwinder reads of a frame. *)
Definition frame_words (fr : frame) : list Z :=
  [fr_ebp fr; wrap32 (fr_ebp fr + 4); wrap32 (fr_ebp fr + 8);
   wrap32 (fr_ebp fr + 12); wrap32 (fr_ebp fr + 16); wrap32 (fr_ebp fr + 20);
   wrap32 (fr_ebp fr + 24)].

(** The record of one frame on the console: the line of the frame and the
    line of the symbol information of its return address. *)
Definition frame_record (syms : Z -> Eipdebuginfo) (fr : frame) : list event :=
  let info := syms (fr_eip fr) in
  [Cprintf "  ebp %08x  eip %08x  args %08x %08x %08x %08x %08x\n"
     (AInt (fr_ebp fr) :: AInt (fr_eip fr) :: map AInt (fr_args fr));
   Cprintf "         %s:%d: %.*s+%d\n"
     [AStr (eip_file info); AInt (eip_line info);
      AInt (eip_fn_namelen info); AStr (eip_fn_name info);
      AInt (wrap32 (fr_eip fr - eip_fn_addr info))]].

(** *** Machines to try the commands on *)

(** Three frames at 0x1000, 0x2000 and 0x3000, the last with a zero link,
    and nothing else in memory. *)
Definition three_frames : gmap Z Z :=
  list_to_map
    [(0x1000, 0x2000); (0x1004, 0xF0100068); (0x1008, 1); (0x100C, 2);
     (0x1010, 3); (0x1014, 4); (0x1018, 5);
     (0x2000, 0x3000); (0x2004, 0xF0100A10); (0x2008, 6); (0x200C, 7);
     (0x2010, 8); (0x2014, 9); (0x2018, 10);
     (0x3000, 0); (0x3004, 0xF010003E); (0x3008, 11); (0x300C, 12);
     (0x3010, 13); (0x3014, 14); (0x3018, 15)].

Definition machine_with_stack : machine :=
  {| m_out := []; m_buf := []; m_pt := ∅; m_tfs := ∅; m_mem := three_frames;
     m_ebp := 0x1000; m_npages := 0; m_syms := no_syms;
     m_ksyms := m_ksyms machine0 |}.

(** Four words at the virtual address 0x1000 and four behind the physical
    address 0x1000, with 16 pages of memory installed. *)
Definition four_words : gmap Z Z :=
  list_to_map
    [(0x1000, 11); (0x1004, 12); (0x1008, 13); (0x100C, 14);
     (0xF0001000, 21); (0xF0001004, 22); (0xF0001008, 23); (0xF000100C, 24)].

Definition machine_with_words (line : string) : machine :=
  {| m_out := []; m_buf := buf_of line; m_pt := ∅; m_tfs := ∅;
     m_mem := four_words; m_ebp := 0; m_npages := 16; m_syms := no_syms;
     m_ksyms := m_ksyms machine0 |}.

(** A context paused at a breakpoint, with the single-step bit set. *)
Definition breakpoint_frame : Trapframe :=
  {| tf_regs := [0; 0; 0; 0; 0; 0; 0; 0]; tf_es := 0x23; tf_ds := 0x23;
     tf_trapno := 3; tf_err := 0; tf_eip := 0x800042; tf_cs := 0x1B;
     tf_eflags := 0x306; tf_esp := 0xEEBFDFD0; tf_ss := 0x23 |}.

Definition machine_at_breakpoint : machine :=
  set_tfs machine0 {[ 0xF01C0000 := breakpoint_frame ]}.

(** *** Notions for the rest of the monitor *)

(** What the tokenizer may do to a character of the line: leave it, or
    overwrite it with a null when it is white space. *)
Definition zeroed_char (c c' : ascii) : Prop :=
  c' = c \/ (is_ws c = true /\ c' = NUL).

Definition only_ws_zeroed (b b' : list ascii) : Prop := Forall2 zeroed_char b b'.

(** A line without a token: up to its first null it is white space. *)
Definition blank (s : list ascii) : Prop :=
  Forall (fun c => strchr WHITESPACE c = true) (until_nul s).

(** What [readline] hands over when the operator types nothing: a null
    pointer, or a line without a token. *)
Definition quiet_line (l : option (list ascii)) : Prop :=
  match l with
  | None => True
  | Some s => blank s
  end.

(** A computation whose only return value is 0. *)
Definition returns_zero (c : M Z) : Prop :=
  forall m r m', c m = Ret r m' -> r = 0.

(** The line [mon_help] prints for a command. *)
Definition help_line (c : Command) : event :=
  Cprintf "%s - %s\n" [AStr (name c); AStr (desc c)].

(** The machine a computation leaves behind, however it ends. *)
Definition final {A} (r : result A) : machine :=
  match r with
  | Ret _ m => m
  | EnvRun m => m
  | Crash _ m => m
  | OutOfFuel m => m
  | AwaitInput m => m
  end.

(** What a command keeps of the machine: the line buffer always, the
    console up to what it appends, and, as asked, the page tables and the
    trap frames. *)
Definition keeps (pt tfs : bool) (m m' : machine) : Prop :=
  m_buf m' = m_buf m /\
  (exists evs, m_out m' = m_out m ++ evs) /\
  (pt = true -> m_pt m' = m_pt m) /\
  (tfs = true -> m_tfs m' = m_tfs m).

(** A computation that keeps that much of every machine it is run on. *)
Definition preserves {A} (pt tfs : bool) (c : M A) : Prop :=
  forall m, keeps pt tfs m (final (c m)).

Definition touches_pt (f : fn) : bool :=
  match f with
  | fn_mon_map | fn_mon_set => true
  | _ => false
  end.

Definition touches_tf (f : fn) : bool :=
  match f with
  | fn_mon_c | fn_mon_si => true
  | _ => false
  end.

(** [n] frames from [fp] on, none of them with a zero link: a chain that
    has not ended yet. *)
Fixpoint open_chain (mem : gmap Z Z) (n : nat) (fp : Z) : option (list frame) :=
  match n with
  | O => Some []
  | S n' =>
      fr ← read_frame mem fp;
      if fr_link fr =? 0 then None
      else
        frs ← open_chain mem n' (fr_link fr);
        Some (fr :: frs)
  end.

(** A frame at 0x1000 whose saved frame pointer is 0x1000 again. *)
Definition looping_frame : gmap Z Z :=
  list_to_map
    [(0x1000, 0x1000); (0x1004, 0xF0100068); (0x1008, 1); (0x100C, 2);
     (0x1010, 3); (0x1014, 4); (0x1018, 5)].

Definition machine_with_loop : machine :=
  {| m_out := []; m_buf := []; m_pt := ∅; m_tfs := ∅; m_mem := looping_frame;
     m_ebp := 0x1000; m_npages := 0; m_syms := no_syms;
     m_ksyms := m_ksyms machine0 |}.

(** The kilobytes [mon_kerninfo] reports for the linker symbols. *)
Definition footprint_kb (k : KernSyms) : Z :=
  Z.quot (signed32 (ROUNDUP (wrap32 (sym_end k - sym_entry k)) 1024)) 1024.

(** * Properties *)

(** ** Words, pages and entries *)

Ltac pow32 := change (2 ^ 32) with 4294967296 in *.

Lemma wrap32_range x : 0 <= wrap32 x < 2 ^ 32.
Proof. unfold wrap32. apply Z.mod_pos_bound. lia. Qed.

Lemma wrap32_small x : 0 <= x < 2 ^ 32 -> wrap32 x = x.
Proof. intros. unfold wrap32. apply Z.mod_small. lia. Qed.

Lemma wrap32_add_l a b : wrap32 (wrap32 a + b) = wrap32 (a + b).
Proof. unfold wrap32. apply Zplus_mod_idemp_l. Qed.

Lemma PGNUM_div x : PGNUM x = x / 4096.
Proof. unfold PGNUM. rewrite Z.shiftr_div_pow2 by lia. reflexivity. Qed.

Lemma ROUNDDOWN_PGSIZE x :
  0 <= x < 2 ^ 32 -> ROUNDDOWN x PGSIZE = 4096 * (x / 4096).
Proof.
  intros Hx. unfold ROUNDDOWN, PGSIZE.
  pose proof (Z.div_mod x 4096 ltac:(lia)).
  pose proof (Z.mod_pos_bound x 4096 ltac:(lia)).
  rewrite wrap32_small; pow32; lia.
Qed.

Lemma ROUNDDOWN_aligned x :
  0 <= x < 2 ^ 32 -> x mod PGSIZE = 0 -> ROUNDDOWN x PGSIZE = x.
Proof.
  intros Hx Hal. unfold ROUNDDOWN. rewrite Hal, Z.sub_0_r.
  by apply wrap32_small.
Qed.

Lemma PGNUM_ROUNDDOWN x :
  0 <= x < 2 ^ 32 -> PGNUM (ROUNDDOWN x PGSIZE) = PGNUM x.
Proof.
  intros Hx. rewrite ROUNDDOWN_PGSIZE, !PGNUM_div by done.
  rewrite Z.mul_comm, Z.div_mul; lia.
Qed.

Lemma small_bits f k n : 0 <= f < 2 ^ k -> 0 <= k <= n -> Z.testbit f n = false.
Proof.
  intros Hf Hk. rewrite <- (Z.mod_small f (2 ^ k)) by lia.
  by apply Z.mod_pow2_bits_high.
Qed.

(** The mask of [PTE_ADDR] has exactly the bits 12 to 31. *)
Lemma addr_mask_bits n :
  0 <= n -> Z.testbit (wrap32 (Z.lnot 0xFFF)) n = (12 <=? n) && (n <? 32).
Proof.
  intros Hn. change (wrap32 (Z.lnot 0xFFF)) with (Z.shiftl (Z.ones 20) 12).
  rewrite Z.shiftl_spec by done.
  destruct (Z.leb_spec 12 n) as [H|H]; cbn.
  - rewrite Z.testbit_ones_nonneg by lia.
    destruct (Z.ltb_spec (n - 12) 20), (Z.ltb_spec n 32); try reflexivity; lia.
  - apply Z.testbit_neg_r. lia.
Qed.

Lemma flags_mask_bits n : 0 <= n -> Z.testbit 0xFFF n = (n <? 12).
Proof.
  intros Hn. change 0xFFF with (Z.ones 12).
  by apply Z.testbit_ones_nonneg.
Qed.

(** What the assignment [*pgtable = PTE_ADDR( *pgtable) | flag] leaves in the
    entry when [flag] fits the twelve flag bits. *)
Lemma PTE_FLAGS_set old f :
  0 <= f < 4096 -> PTE_FLAGS (Z.lor (PTE_ADDR old) f) = f.
Proof.
  intros Hf. unfold PTE_FLAGS, PTE_ADDR. apply Z.bits_inj'. intros n Hn.
  rewrite Z.land_spec, Z.lor_spec, Z.land_spec, addr_mask_bits,
    flags_mask_bits by done.
  destruct (Z.ltb_spec n 12).
  - replace (12 <=? n) with false by (symmetry; apply Z.leb_gt; lia).
    cbn. by rewrite andb_false_r, andb_true_r.
  - rewrite (small_bits f 12 n) by lia. by rewrite andb_false_r.
Qed.

Lemma PTE_ADDR_set old f :
  0 <= f < 4096 -> PTE_ADDR (Z.lor (PTE_ADDR old) f) = PTE_ADDR old.
Proof.
  intros Hf. unfold PTE_ADDR. apply Z.bits_inj'. intros n Hn.
  rewrite !Z.land_spec, Z.lor_spec, Z.land_spec, addr_mask_bits by done.
  destruct (Z.leb_spec 12 n).
  - rewrite (small_bits f 12 n) by lia.
    destruct (Z.testbit old n), (n <? 32); reflexivity.
  - cbn. by rewrite !andb_false_r.
Qed.

Lemma PGNUM_set old f :
  0 <= f < 4096 -> PGNUM (Z.lor (PTE_ADDR old) f) = PGNUM (PTE_ADDR old).
Proof.
  intros Hf. unfold PGNUM. rewrite Z.shiftr_lor.
  replace (Z.shiftr f 12) with 0; [apply Z.lor_0_r|].
  rewrite Z.shiftr_div_pow2 by lia. symmetry. apply Z.div_small. lia.
Qed.

Lemma land_set_low old f c :
  Z.land (wrap32 (Z.lnot 0xFFF)) c = 0 ->
  Z.land (Z.lor (PTE_ADDR old) f) c = Z.land f c.
Proof.
  intros Hc. unfold PTE_ADDR.
  rewrite Z.land_lor_distr_l, <- Z.land_assoc, Hc, Z.land_0_r.
  apply Z.lor_0_l.
Qed.

(** The status string only looks at flag bits, so after the assignment it
    is the rendering of [flag] itself. *)
Lemma render_status_set old f :
  render_status (Z.lor (PTE_ADDR old) f) = render_status f.
Proof.
  unfold render_status, flag_char.
  by rewrite !land_set_low by reflexivity.
Qed.

(** ** Reading the numeric arguments *)

Lemma arg_num_range m argv i v : arg_num m argv i = Some v -> 0 <= v < 2 ^ 32.
Proof.
  unfold arg_num. destruct (argv_get argv i); try discriminate.
  intros [= <-]. apply wrap32_range.
Qed.

Lemma strtol_at_arg m argv i v :
  arg_num m argv i = Some v -> strtol_at (argv_get argv i) m = Ret v m.
Proof.
  unfold arg_num, strtol_at, bind, str_at, ret.
  destruct (argv_get argv i); try discriminate. by intros [= <-].
Qed.

Lemma strtol_at_bad m argv i :
  arg_num m argv i = None ->
  strtol_at (argv_get argv i) m = Crash (BadString (argv_get argv i)) m.
Proof.
  unfold arg_num, strtol_at, bind, str_at.
  by destruct (argv_get argv i).
Qed.

(** ** [mon_set] *)

(** Whenever the guard lets the address through, the entry of its page is
    rewritten and the new entry is printed. *)
Lemma mon_set_accept fuel argc argv tf m page flag :
  arg_num m argv 1 = Some page -> arg_num m argv 2 = Some flag ->
  page <= KERNBASE ->
  let pte := Z.lor (PTE_ADDR (pte_of m page)) flag in
  mon_set fuel argc argv tf m =
    Ret 0 (set_out (set_pt m (<[PGNUM page := pte]> (m_pt m)))
                   (m_out m ++ [row page pte])).
Proof.
  intros H1 H2 Hle. pose proof (arg_num_range _ _ _ _ H1) as Hr.
  unfold mon_set, bind at 1. rewrite (strtol_at_arg _ _ _ _ H1).
  unfold bind at 1. rewrite (strtol_at_arg _ _ _ _ H2).
  replace (page <? 0) with false by (symmetry; apply Z.ltb_ge; lia).
  replace (KERNBASE <? page) with false by (symmetry; apply Z.ltb_ge; lia).
  cbn [orb].
  unfold bind, pgdir_walk, pte_load, pte_store, print_row, cprintf, ret,
    pte_of, row.
  rewrite !PGNUM_ROUNDDOWN by done.
  destruct (m_pt m !! PGNUM page) eqn:E; cbn.
  - rewrite E. cbn. rewrite lookup_insert_eq. reflexivity.
  - rewrite !lookup_insert_eq. cbn. rewrite insert_insert_eq. reflexivity.
Qed.

(** Strictly above [KERNBASE] the guard fires: an error line, status zero,
    and the machine is otherwise as it was. *)
Lemma mon_set_reject fuel argc argv tf m page flag :
  arg_num m argv 1 = Some page -> arg_num m argv 2 = Some flag ->
  KERNBASE < page ->
  mon_set fuel argc argv tf m =
    Ret 0 (set_out m (m_out m ++
             [Cprintf "Invalid parameters[page=%08x]\n" [AInt page]])).
Proof.
  intros H1 H2 Hlt.
  unfold mon_set, bind at 1. rewrite (strtol_at_arg _ _ _ _ H1).
  unfold bind at 1. rewrite (strtol_at_arg _ _ _ _ H2).
  replace (KERNBASE <? page) with true by (symmetry; apply Z.ltb_lt; lia).
  by rewrite orb_true_r.
Qed.

(** ** [mon_map] *)

Lemma set_pt_out_id m : set_out (set_pt m (m_pt m)) (m_out m ++ []) = m.
Proof. destruct m. unfold set_out, set_pt. cbn. by rewrite app_nil_r. Qed.

Lemma set_pt_id m : set_pt m (m_pt m) = m.
Proof. by destruct m. Qed.

Lemma pgdir_walk_touch va m :
  pgdir_walk va m = Ret (PGNUM va) (set_pt m (touch (m_pt m) va)).
Proof.
  unfold pgdir_walk, touch. destruct (m_pt m !! PGNUM va); [|done].
  by rewrite set_pt_id.
Qed.

(** Creating a zeroed entry does not change what any entry reads as. *)
Lemma touch_default pt va k : default 0 (touch pt va !! k) = default 0 (pt !! k).
Proof.
  unfold touch. destruct (pt !! PGNUM va) eqn:E; [done|].
  destruct (decide (PGNUM va = k)) as [<-|Hne].
  - by rewrite lookup_insert_eq, E.
  - by rewrite lookup_insert_ne.
Qed.

Lemma touch_present pt va v : pt !! PGNUM va = Some v -> touch pt va = pt.
Proof. unfold touch. by intros ->. Qed.

(** The loop of [mon_map]: [n] rounds, one row per page, as long as the
    cursor does not wrap. *)
Lemma mon_map_loop_spec n :
  forall fuel i end_ m,
    (n <= fuel)%nat -> 0 <= i -> i + PGSIZE * Z.of_nat n < 2 ^ 32 ->
    (n <> O -> i + PGSIZE * (Z.of_nat n - 1) < end_) ->
    end_ <= i + PGSIZE * Z.of_nat n ->
    mon_map_loop fuel i end_ m =
      Ret tt (set_out (set_pt m (foldl touch (m_pt m) (map_pages n i)))
                      (m_out m ++ map (fun va => row va (pte_of m va)) (map_pages n i))).
Proof.
  unfold PGSIZE.
  induction n as [|n IH]; intros fuel i end_ m Hfuel Hi Hmax Hin Hend.
  - cbn [map_pages map foldl]. rewrite set_pt_out_id.
    destruct fuel; cbn [mon_map_loop];
      replace (i <? end_) with false by (symmetry; apply Z.ltb_ge; lia); done.
  - destruct fuel as [|fuel]; [lia|]. cbn [mon_map_loop].
    replace (i <? end_) with true by (symmetry; apply Z.ltb_lt; lia).
    unfold bind at 1. rewrite pgdir_walk_touch.
    unfold bind at 1, pte_load at 1. cbn [m_pt set_pt].
    unfold bind at 1, print_row, cprintf.
    rewrite wrap32_small by (unfold PGSIZE; pow32; lia).
    rewrite IH by (unfold PGSIZE; pow32; intros; lia).
    cbn [map_pages map foldl m_pt m_out set_pt set_out].
    unfold set_out, set_pt; cbn. f_equal. f_equal.
    rewrite <- app_assoc. cbn. f_equal. f_equal.
    + unfold row. by rewrite touch_default.
    + apply map_ext. intros va. unfold pte_of; cbn. by rewrite touch_default.
Qed.

Lemma mon_map_inverted fuel argc argv tf m start end_ :
  arg_num m argv 1 = Some start -> arg_num m argv 2 = Some end_ ->
  end_ < start ->
  mon_map fuel argc argv tf m =
    Ret 0 (set_out m (m_out m ++
             [Cprintf "Invalid parameters[start=%08x, end=%08x]\n"
                [AInt start; AInt end_]])).
Proof.
  intros H1 H2 Hlt.
  unfold mon_map, bind at 1. rewrite (strtol_at_arg _ _ _ _ H1).
  unfold bind at 1. rewrite (strtol_at_arg _ _ _ _ H2).
  replace (end_ <? start) with true by (symmetry; apply Z.ltb_lt; lia).
  by rewrite orb_true_r.
Qed.

Lemma mon_map_range fuel argc argv tf m start end_ :
  arg_num m argv 1 = Some start -> arg_num m argv 2 = Some end_ ->
  start <= end_ ->
  mon_map fuel argc argv tf m =
    (mon_map_loop fuel (ROUNDDOWN start PGSIZE) end_ ;; ret 0) m.
Proof.
  intros H1 H2 Hle. pose proof (arg_num_range _ _ _ _ H1) as Hr.
  unfold mon_map, bind at 1. rewrite (strtol_at_arg _ _ _ _ H1).
  unfold bind at 1. rewrite (strtol_at_arg _ _ _ _ H2).
  replace (start <? 0) with false by (symmetry; apply Z.ltb_ge; lia).
  replace (end_ <? start) with false by (symmetry; apply Z.ltb_ge; lia).
  reflexivity.
Qed.

(** The rows of [map start end]: the pages from the page of [start] up to,
    and not including, [end], as long as [end] leaves room for the last
    step of the cursor. *)
Lemma mon_map_rows fuel argc argv tf m start end_ :
  arg_num m argv 1 = Some start -> arg_num m argv 2 = Some end_ ->
  start <= end_ -> end_ <= 2 ^ 32 - PGSIZE ->
  let rd := ROUNDDOWN start PGSIZE in
  let n := Z.to_nat ((end_ - rd + PGSIZE - 1) / PGSIZE) in
  (n <= fuel)%nat ->
  mon_map fuel argc argv tf m =
    Ret 0 (set_out (set_pt m (foldl touch (m_pt m) (map_pages n rd)))
                   (m_out m ++ map (fun va => row va (pte_of m va)) (map_pages n rd))).
Proof.
  intros H1 H2 Hle Hmax rd n Hfuel.
  pose proof (arg_num_range _ _ _ _ H1) as Hr1.
  pose proof (arg_num_range _ _ _ _ H2) as Hr2.
  rewrite (mon_map_range _ _ _ _ _ _ _ H1 H2 Hle). fold rd.
  assert (Hrd : rd = 4096 * (start / 4096)) by (by apply ROUNDDOWN_PGSIZE).
  pose proof (Z.div_mod start 4096 ltac:(lia)) as Hdm.
  pose proof (Z.mod_pos_bound start 4096 ltac:(lia)) as Hmb.
  assert (Hn : Z.of_nat n = (end_ - rd + 4095) / 4096).
  { unfold n, PGSIZE. rewrite Z2Nat.id; [f_equal; lia|].
    apply Z.div_pos; lia. }
  pose proof (Z.div_mod (end_ - rd + 4095) 4096 ltac:(lia)) as Hdm'.
  pose proof (Z.mod_pos_bound (end_ - rd + 4095) 4096 ltac:(lia)) as Hmb'.
  unfold bind. rewrite (mon_map_loop_spec n); unfold PGSIZE in *; pow32;
    try done; lia.
Qed.

(** One page, already present in the page tables: one row, nothing created. *)
Lemma mon_map_one_page fuel argc argv tf m start end_ pte :
  arg_num m argv 1 = Some start -> arg_num m argv 2 = Some end_ ->
  start <= end_ -> end_ <= 2 ^ 32 - PGSIZE ->
  ROUNDDOWN start PGSIZE < end_ <= ROUNDDOWN start PGSIZE + PGSIZE ->
  m_pt m !! PGNUM start = Some pte ->
  mon_map (S fuel) argc argv tf m =
    Ret 0 (set_out m (m_out m ++ [row start pte])).
Proof.
  intros H1 H2 Hle Hmax Hend Hpte.
  pose proof (arg_num_range _ _ _ _ H1) as Hr1.
  assert (Hn : Z.to_nat ((end_ - ROUNDDOWN start PGSIZE + PGSIZE - 1) / PGSIZE) = 1%nat).
  { unfold PGSIZE in *.
    replace ((end_ - ROUNDDOWN start 4096 + 4096 - 1) / 4096) with 1; [done|].
    apply Z.div_unique with (r := end_ - ROUNDDOWN start 4096 - 1); lia. }
  rewrite (mon_map_rows _ _ _ _ _ _ _ H1 H2 Hle Hmax); rewrite Hn; [|lia].
  cbn [map_pages map foldl].
  rewrite (touch_present _ _ pte) by (by rewrite PGNUM_ROUNDDOWN).
  rewrite set_pt_id. unfold row, pte_of.
  by rewrite !PGNUM_ROUNDDOWN, Hpte by done.
Qed.

Lemma pte_of_set m va v o :
  pte_of (set_out (set_pt m (<[PGNUM va := v]> (m_pt m))) o) va = v.
Proof. unfold pte_of. cbn. by rewrite lookup_insert_eq. Qed.

(** ** The claims about [map] and [set] *)

(** C1 (the code departs from it): at the boundary address itself the
    guard of [mon_set] does not fire.  For the address argument [KERNBASE]
    and every flags value the command prints no error: it rewrites the
    entry of the page at [KERNBASE] and prints the new entry. *)
Theorem mon_set_accepts_KERNBASE fuel argc argv tf m flag :
  arg_num m argv 1 = Some KERNBASE -> arg_num m argv 2 = Some flag ->
  let pte := Z.lor (PTE_ADDR (pte_of m KERNBASE)) flag in
  mon_set fuel argc argv tf m =
    Ret 0 (set_out (set_pt m (<[PGNUM KERNBASE := pte]> (m_pt m)))
                   (m_out m ++ [row KERNBASE pte])).
Proof. intros H1 H2. by apply mon_set_accept. Qed.

Lemma mon_set_accepts_KERNBASE_witness :
  let m := set_buf machine0 (buf_of "set 0xf0000000 0x7") in
  mon_set 0 3 [SPtr 0; SPtr 4; SPtr 15; SNull] 0 m =
    Ret 0 (set_out (set_pt m {[ 0xF0000 := 7 ]})
             [Cprintf "[%5x-%5x] %s %5x\n"
                [AInt 0xF0000; AInt 0xF0001; AStr "------UWP"; AInt 0]]).
Proof.
  intros m.
  exact (mon_set_accepts_KERNBASE 0 3 [SPtr 0; SPtr 4; SPtr 15; SNull] 0 m 7
           eq_refl eq_refl).
Defined.

Lemma land_pow2 p b :
  0 <= b -> Z.land p (2 ^ b) = if Z.testbit p b then 2 ^ b else 0.
Proof.
  intros Hb. apply Z.bits_inj'. intros n Hn.
  rewrite Z.land_spec, Z.pow2_bits_eqb by done.
  destruct (Z.eqb_spec b n) as [<-|Hne].
  - destruct (Z.testbit p b); [by rewrite Z.pow2_bits_true|by rewrite Z.bits_0].
  - rewrite andb_false_r.
    destruct (Z.testbit p b); [by rewrite Z.pow2_bits_false|by rewrite Z.bits_0].
Qed.

Lemma flag_char_testbit pte b c :
  0 <= b -> flag_char pte (2 ^ b) c = if Z.testbit pte b then c else "-"%char.
Proof.
  intros Hb. unfold flag_char. rewrite land_pow2 by done.
  destruct (Z.testbit pte b); [|done].
  assert (0 < 2 ^ b) by (apply Z.pow_pos_nonneg; lia).
  by destruct (Z.eqb_spec (2 ^ b) 0); [lia|].
Qed.

(** The string the code builds is the status string of the entry. *)
Lemma render_status_spec pte : render_status pte = status_of_flags pte.
Proof.
  unfold render_status.
  change PTE_G with (2 ^ 8). change PTE_PS with (2 ^ 7).
  change PTE_D with (2 ^ 6). change PTE_A with (2 ^ 5).
  change PTE_PCD with (2 ^ 4). change PTE_PWT with (2 ^ 3).
  change PTE_U with (2 ^ 2). change PTE_W with (2 ^ 1).
  change PTE_P with (2 ^ 0).
  by rewrite !flag_char_testbit by lia.
Qed.

Lemma flag_term_bit (t : bool) (c : ascii) b n :
  0 <= b -> 0 <= n -> c <> "-"%char ->
  Z.testbit (if Ascii.eqb (if t then c else "-"%char) "-" then 0 else 2 ^ b) n =
    t && (b =? n).
Proof.
  intros Hb Hn Hc. destruct t.
  - destruct (Ascii.eqb_spec c "-"); [done|]. by rewrite Z.pow2_bits_eqb.
  - cbn. apply Z.bits_0.
Qed.

(** Reading the status string back gives the nine bits it shows. *)
Lemma flags_of_status_of_flags flags :
  flags_of_status (status_of_flags flags) = Z.land flags 0x1FF.
Proof.
  unfold flags_of_status, status_of_flags.
  rewrite list_ascii_of_string_of_list_ascii.
  cbn [map flag_letters flags_of_chars fst snd].
  apply Z.bits_inj'. intros n Hn.
  rewrite !Z.lor_spec, !flag_term_bit by (lia || discriminate).
  rewrite Z.bits_0, Z.land_spec. change 0x1FF with (Z.ones 9).
  rewrite Z.testbit_ones_nonneg by lia.
  assert (Hc : n = 0 \/ n = 1 \/ n = 2 \/ n = 3 \/ n = 4 \/ n = 5 \/ n = 6 \/
               n = 7 \/ n = 8 \/ 9 <= n) by lia.
  destruct Hc as [->|[->|[->|[->|[->|[->|[->|[->|[->|Hge]]]]]]]]].
  1-9: repeat match goal with
         | |- context [Z.eqb ?a ?b] =>
             let v := eval vm_compute in (Z.eqb a b) in
             change (Z.eqb a b) with v
         | |- context [Z.ltb ?a ?b] =>
             let v := eval vm_compute in (Z.ltb a b) in
             change (Z.ltb a b) with v
         end;
       rewrite ?andb_false_r, ?andb_true_r, ?orb_false_r, ?orb_false_l;
       reflexivity.
  repeat match goal with
         | |- context [?b =? n] =>
             replace (b =? n) with false by (symmetry; apply Z.eqb_neq; lia)
         end.
  replace (n <? 9) with false by (symmetry; apply Z.ltb_ge; lia).
  by rewrite ?andb_false_r.
Qed.

Lemma land_small f k : 0 <= f < 2 ^ k -> 0 <= k -> Z.land f (Z.ones k) = f.
Proof. intros Hf Hk. rewrite Z.land_ones by done. apply Z.mod_small. lia. Qed.

(** C2, as amended: for every accepted page address and every flags value
    that fits the twelve flag bits (below 0x1000), after [set] the entry of
    the page has flag bits equal to the flags value and the frame-address
    bits it had before, and a following [map] over that page prints one row
    whose frame number is the one from before the [set] and whose status
    string shows, flag by flag, the bits 0 to 8 of the flags value: the
    letter of the flag where the bit is set, a dash where it is clear.
    Read back, the string gives exactly those nine bits, so the flags value
    itself when it is below 0x200; the bits 9 to 11 have no character. *)
Theorem set_then_map fuel argc argv tf m page flag :
  arg_num m argv 1 = Some page -> arg_num m argv 2 = Some flag ->
  page <= KERNBASE -> flag < 0x1000 ->
  exists m1,
    mon_set fuel argc argv tf m = Ret 0 m1 /\
    PTE_FLAGS (pte_of m1 page) = flag /\
    PTE_ADDR (pte_of m1 page) = PTE_ADDR (pte_of m page) /\
    (forall fuel' argc' argv' tf' m2 start end_,
       m_pt m2 = m_pt m1 ->
       arg_num m2 argv' 1 = Some start -> arg_num m2 argv' 2 = Some end_ ->
       PGNUM start = PGNUM page -> start <= end_ ->
       ROUNDDOWN start PGSIZE < end_ <= ROUNDDOWN start PGSIZE + PGSIZE ->
       mon_map (S fuel') argc' argv' tf' m2 =
         Ret 0 (set_out m2 (m_out m2 ++
                  [Cprintf "[%5x-%5x] %s %5x\n"
                     [AInt (PGNUM page); AInt (wrap32 (PGNUM page + 1));
                      AStr (status_of_flags flag);
                      AInt (PGNUM (PTE_ADDR (pte_of m page)))]]))) /\
    flags_of_status (status_of_flags flag) = Z.land flag 0x1FF /\
    (flag < 0x200 -> flags_of_status (status_of_flags flag) = flag).
Proof.
  intros H1 H2 Hle Hfl.
  pose proof (arg_num_range _ _ _ _ H1) as Hr1.
  pose proof (arg_num_range _ _ _ _ H2) as Hr2.
  eexists. split; [by apply mon_set_accept|].
  rewrite !pte_of_set.
  split; [apply PTE_FLAGS_set; lia|].
  split; [apply PTE_ADDR_set; lia|].
  split; [|split; [apply flags_of_status_of_flags|]].
  - intros fuel' argc' argv' tf' m2 start end_ Hpt Hs He Hpg Hse Hend.
    pose proof (arg_num_range _ _ _ _ Hs) as Hrs.
    assert (Hrd : ROUNDDOWN start PGSIZE <= KERNBASE).
    { rewrite ROUNDDOWN_PGSIZE, <- PGNUM_div, Hpg, PGNUM_div by done.
      pose proof (Z.div_mod page 4096 ltac:(lia)).
      pose proof (Z.mod_pos_bound page 4096 ltac:(lia)). lia. }
    rewrite (mon_map_one_page _ _ _ _ _ _ _
               (Z.lor (PTE_ADDR (pte_of m page)) flag) Hs He Hse).
    + unfold row.
      by rewrite Hpg, render_status_set, render_status_spec, PGNUM_set by lia.
    + unfold KERNBASE, PGSIZE in *. pow32. lia.
    + done.
    + rewrite Hpt, Hpg. cbn [m_pt set_out set_pt]. by rewrite lookup_insert_eq.
  - intros Hlow. rewrite flags_of_status_of_flags.
    change 0x1FF with (Z.ones 9). apply land_small; [|lia].
    change (2 ^ 9) with 0x200. lia.
Qed.

Lemma set_then_map_witness :
  let m := set_buf machine0 (buf_of "set 0x3000 0x7") in
  let argv := [SPtr 0; SPtr 4; SPtr 11; SNull] in
  exists m1,
    mon_set 0 3 argv 0 m = Ret 0 m1 /\
    PTE_FLAGS (pte_of m1 0x3000) = 7 /\
    PTE_ADDR (pte_of m1 0x3000) = PTE_ADDR (pte_of m 0x3000) /\
    (forall fuel' argc' argv' tf' m2 start end_,
       m_pt m2 = m_pt m1 ->
       arg_num m2 argv' 1 = Some start -> arg_num m2 argv' 2 = Some end_ ->
       PGNUM start = PGNUM 0x3000 -> start <= end_ ->
       ROUNDDOWN start PGSIZE < end_ <= ROUNDDOWN start PGSIZE + PGSIZE ->
       mon_map (S fuel') argc' argv' tf' m2 =
         Ret 0 (set_out m2 (m_out m2 ++
                  [Cprintf "[%5x-%5x] %s %5x\n"
                     [AInt 3; AInt 4; AStr "------UWP"; AInt 0]]))) /\
    flags_of_status "------UWP" = 7 /\
    (7 < 0x200 -> flags_of_status "------UWP" = 7).
Proof.
  intros m argv.
  apply (set_then_map 0 3 argv 0 m 0x3000 7);
    [reflexivity | reflexivity | unfold KERNBASE; lia | lia].
Defined.

(** The three bits 9 to 11 of an entry have no character in a row: typed
    after [set 0x3000 0xe07], [map 0x3000 0x3001] shows the status of 7. *)
Example available_bits_are_not_shown :
  exists m1 m2,
    runcmd 1 0 0 (set_buf machine0 (buf_of "set 0x3000 0xe07")) = Ret 0 m1 /\
    PTE_FLAGS (pte_of m1 0x3000) = 0xE07 /\
    runcmd 1 0 0 (set_buf (set_out m1 []) (buf_of "map 0x3000 0x3001")) = Ret 0 m2 /\
    m_out m2 = [Cprintf "[%5x-%5x] %s %5x\n"
                  [AInt 3; AInt 4; AStr "------UWP"; AInt 0]] /\
    status_of_flags 0xE07 = status_of_flags 7.
Proof.
  eexists. eexists. split; [vm_compute; reflexivity|].
  split; [reflexivity|]. split; [vm_compute; reflexivity|].
  split; reflexivity.
Qed.

(** C2 as stated fails: a flags value with a bit above the twelve flag bits
    is accepted too, and then the frame-address bits of the entry move and
    its flag bits are not the value given.  Typing [set 0x3000 0x5007] on a
    machine without page-table entries leaves frame address 0x5000 where it
    was 0, and flag bits 7. *)
Lemma set_high_flags_moves_frame :
  let m := set_buf machine0 (buf_of "set 0x3000 0x5007") in
  exists m1,
    runcmd 0 0 0 m = Ret 0 m1 /\
    arg_num m1 [SPtr 0; SPtr 4; SPtr 11; SNull] 1 = Some 0x3000 /\
    arg_num m1 [SPtr 0; SPtr 4; SPtr 11; SNull] 2 = Some 0x5007 /\
    PTE_ADDR (pte_of m 0x3000) = 0 /\
    PTE_ADDR (pte_of m1 0x3000) = 0x5000 /\
    PTE_FLAGS (pte_of m1 0x3000) = 7 /\
    PTE_ADDR (pte_of m1 0x3000) <> PTE_ADDR (pte_of m 0x3000) /\
    PTE_FLAGS (pte_of m1 0x3000) <> 0x5007.
Proof.
  intros m. eexists. split; [vm_compute; reflexivity|].
  repeat split; try reflexivity; vm_compute; discriminate.
Qed.

(** C6: for every start above end, [map] prints the error line, returns the
    continue status 0 and leaves the page tables as they were (no entry is
    created); for a page-aligned start equal to end it returns 0 with the
    machine untouched, so no row is printed and no entry created: the page
    range from the rounded start up to end is empty and the loop body is
    never entered, whatever the fuel. *)
Theorem mon_map_inverted_or_empty fuel argc argv tf m start end_ :
  arg_num m argv 1 = Some start -> arg_num m argv 2 = Some end_ ->
  (end_ < start ->
     exists m',
       mon_map fuel argc argv tf m = Ret 0 m' /\
       m_out m' = m_out m ++
         [Cprintf "Invalid parameters[start=%08x, end=%08x]\n"
            [AInt start; AInt end_]] /\
       m_pt m' = m_pt m) /\
  (start = end_ -> start mod PGSIZE = 0 ->
     mon_map fuel argc argv tf m = Ret 0 m /\
     mon_map_loop fuel (ROUNDDOWN start PGSIZE) end_ m = Ret tt m /\
     forall n, (ROUNDDOWN start PGSIZE + PGSIZE * Z.of_nat n < end_) -> False).
Proof.
  intros H1 H2. pose proof (arg_num_range _ _ _ _ H1) as Hr1. split.
  - intros Hlt. eexists. split; [by eapply mon_map_inverted|]. by split.
  - intros <- Hal.
    assert (Hloop : mon_map_loop fuel (ROUNDDOWN start PGSIZE) start m = Ret tt m).
    { rewrite ROUNDDOWN_aligned by done.
      destruct fuel; cbn [mon_map_loop]; by rewrite Z.ltb_irrefl. }
    split; [|split; [done|]].
    + rewrite (mon_map_range _ _ _ _ _ _ _ H1 H2) by lia.
      unfold bind. by rewrite Hloop.
    + intros n. rewrite ROUNDDOWN_aligned by done. unfold PGSIZE. lia.
Qed.

Lemma mon_map_inverted_or_empty_witness :
  let argv := [SPtr 0; SPtr 4; SPtr 11; SNull] in
  let m := set_buf machine0 (buf_of "map 0x2000 0x1000") in
  let m0 := set_buf machine0 (buf_of "map 0x1000 0x1000") in
  (exists m',
     mon_map 0 3 argv 0 m = Ret 0 m' /\
     m_out m' =
       [Cprintf "Invalid parameters[start=%08x, end=%08x]\n"
          [AInt 0x2000; AInt 0x1000]] /\
     m_pt m' = m_pt m) /\
  mon_map 0 3 argv 0 m0 = Ret 0 m0.
Proof.
  intros argv m m0. split.
  - apply (proj1 (mon_map_inverted_or_empty 0 3 argv 0 m 0x2000 0x1000
                    eq_refl eq_refl)). lia.
  - apply (proj2 (mon_map_inverted_or_empty 0 3 argv 0 m0 0x1000 0x1000
                    eq_refl eq_refl)); reflexivity.
Defined.

(** ** The tokenizer *)

Lemma lex_spec s : lex s = (take_tok s, tokens (drop_tok s)).
Proof.
  induction s as [|c s IH]; [done|].
  cbn [lex take_tok drop_tok]. unfold is_tok.
  destruct (is_nul c) eqn:Hn; cbn [negb andb].
  - unfold tokens. cbn [lex]. by rewrite Hn.
  - rewrite IH. destruct (strchr WHITESPACE c) eqn:Hw; cbn [negb]; [|done].
    unfold tokens at 2. cbn [lex]. by rewrite Hn, IH, Hw.
Qed.

Lemma tokens_unfold s : tokens s = push (take_tok s) (tokens (drop_tok s)).
Proof. unfold tokens at 1. by rewrite lex_spec. Qed.

Lemma tokens_ws c s : is_ws c = true -> tokens (c :: s) = tokens s.
Proof.
  unfold is_ws. intros [Hn Hw]%andb_true_iff. apply negb_true_iff in Hn.
  unfold tokens. cbn [lex]. rewrite Hn, Hw. by destruct (lex s).
Qed.

Lemma tokens_skip_ws s : tokens (skip_ws s) = tokens s.
Proof.
  induction s as [|c s IH]; [done|]. cbn [skip_ws].
  destruct (is_ws c) eqn:Hc; [|done]. by rewrite IH, tokens_ws.
Qed.

Lemma tokens_nil : tokens [] = [].
Proof. reflexivity. Qed.

Lemma tokens_nul c s : is_nul c = true -> tokens (c :: s) = [].
Proof. intros Hn. unfold tokens. cbn [lex]. by rewrite Hn. Qed.

Lemma tokens_tok c s :
  is_tok c = true ->
  tokens (c :: s) = take_tok (c :: s) :: tokens (drop_tok (c :: s)).
Proof.
  intros Hc. rewrite tokens_unfold. cbn [take_tok]. by rewrite Hc.
Qed.

Lemma take_drop_tok s : take_tok s ++ drop_tok s = s.
Proof.
  induction s as [|c s IH]; [done|]. cbn [take_tok drop_tok].
  destruct (is_tok c); [|done]. cbn. by rewrite IH.
Qed.

Lemma skip_ws_length s : (length (skip_ws s) <= length s)%nat.
Proof.
  induction s as [|c s IH]; [done|]. cbn [skip_ws].
  destruct (is_ws c); cbn [length]; lia.
Qed.

(** After the white space comes the end, a null, or a token character. *)
Lemma skip_ws_head s :
  match skip_ws s with
  | [] => True
  | c :: _ => is_nul c = true \/ is_tok c = true
  end.
Proof.
  induction s as [|c s IH]; [done|]. cbn [skip_ws].
  destruct (is_ws c) eqn:Hc; [done|].
  unfold is_ws in Hc. unfold is_tok.
  destruct (is_nul c); [by left|]. right. cbn in *. by rewrite Hc.
Qed.

Lemma drop_tok_head s : is_tok (deref (drop_tok s) 0) = false.
Proof.
  induction s as [|c s IH]; [done|]. cbn [drop_tok].
  destruct (is_tok c) eqn:Hc; [done|]. done.
Qed.

Lemma until_nul_tok t s :
  until_nul (take_tok t ++ s) = take_tok t ++ until_nul s.
Proof.
  induction t as [|c t IH]; [done|]. cbn [take_tok].
  destruct (is_tok c) eqn:Hc; [|done].
  cbn [app until_nul]. unfold is_tok in Hc.
  destruct (is_nul c); [done|]. by rewrite IH.
Qed.

Lemma until_nul_nuls k s :
  k <> O -> until_nul (replicate k NUL ++ s) = [].
Proof. by destruct k. Qed.

Lemma deref_app pre s : deref (pre ++ s) (length pre) = deref s 0.
Proof.
  unfold deref. rewrite lookup_app_r by lia. by rewrite Nat.sub_diag.
Qed.

Lemma until_nul_head s : is_nul (deref s 0) = true -> until_nul s = [].
Proof. destruct s as [|c s]; [done|]. cbn. by intros ->. Qed.

Lemma until_nul_not_tok s :
  is_tok (deref s 0) = false -> is_ws (deref s 0) = false -> until_nul s = [].
Proof.
  destruct s as [|c s]; [done|]. change (deref (c :: s) 0) with c.
  unfold is_tok, is_ws. cbn [until_nul].
  destruct (is_nul c); [done|]. by destruct (strchr WHITESPACE c).
Qed.

(** The first inner loop overwrites the white space it skips. *)
Lemma deref_head c s : deref (c :: s) 0 = c.
Proof. reflexivity. Qed.

Lemma gobble_step n b p :
  gobble (S n) b p =
    if is_ws (deref b p) then gobble n (<[p := NUL]> b) (S p) else (b, p).
Proof. reflexivity. Qed.

Lemma scan_arg_step n b p :
  scan_arg (S n) b p = if is_tok (deref b p) then scan_arg n b (S p) else p.
Proof. reflexivity. Qed.

(** The first inner loop overwrites the white space it skips. *)
Lemma gobble_spec s :
  forall pre,
    exists k,
      gobble (length s) (pre ++ s) (length pre) =
        (pre ++ replicate k NUL ++ skip_ws s, (length pre + k)%nat) /\
      (k + length (skip_ws s) = length s)%nat /\
      (k = O -> skip_ws s = s).
Proof.
  induction s as [|c s IH]; intros pre.
  - exists O. cbn. by rewrite Nat.add_0_r.
  - cbn [length skip_ws]. rewrite gobble_step, deref_app, deref_head.
    destruct (is_ws c) eqn:Hc.
    + destruct (IH (pre ++ [NUL])) as (k & Hg & Hlen & _).
      exists (S k).
      replace (<[length pre:=NUL]> (pre ++ c :: s)) with ((pre ++ [NUL]) ++ s).
      2:{ rewrite insert_app_r_alt by lia. rewrite Nat.sub_diag. cbn.
          by rewrite <- app_assoc. }
      replace (S (length pre)) with (length (pre ++ [NUL]))
        by (rewrite length_app; cbn; lia).
      rewrite Hg, length_app, <- app_assoc. cbn [length app replicate].
      split; [f_equal; lia|]. split; [lia|done].
    + exists O. cbn [replicate app]. rewrite Nat.add_0_r. by split.
Qed.

(** The second inner loop stops right after the token. *)
Lemma scan_arg_spec s :
  forall pre,
    scan_arg (length s) (pre ++ s) (length pre) =
      (length pre + length (take_tok s))%nat.
Proof.
  induction s as [|c s IH]; intros pre.
  - cbn. lia.
  - cbn [length take_tok]. rewrite scan_arg_step, deref_app, deref_head.
    destruct (is_tok c) eqn:Hc; [|cbn; lia].
    replace (pre ++ c :: s) with ((pre ++ [c]) ++ s) by (by rewrite <- app_assoc).
    replace (S (length pre)) with (length (pre ++ [c]))
      by (rewrite length_app; cbn; lia).
    rewrite IH, length_app. cbn. lia.
Qed.

Lemma parse_loop_step n b p argc argv :
  parse_loop (S n) b p argc argv =
    let '(b1, p1) := gobble (length b - p) b p in
    if is_nul (deref b1 p1) then Parsed b1 argc argv
    else if (argc =? MAXARGS - 1)%nat then TooMany b1
    else parse_loop n b1 (scan_arg (length b1 - p1) b1 p1) (S argc)
           (<[argc := SPtr p1]> argv).
Proof. reflexivity. Qed.

Lemma is_tok_not_nul c : is_tok c = true -> is_nul c = false.
Proof. unfold is_tok. by destruct (is_nul c). Qed.

Lemma take_tok_nonempty c s : is_tok c = true -> take_tok (c :: s) = c :: take_tok s.
Proof. intros H. cbn [take_tok]. by rewrite H. Qed.

(** The state of the outer loop after the white space before the next
    token has been overwritten. *)
Lemma parse_loop_gobbled n pre s argc argv :
  exists k,
    (k + length (skip_ws s) = length s)%nat /\
    (k = O -> skip_ws s = s) /\
    parse_loop (S n) (pre ++ s) (length pre) argc argv =
      let b1 := (pre ++ replicate k NUL) ++ skip_ws s in
      let p1 := length (pre ++ replicate k NUL) in
      if is_nul (deref (skip_ws s) 0) then Parsed b1 argc argv
      else if (argc =? MAXARGS - 1)%nat then TooMany b1
      else parse_loop n (((pre ++ replicate k NUL) ++ take_tok (skip_ws s)) ++ drop_tok (skip_ws s))
             (length ((pre ++ replicate k NUL) ++ take_tok (skip_ws s))) (S argc)
             (<[argc := SPtr p1]> argv).
Proof.
  destruct (gobble_spec s pre) as (k & Hg & Hlen & Hk0).
  exists k. split; [done|]. split; [done|].
  rewrite parse_loop_step.
  replace (length (pre ++ s) - length pre)%nat with (length s)
    by (rewrite length_app; lia).
  rewrite Hg. cbv zeta.
  replace (pre ++ replicate k NUL ++ skip_ws s)
    with ((pre ++ replicate k NUL) ++ skip_ws s) by (by rewrite <- app_assoc).
  replace (length pre + k)%nat with (length (pre ++ replicate k NUL))
    by (by rewrite length_app, length_replicate).
  rewrite deref_app.
  destruct (is_nul (deref (skip_ws s) 0)); [done|].
  destruct (argc =? MAXARGS - 1)%nat; [done|].
  replace (length ((pre ++ replicate k NUL) ++ skip_ws s) -
           length (pre ++ replicate k NUL))%nat
    with (length (skip_ws s)) by (rewrite (length_app _ (skip_ws s)); lia).
  rewrite scan_arg_spec.
  rewrite <- (length_app _ (take_tok (skip_ws s))).
  rewrite <- (app_assoc _ (take_tok (skip_ws s))), take_drop_tok.
  reflexivity.
Qed.

Lemma parse_loop_spec n :
  forall pre s argc argv,
    (MAXARGS <= n + argc)%nat -> (argc < MAXARGS)%nat ->
    length argv = MAXARGS ->
    (argc + length (tokens s) < MAXARGS)%nat ->
    exists s' argv',
      parse_loop n (pre ++ s) (length pre) argc argv =
        Parsed (pre ++ s') (argc + length (tokens s)) argv' /\
      length argv' = MAXARGS /\
      (is_tok (deref s 0) = false -> until_nul s' = []) /\
      (forall i t, tokens s !! i = Some t ->
         exists q, argv' !! (argc + i)%nat = Some (SPtr q) /\
                   cstr (pre ++ s') q = t) /\
      (forall i, (i < argc \/ argc + length (tokens s) <= i)%nat ->
         argv' !! i = argv !! i).
Proof.
  induction n as [|n IH]; intros pre s argc argv Hn Hargc Hlen Htoks; [lia|].
  destruct (parse_loop_gobbled n pre s argc argv) as (k & Hk & Hk0 & ->).
  cbv zeta. rewrite <- (tokens_skip_ws s) in *.
  pose proof (skip_ws_head s) as Hhead.
  destruct (skip_ws s) as [|c s1] eqn:Hs1.
  - (* end of the buffer *)
    cbn [deref lookup default]. change (is_nul NUL) with true. cbn match.
    exists (replicate k NUL ++ []), argv. rewrite tokens_nil. cbn [length].
    rewrite Nat.add_0_r, <- app_assoc. split; [done|]. split; [done|].
    split; [|split; [done|done]].
    intros _. rewrite app_nil_r. destruct k; [|done].
    specialize (Hk0 eq_refl). by subst s.
  - rewrite deref_head. destruct Hhead as [Hnul|Htok].
    + (* a null *)
      rewrite Hnul. exists (replicate k NUL ++ c :: s1), argv.
      rewrite (tokens_nul c s1 Hnul). cbn [length].
      rewrite Nat.add_0_r, <- app_assoc. split; [done|]. split; [done|].
      split; [|split; [done|done]].
      intros _. destruct k; [|done]. cbn [replicate app until_nul]. by rewrite Hnul.
    + (* a token *)
      rewrite (is_tok_not_nul c Htok).
      rewrite (tokens_tok c s1 Htok) in *. cbn [length] in Htoks.
      replace (argc =? MAXARGS - 1)%nat with false
        by (symmetry; apply Nat.eqb_neq; unfold MAXARGS in *; lia).
      set (pre1 := pre ++ replicate k NUL).
      set (t := take_tok (c :: s1)) in *. set (r := drop_tok (c :: s1)) in *.
      destruct (IH (pre1 ++ t) r (S argc) (<[argc := SPtr (length pre1)]> argv))
        as (s'' & argv' & -> & Hlen' & Hstop & Hptr & Hkeep);
        [lia | lia | by rewrite length_insert | lia |].
      exists (replicate k NUL ++ t ++ s''), argv'.
      split.
      { f_equal; [|cbn [length]; lia]. unfold pre1. by rewrite <- !app_assoc. }
      split; [done|]. split.
      { intros Hnt. destruct k; [|done]. specialize (Hk0 eq_refl). subst s.
        rewrite deref_head in Hnt. congruence. }
      split.
      { intros [|i] t' Hi.
        - cbn in Hi. injection Hi as <-. exists (length pre1). split.
          + rewrite Nat.add_0_r, Hkeep by lia.
            apply list_lookup_insert_eq. lia.
          + unfold cstr.
            replace (pre ++ replicate k NUL ++ t ++ s'')
              with (pre1 ++ t ++ s'') by (unfold pre1; by rewrite <- !app_assoc).
            rewrite drop_app_length. unfold t. rewrite until_nul_tok.
            rewrite Hstop by apply drop_tok_head. apply app_nil_r.
        - cbn in Hi. destruct (Hptr i t' Hi) as (q & Hq & Hc).
          exists q. split.
          + by replace (argc + S i)%nat with (S argc + i)%nat by lia.
          + rewrite <- Hc. f_equal. unfold pre1. by rewrite <- !app_assoc. }
      { intros i Hi. cbn [length] in Hi. rewrite Hkeep by lia.
        apply list_lookup_insert_ne. lia. }
Qed.

Lemma parse_loop_too_many n :
  forall pre s argc argv,
    (MAXARGS <= n + argc)%nat -> (argc < MAXARGS)%nat ->
    (MAXARGS <= argc + length (tokens s))%nat ->
    exists b', parse_loop n (pre ++ s) (length pre) argc argv = TooMany b'.
Proof.
  induction n as [|n IH]; intros pre s argc argv Hn Hargc Htoks; [lia|].
  destruct (parse_loop_gobbled n pre s argc argv) as (k & Hk & Hk0 & ->).
  cbv zeta. rewrite <- (tokens_skip_ws s) in *.
  pose proof (skip_ws_head s) as Hhead.
  destruct (skip_ws s) as [|c s1] eqn:Hs1.
  - rewrite tokens_nil in Htoks. cbn [length] in Htoks. lia.
  - rewrite deref_head. destruct Hhead as [Hnul|Htok].
    + rewrite (tokens_nul c s1 Hnul) in Htoks. cbn [length] in Htoks. lia.
    + rewrite (is_tok_not_nul c Htok).
      rewrite (tokens_tok c s1 Htok) in Htoks. cbn [length] in Htoks.
      destruct (Nat.eqb_spec argc (MAXARGS - 1)) as [_|Hne]; [by eexists|].
      apply IH; unfold MAXARGS in *; lia.
Qed.

(** ** [runcmd] on a line, by its tokens *)

Lemma runcmd_unfold fuel tf m :
  runcmd fuel 0 tf m =
    match parse_loop MAXARGS (m_buf m) 0 0 argv0 with
    | Unfinished => OutOfFuel m
    | TooMany b =>
        Ret 0 (set_out (set_buf m b) (m_out m ++
                 [Cprintf "Too many arguments (max %d)\n" [AInt 16]]))
    | Parsed b argc argv1 =>
        if (argc =? 0)%nat then Ret 0 (set_buf m b)
        else
          (do arg0 <- str_at (argv_get (<[argc := SNull]> argv1) 0);
           match find_command arg0 commands with
           | Some c => call (func c) fuel argc (<[argc := SNull]> argv1) tf
           | None =>
               cprintf "Unknown command '%s'\n" [AStr (string_of_list_ascii arg0)] ;;
               ret 0
           end) (set_buf m b)
    end.
Proof.
  unfold runcmd, bind at 1, get. fold argv0.
  destruct (parse_loop MAXARGS (m_buf m) 0 0 argv0) as [b argc argv1|b|];
    [|done|done].
  unfold bind at 1, put. by destruct (argc =? 0)%nat.
Qed.

(** Sixteen tokens or more: the complaint, status 0, and nothing else. *)
Lemma runcmd_too_many fuel tf m :
  (MAXARGS <= length (tokens (m_buf m)))%nat ->
  exists b',
    parse_loop MAXARGS (m_buf m) 0 0 argv0 = TooMany b' /\
    runcmd fuel 0 tf m =
      Ret 0 (set_out (set_buf m b') (m_out m ++
               [Cprintf "Too many arguments (max %d)\n" [AInt 16]])).
Proof.
  intros Htoks. rewrite runcmd_unfold.
  destruct (parse_loop_too_many MAXARGS [] (m_buf m) 0 argv0) as (b' & Hp);
    [lia | unfold MAXARGS; lia | lia |].
  cbn [app length] in Hp. rewrite Hp. by exists b'.
Qed.

(** An empty line is not an error and does nothing. *)
Lemma runcmd_empty fuel tf m :
  tokens (m_buf m) = [] ->
  exists b', runcmd fuel 0 tf m = Ret 0 (set_buf m b').
Proof.
  intros Htoks. rewrite runcmd_unfold.
  destruct (parse_loop_spec MAXARGS [] (m_buf m) 0 argv0)
    as (b' & argv' & Hp & _);
    [lia | unfold MAXARGS; lia | done | rewrite Htoks; unfold MAXARGS; cbn; lia |].
  cbn [app length] in Hp. rewrite Hp, Htoks. by exists b'.
Qed.

(** Up to fifteen tokens: the first one is looked up in the table and the
    command is called on the argument vector of the line. *)
Lemma runcmd_dispatch fuel tf m t0 ts :
  tokens (m_buf m) = t0 :: ts -> (length (t0 :: ts) < MAXARGS)%nat ->
  exists b' argv,
    argv_holds b' argv (t0 :: ts) /\
    runcmd fuel 0 tf m =
      match find_command t0 commands with
      | Some c => call (func c) fuel (length (t0 :: ts)) argv tf (set_buf m b')
      | None =>
          Ret 0 (set_out (set_buf m b') (m_out m ++
                   [Cprintf "Unknown command '%s'\n"
                      [AStr (string_of_list_ascii t0)]]))
      end.
Proof.
  intros Htoks Hlen. rewrite runcmd_unfold.
  destruct (parse_loop_spec MAXARGS [] (m_buf m) 0 argv0)
    as (b' & argv' & Hp & Hl & _ & Hptr & Hkeep);
    [lia | unfold MAXARGS; lia | done | by rewrite Htoks |].
  cbn [app length] in Hp. rewrite Hp, Htoks. cbn [Nat.add] in *.
  rewrite Htoks in *.
  set (argc := length (t0 :: ts)) in *.
  exists b', (<[argc := SNull]> argv').
  assert (Hholds : argv_holds b' (<[argc := SNull]> argv') (t0 :: ts)).
  { split; [by rewrite length_insert|]. split; [|split].
    - intros i t Hi. destruct (Hptr i t Hi) as (q & Hq & Hc).
      exists q. split; [|done].
      apply lookup_lt_Some in Hi. fold argc in Hi.
      rewrite list_lookup_insert_ne by lia. done.
    - fold argc. apply list_lookup_insert_eq. lia.
    - fold argc. intros i Hi. rewrite list_lookup_insert_ne by lia.
      rewrite Hkeep by lia. unfold argv0.
      rewrite list_lookup_insert_ne by lia.
      apply lookup_replicate_2. lia. }
  split; [done|].
  replace (argc =? 0)%nat with false by done.
  destruct Hholds as (_ & Hargs & _).
  destruct (Hargs O t0 eq_refl) as (q & Hq & Hc).
  unfold bind at 1, str_at, argv_get. rewrite Hq.
  cbn [default from_option id m_buf set_buf].
  rewrite Hc. destruct (find_command t0 commands); done.
Qed.

(** C8: a line with more tokens than the fifteen slots that remain of the
    sixteen once one is kept for the trailing null is rejected: the
    tokenizer loop ends in the too-many-arguments exit, the only output is
    the error line, the page tables and trap frames are untouched (no
    command runs: the result does not depend on the table, the fuel or the
    trap frame) and the status is 0, so the monitor goes on. *)
Theorem runcmd_rejects_long_lines fuel tf m :
  (MAXARGS - 1 < length (tokens (m_buf m)))%nat ->
  exists b' m',
    parse_loop MAXARGS (m_buf m) 0 0 argv0 = TooMany b' /\
    runcmd fuel 0 tf m = Ret 0 m' /\
    m' = set_out (set_buf m b') (m_out m ++
           [Cprintf "Too many arguments (max %d)\n" [AInt 16]]) /\
    m_pt m' = m_pt m /\ m_tfs m' = m_tfs m.
Proof.
  intros Htoks.
  destruct (runcmd_too_many fuel tf m) as (b' & Hp & Hr);
    [unfold MAXARGS in *; lia|].
  exists b'. eexists. split; [done|]. split; [exact Hr|]. by repeat split.
Qed.

Lemma runcmd_rejects_long_lines_witness :
  let m := set_buf machine0 (buf_of "a b c d e f g h i j k l m n o p q") in
  length (tokens (m_buf m)) = 17%nat /\
  exists b' m',
    parse_loop MAXARGS (m_buf m) 0 0 argv0 = TooMany b' /\
    runcmd 0 0 0 m = Ret 0 m' /\
    m' = set_out (set_buf m b') (m_out m ++
           [Cprintf "Too many arguments (max %d)\n" [AInt 16]]) /\
    m_pt m' = m_pt m /\ m_tfs m' = m_tfs m.
Proof.
  intros m. split; [reflexivity|].
  apply (runcmd_rejects_long_lines 0 0 m). vm_compute. lia.
Defined.

(** Fifteen tokens still fit. *)
Lemma runcmd_accepts_fifteen :
  let m := set_buf machine0 (buf_of "a b c d e f g h i j k l m n o") in
  exists b',
    runcmd 0 0 0 m =
      Ret 0 (set_out (set_buf m b') [Cprintf "Unknown command '%s'\n" [AStr "a"]]).
Proof. eexists. vm_compute. reflexivity. Qed.

(** ** The numeric commands and [argc] *)

(** The first thing each of the four commands does is hand [argv[1]], then
    [argv[2]], to the parser, whatever [argc] is. *)
Lemma numeric_call_bad_arg1 f fuel argc argv tf m :
  f ∈ numeric_fns -> arg_num m argv 1 = None ->
  call f fuel argc argv tf m = Crash (BadString (argv_get argv 1)) m.
Proof.
  intros Hf H1. unfold numeric_fns in Hf.
  repeat (apply elem_of_cons in Hf as [->|Hf]);
    [| | | |by apply elem_of_nil in Hf];
    cbn [call]; unfold mon_map, mon_set, mon_xp, mon_xv, bind at 1;
    by rewrite (strtol_at_bad _ _ _ H1).
Qed.

Lemma numeric_call_bad_arg2 f fuel argc argv tf m v :
  f ∈ numeric_fns -> arg_num m argv 1 = Some v -> arg_num m argv 2 = None ->
  call f fuel argc argv tf m = Crash (BadString (argv_get argv 2)) m.
Proof.
  intros Hf H1 H2. unfold numeric_fns in Hf.
  repeat (apply elem_of_cons in Hf as [->|Hf]);
    [| | | |by apply elem_of_nil in Hf];
    cbn [call]; unfold mon_map, mon_set, mon_xp, mon_xv, bind at 1;
    rewrite (strtol_at_arg _ _ _ _ H1); unfold bind at 1;
    by rewrite (strtol_at_bad _ _ _ H2).
Qed.

(** C10: [map], [set], [xp] and [xv] index [argv[1]] and [argv[2]] without
    looking at [argc].  For every line of fewer than three tokens whose
    first token names one of them, the slot right after the last token is
    the null terminator [runcmd] stored, with one token [argv[2]] was never
    written, and the command hands the null slot to the numeric parser: the
    read of text behind it is where the command ends, for every value of
    [argc] it could have been called with. *)
Theorem numeric_commands_ignore_argc fuel tf m cmd args c :
  tokens (m_buf m) = cmd :: args -> (length (cmd :: args) < 3)%nat ->
  find_command cmd commands = Some c -> func c ∈ numeric_fns ->
  exists b' argv,
    argv_holds b' argv (cmd :: args) /\
    argv_get argv (length (cmd :: args)) = SNull /\
    (args = [] -> argv_get argv 2 = SUnset) /\
    runcmd fuel 0 tf m = Crash (BadString SNull) (set_buf m b') /\
    forall argc',
      call (func c) fuel argc' argv tf (set_buf m b') =
        Crash (BadString SNull) (set_buf m b').
Proof.
  intros Htoks Hlen Hfind Hnum.
  destruct (runcmd_dispatch fuel tf m cmd args Htoks) as (b' & argv & Hh & Hr);
    [unfold MAXARGS; lia|].
  exists b', argv. split; [done|].
  destruct Hh as (Hl & Hargs & Hnull & Hunset).
  assert (Hget : argv_get argv (length (cmd :: args)) = SNull)
    by (unfold argv_get; by rewrite Hnull).
  split; [done|].
  assert (Hcall : forall argc',
             call (func c) fuel argc' argv tf (set_buf m b') =
               Crash (BadString SNull) (set_buf m b')).
  { intros argc'. destruct args as [|a1 args].
    - rewrite <- Hget. apply numeric_call_bad_arg1; [done|].
      unfold arg_num. cbn [length] in Hget. by rewrite Hget.
    - destruct args as [|a2 args]; [|cbn [length] in Hlen; lia].
      destruct (Hargs 1%nat a1 eq_refl) as (q & Hq & _).
      rewrite <- Hget.
      apply (numeric_call_bad_arg2 _ _ _ _ _ _
               (wrap32 (strtol (cstr (m_buf (set_buf m b')) q)))); [done| |].
      + unfold arg_num, argv_get. by rewrite Hq.
      + unfold arg_num. cbn [length] in Hget. by rewrite Hget. }
  split; [|split; [|done]].
  - intros ->. unfold argv_get. rewrite Hunset; [done|]. cbn. unfold MAXARGS. lia.
  - rewrite Hr, Hfind. apply Hcall.
Qed.

Lemma numeric_commands_ignore_argc_witness :
  let m := set_buf machine0 (buf_of "xp 0x100") in
  exists b' argv,
    argv_holds b' argv [buf_of "xp"; buf_of "0x100"] /\
    argv_get argv 2 = SNull /\
    ([buf_of "0x100"] = [] -> argv_get argv 2 = SUnset) /\
    runcmd 0 0 0 m = Crash (BadString SNull) (set_buf m b') /\
    forall argc',
      mon_xp 0 argc' argv 0 (set_buf m b') =
        Crash (BadString SNull) (set_buf m b').
Proof.
  intros m.
  apply (numeric_commands_ignore_argc 0 0 m (buf_of "xp") [buf_of "0x100"]
           {| name := "xp"; desc := "Dump physical memory"; func := fn_mon_xp |}).
  - reflexivity.
  - cbn. lia.
  - reflexivity.
  - unfold numeric_fns. cbn [func]. set_solver.
Defined.

(** With the command alone on the line the second numeric slot is one that
    [runcmd] never wrote. *)
Lemma map_alone_reads_null :
  let m := set_buf machine0 (buf_of "map") in
  runcmd 0 0 0 m = Crash (BadString SNull) m.
Proof. vm_compute. reflexivity. Qed.

(** ** Resuming: [c] and [si] *)

Lemma bad_trapframe_true m tf :
  no_valid_context m tf -> bad_trapframe tf m = Ret true m.
Proof.
  unfold bad_trapframe. intros [->|(t & Ht & Hb & Hd)]; [done|].
  destruct (Z.eqb_spec tf 0); [done|].
  unfold bind, tf_load, ret. rewrite Ht.
  apply Z.eqb_neq in Hb, Hd. by rewrite Hb, Hd.
Qed.

Lemma bad_trapframe_false m tf t :
  tf <> 0 -> m_tfs m !! tf = Some t ->
  tf_trapno t = T_BRKPT \/ tf_trapno t = T_DEBUG ->
  bad_trapframe tf m = Ret false m.
Proof.
  unfold bad_trapframe. intros Hnz Ht Hno.
  destruct (Z.eqb_spec tf 0); [done|].
  unfold bind, tf_load, ret. rewrite Ht.
  destruct Hno as [->| ->]; reflexivity.
Qed.

Lemma mon_c_invalid fuel argc argv tf m :
  no_valid_context m tf ->
  mon_c fuel argc argv tf m =
    Ret (-1) (set_out m (m_out m ++ [Cprintf "Invalid Trapframe\n" []])).
Proof.
  intros H. unfold mon_c, bind at 1. by rewrite bad_trapframe_true.
Qed.

Lemma mon_si_invalid fuel argc argv tf m :
  no_valid_context m tf ->
  mon_si fuel argc argv tf m =
    Ret (-1) (set_out m (m_out m ++ [Cprintf "Invalid Trapframe\n" []])).
Proof.
  intros H. unfold mon_si, bind at 1. by rewrite bad_trapframe_true.
Qed.

Lemma find_c :
  find_command (buf_of "c") commands =
    Some {| name := "c"; desc := "Continue process"; func := fn_mon_c |}.
Proof. reflexivity. Qed.

Lemma find_si :
  find_command (buf_of "si") commands =
    Some {| name := "si"; desc := "Step"; func := fn_mon_si |}.
Proof. reflexivity. Qed.

Lemma monitor_loop_cons fuel line rest tf m :
  monitor_loop fuel (line :: rest) tf m =
    (do stop <- monitor_body fuel line tf;
     if stop then ret rest else monitor_loop fuel rest tf) m.
Proof. reflexivity. Qed.

Lemma monitor_body_line fuel buf tf m :
  monitor_body fuel (Some buf) tf m =
    (do r <- runcmd fuel 0 tf; if r <? 0 then ret true else ret false)
      (set_buf (set_out m (m_out m ++ [Readline "K> "])) buf).
Proof. reflexivity. Qed.

Lemma monitor_body_eof fuel tf m :
  monitor_body fuel None tf m =
    Ret false (set_out m (m_out m ++ [Readline "K> "])).
Proof. reflexivity. Qed.

(** C3: whenever the paused context is absent, or its trap number is
    neither breakpoint nor single step, [c] and [si] both print the error
    line and return -1 with every trap frame as it was; and a line whose
    first token is [c] or [si] makes the monitor loop stop right there: it
    hands back the rest of the input unread, having prompted once. *)
Theorem resume_without_context fuel argc argv tf m :
  no_valid_context m tf ->
  let m' := set_out m (m_out m ++ [Cprintf "Invalid Trapframe\n" []]) in
  mon_c fuel argc argv tf m = Ret (-1) m' /\
  mon_si fuel argc argv tf m = Ret (-1) m' /\
  m_tfs m' = m_tfs m /\
  forall line rest cmd args,
    tokens line = cmd :: args -> (length (cmd :: args) < MAXARGS)%nat ->
    cmd = buf_of "c" \/ cmd = buf_of "si" ->
    exists m2,
      monitor_loop fuel (Some line :: rest) tf m = Ret rest m2 /\
      m_tfs m2 = m_tfs m /\
      m_out m2 = m_out m ++ [Readline "K> "; Cprintf "Invalid Trapframe\n" []].
Proof.
  intros Hbad m'.
  split; [by apply mon_c_invalid|]. split; [by apply mon_si_invalid|].
  split; [done|].
  intros line rest cmd args Htoks Hlen Hcmd.
  rewrite monitor_loop_cons. unfold bind at 1. rewrite monitor_body_line.
  set (m1 := set_buf (set_out m (m_out m ++ [Readline "K> "])) line).
  destruct (runcmd_dispatch fuel tf m1 cmd args Htoks Hlen)
    as (b' & argv' & _ & Hr).
  assert (Hbad' : no_valid_context (set_buf m1 b') tf) by exact Hbad.
  unfold bind at 1. rewrite Hr.
  assert (Hout : m_out (set_buf m1 b') ++ [Cprintf "Invalid Trapframe\n" []] =
                 m_out m ++ [Readline "K> "; Cprintf "Invalid Trapframe\n" []])
    by (cbn [m_out set_out set_buf m1]; by rewrite <- app_assoc).
  destruct Hcmd as [-> | ->].
  - rewrite find_c. cbn [func call]. rewrite (mon_c_invalid _ _ _ _ _ Hbad').
    eexists. split; [reflexivity|]. by split.
  - rewrite find_si. cbn [func call]. rewrite (mon_si_invalid _ _ _ _ _ Hbad').
    eexists. split; [reflexivity|]. by split.
Qed.

Lemma resume_without_context_witness :
  let m := machine0 in
  let m' := set_out m (m_out m ++ [Cprintf "Invalid Trapframe\n" []]) in
  mon_c 0 1 [SPtr 0; SNull] 0 m = Ret (-1) m' /\
  mon_si 0 1 [SPtr 0; SNull] 0 m = Ret (-1) m' /\
  m_tfs m' = m_tfs m /\
  forall line rest cmd args,
    tokens line = cmd :: args -> (length (cmd :: args) < MAXARGS)%nat ->
    cmd = buf_of "c" \/ cmd = buf_of "si" ->
    exists m2,
      monitor_loop 0 (Some line :: rest) 0 m = Ret rest m2 /\
      m_tfs m2 = m_tfs m /\
      m_out m2 = m_out m ++ [Readline "K> "; Cprintf "Invalid Trapframe\n" []].
Proof.
  intros m m'. apply (resume_without_context 0 1 [SPtr 0; SNull] 0 m).
  left. reflexivity.
Defined.

(** A frame pushed by a page fault (trap 14) is as good as none. *)
Lemma c_after_page_fault :
  let t := {| tf_regs := []; tf_es := 0; tf_ds := 0; tf_trapno := 14;
              tf_err := 0; tf_eip := 0x800020; tf_cs := 0; tf_eflags := 0x202;
              tf_esp := 0; tf_ss := 0 |} in
  let m := set_tfs machine0 {[ 0xF0110000 := t ]} in
  exists m2,
    monitor_loop 0 [Some (buf_of "si"); Some (buf_of "help")] 0xF0110000 m =
      Ret [Some (buf_of "help")] m2 /\
    m_tfs m2 = m_tfs m.
Proof. eexists. split; vm_compute; reflexivity. Qed.

(** ** The monitor loop *)

(** C4, as amended: the monitor loop leaves (TERMINATE) exactly when the
    command of the line just read returns a negative status.  When line
    acquisition reports end of input the loop does not stop: it goes back
    to READ-LINE and prompts again, as it does after every command that
    returns zero or more. *)
Theorem monitor_loop_transitions fuel tf m :
  let m1 := set_out m (m_out m ++ [Readline "K> "]) in
  (forall rest,
     monitor_body fuel None tf m = Ret false m1 /\
     monitor_loop fuel (None :: rest) tf m = monitor_loop fuel rest tf m1) /\
  (forall buf rest r m2,
     runcmd fuel 0 tf (set_buf m1 buf) = Ret r m2 ->
     (r < 0 -> monitor_loop fuel (Some buf :: rest) tf m = Ret rest m2) /\
     (0 <= r ->
        monitor_loop fuel (Some buf :: rest) tf m = monitor_loop fuel rest tf m2)) /\
  (forall line m2,
     monitor_body fuel line tf m = Ret true m2 <->
     exists buf r,
       line = Some buf /\ runcmd fuel 0 tf (set_buf m1 buf) = Ret r m2 /\ r < 0).
Proof.
  intros m1. split; [|split].
  - intros rest. split; [reflexivity|].
    rewrite monitor_loop_cons. unfold bind. by rewrite monitor_body_eof.
  - intros buf rest r m2 Hr.
    split; intros Hs; rewrite monitor_loop_cons; unfold bind at 1;
      rewrite monitor_body_line; unfold bind at 1; fold m1; rewrite Hr.
    + replace (r <? 0) with true by (symmetry; apply Z.ltb_lt; lia).
      reflexivity.
    + replace (r <? 0) with false by (symmetry; apply Z.ltb_ge; lia).
      reflexivity.
  - intros line m2. split.
    + destruct line as [buf|]; [|by rewrite monitor_body_eof].
      rewrite monitor_body_line. unfold bind. fold m1.
      destruct (runcmd fuel 0 tf (set_buf m1 buf)) as [r m3| | | |] eqn:Hr;
        try discriminate.
      destruct (Z.ltb_spec r 0); [|discriminate].
      intros [= <-]. by exists buf, r.
    + intros (buf & r & -> & Hr & Hneg).
      rewrite monitor_body_line. unfold bind. fold m1. rewrite Hr.
      by replace (r <? 0) with true by (symmetry; apply Z.ltb_lt; lia).
Qed.

Lemma monitor_loop_transitions_witness :
  let m1 := set_out machine0 [Readline "K> "] in
  let m2 := set_out (set_buf m1 (buf_of "c"))
              [Readline "K> "; Cprintf "Invalid Trapframe\n" []] in
  monitor_loop 0 [Some (buf_of "c"); Some (buf_of "help")] 0 machine0 =
    Ret [Some (buf_of "help")] m2.
Proof.
  intros m1 m2.
  apply (proj1 (proj1 (proj2 (monitor_loop_transitions 0 0 machine0))
                  (buf_of "c") [Some (buf_of "help")] (-1) m2 eq_refl)).
  lia.
Defined.

(** C4 as stated fails at end of input: the round of the loop that gets a
    null pointer from [readline] does not break, and the loop goes on to
    read the next line.  Here that line is [c], typed with no context to
    resume, and it is its negative status that ends the loop. *)
Lemma end_of_input_does_not_terminate :
  monitor_body 0 None 0 machine0 = Ret false (set_out machine0 [Readline "K> "]) /\
  exists m2,
    monitor_loop 0 [None; Some (buf_of "c")] 0 machine0 = Ret [] m2 /\
    m_out m2 = [Readline "K> "; Readline "K> "; Cprintf "Invalid Trapframe\n" []].
Proof. split; [reflexivity|]. eexists. split; vm_compute; reflexivity. Qed.

(** ** Resuming with a context *)

Lemma clear_TF_bits fl i :
  0 <= i ->
  Z.testbit (Z.land fl (wrap32 (Z.lnot FL_TF))) i =
    Z.testbit fl i && (i <? 32) && negb (i =? 8).
Proof.
  intros Hi. unfold wrap32. rewrite Z.land_spec, Z.testbit_mod_pow2 by lia.
  rewrite Z.lnot_spec by done. change FL_TF with (2 ^ 8).
  rewrite Z.pow2_bits_eqb by lia. rewrite (Z.eqb_sym 8 i).
  by destruct (Z.testbit fl i), (i <? 32), (i =? 8).
Qed.

Lemma set_TF_bits fl i :
  0 <= i -> Z.testbit (Z.lor fl FL_TF) i = Z.testbit fl i || (i =? 8).
Proof.
  intros Hi. rewrite Z.lor_spec. change FL_TF with (2 ^ 8).
  rewrite Z.pow2_bits_eqb by lia. by rewrite (Z.eqb_sym 8 i).
Qed.

(** C7: on a context paused at a breakpoint or a single step, [c] clears
    the single-step bit (bit 8) of the flags word of the frame at [tf],
    leaves the other bits and every other register of that frame alone,
    prints nothing and hands the processor to [env_run]; [si] prints the
    symbol information of the saved instruction pointer, sets the
    single-step bit, leaves the rest alone and hands over through the same
    [env_run].  Neither touches another trap frame or the page tables. *)
Theorem resume_with_context fuel argc argv tf m t :
  tf <> 0 -> m_tfs m !! tf = Some t ->
  tf_trapno t = T_BRKPT \/ tf_trapno t = T_DEBUG ->
  let info := m_syms m (tf_eip t) in
  let line :=
    Cprintf "0x%08x %s:%d: %.*s+%d\n"
      [AInt (tf_eip t); AStr (eip_file info); AInt (eip_line info);
       AInt (eip_fn_namelen info); AStr (eip_fn_name info);
       AInt (wrap32 (tf_eip t - eip_fn_addr info))] in
  (exists m' t',
     mon_c fuel argc argv tf m = EnvRun m' /\
     m' = set_tfs m (<[tf := t']> (m_tfs m)) /\
     m_tfs m' !! tf = Some t' /\
     Z.testbit (tf_eflags t') 8 = false /\
     (forall i, 0 <= i < 32 -> i <> 8 ->
        Z.testbit (tf_eflags t') i = Z.testbit (tf_eflags t) i) /\
     same_registers t t' /\
     (forall p, p <> tf -> m_tfs m' !! p = m_tfs m !! p) /\
     m_out m' = m_out m /\ m_pt m' = m_pt m) /\
  (exists m' t',
     mon_si fuel argc argv tf m = EnvRun m' /\
     m' = set_tfs (set_out m (m_out m ++ [line])) (<[tf := t']> (m_tfs m)) /\
     m_tfs m' !! tf = Some t' /\
     Z.testbit (tf_eflags t') 8 = true /\
     (forall i, 0 <= i -> i <> 8 ->
        Z.testbit (tf_eflags t') i = Z.testbit (tf_eflags t) i) /\
     same_registers t t' /\
     (forall p, p <> tf -> m_tfs m' !! p = m_tfs m !! p) /\
     m_out m' = m_out m ++ [line] /\ m_pt m' = m_pt m).
Proof.
  intros Hnz Ht Hno info line. split.
  - eexists. eexists. split.
    { unfold mon_c, bind at 1. rewrite (bad_trapframe_false _ _ _ Hnz Ht Hno).
      unfold bind, tf_load, tf_store, env_run. rewrite Ht. reflexivity. }
    split; [reflexivity|]. cbn [m_tfs m_out m_pt set_tfs set_out].
    split; [apply lookup_insert_eq|]. cbn [tf_eflags set_tf_eflags].
    split; [rewrite clear_TF_bits by lia; cbn; apply andb_false_r|].
    split.
    { intros i Hi Hne. rewrite clear_TF_bits by lia.
      replace (i <? 32) with true by (symmetry; apply Z.ltb_lt; lia).
      replace (i =? 8) with false by (symmetry; apply Z.eqb_neq; lia).
      cbn. by rewrite !andb_true_r. }
    split; [by repeat split|]. split; [|done].
    intros p Hp. by rewrite lookup_insert_ne.
  - eexists. eexists. split.
    { unfold mon_si, bind at 1. rewrite (bad_trapframe_false _ _ _ Hnz Ht Hno).
      unfold bind, tf_load, tf_store, env_run, debuginfo_eip, cprintf.
      rewrite Ht. cbn [m_tfs set_out m_syms]. rewrite Ht. reflexivity. }
    split; [reflexivity|]. cbn [m_tfs m_out m_pt set_tfs set_out].
    split; [apply lookup_insert_eq|]. cbn [tf_eflags set_tf_eflags].
    split; [rewrite set_TF_bits by lia; cbn; apply orb_true_r|].
    split.
    { intros i Hi Hne. rewrite set_TF_bits by lia.
      replace (i =? 8) with false by (symmetry; apply Z.eqb_neq; lia).
      apply orb_false_r. }
    split; [by repeat split|]. split; [|done].
    intros p Hp. by rewrite lookup_insert_ne.
Qed.

(** ** The dumpers *)

Lemma load32_mapped m a :
  is_Some (m_mem m !! a) -> load32 a m = Ret (word_at m a) m.
Proof. unfold load32, word_at. by intros [w ->]. Qed.

Lemma KADDR_ok m pa :
  PGNUM pa < m_npages m -> KADDR pa m = Ret (wrap32 (pa + KERNBASE)) m.
Proof.
  unfold KADDR. intros H.
  by replace (m_npages m <=? PGNUM pa) with false by (symmetry; apply Z.leb_gt; lia).
Qed.

Lemma dump_line_shift rd s k :
  dump_line rd (wrap32 (s + 16)) k = dump_line rd s (S k).
Proof.
  unfold dump_line. cbv zeta. rewrite !wrap32_add_l.
  repeat (f_equal; try (f_equal; lia)).
Qed.

Lemma dump_lines_S rd s n :
  dump_lines rd s (S n) = dump_line rd s 0 :: dump_lines rd (wrap32 (s + 16)) n.
Proof.
  unfold dump_lines. cbn [seq map]. f_equal.
  rewrite <- seq_shift, map_map. apply map_ext. intros k.
  by rewrite dump_line_shift.
Qed.

Lemma dump_line_0 rd s :
  0 <= s < 2 ^ 32 ->
  dump_line rd s 0 =
    Cprintf "[%08x]: 0x%08x 0x%08x 0x%08x 0x%08x\n"
      [AInt s; AInt (rd s); AInt (rd (wrap32 (s + 4)));
       AInt (rd (wrap32 (s + 8))); AInt (rd (wrap32 (s + 12)))].
Proof.
  intros Hs. unfold dump_line. cbn [Z.of_nat Z.mul Z.add]. 
  rewrite !Z.add_0_r, (wrap32_small s) by done. reflexivity.
Qed.

Lemma mon_xv_loop_spec n :
  forall fuel i s len m,
    (n <= fuel)%nat -> 0 <= i -> 0 <= s < 2 ^ 32 ->
    i + 4 * Z.of_nat n < 2 ^ 32 ->
    (n <> O -> i + 4 * (Z.of_nat n - 1) < len) ->
    len <= i + 4 * Z.of_nat n ->
    (forall j, 0 <= j < 4 * Z.of_nat n -> is_Some (m_mem m !! wrap32 (s + 4 * j))) ->
    mon_xv_loop fuel i s len m =
      Ret tt (set_out m (m_out m ++ dump_lines (word_at m) s n)).
Proof.
  induction n as [|n IH]; intros fuel i s len m Hfuel Hi Hs Hmax Hin Hend Hmem.
  - unfold dump_lines. cbn [seq map]. 
    replace (set_out m (m_out m ++ [])) with m by (destruct m; unfold set_out; cbn; by rewrite app_nil_r).
    destruct fuel; cbn [mon_xv_loop];
      replace (i <? len) with false by (symmetry; apply Z.ltb_ge; lia); done.
  - destruct fuel as [|fuel]; [lia|]. cbn [mon_xv_loop].
    replace (i <? len) with true by (symmetry; apply Z.ltb_lt; lia).
    assert (H0 : is_Some (m_mem m !! s)).
    { rewrite <- (wrap32_small s) by done. replace s with (s + 4 * 0) at 1 by lia. apply Hmem. lia. }
    unfold bind at 1. rewrite (load32_mapped _ _ H0).
    unfold bind at 1. rewrite (load32_mapped m (wrap32 (s + 4))) by (apply (Hmem 1); lia).
    unfold bind at 1. rewrite (load32_mapped m (wrap32 (s + 8))) by (apply (Hmem 2); lia).
    unfold bind at 1. rewrite (load32_mapped m (wrap32 (s + 12))) by (apply (Hmem 3); lia).
    unfold bind at 1, print_dump, cprintf.
    rewrite (wrap32_small (i + 4)) by (pow32; lia).
    rewrite (IH fuel (i + 4) (wrap32 (s + 16)) len); try (pow32; intros; lia).
    + rewrite dump_lines_S, dump_line_0 by done.
      unfold set_out; cbn. f_equal. f_equal. by rewrite <- app_assoc.
    + apply wrap32_range.
    + intros j Hj. cbn [m_mem set_out]. rewrite wrap32_add_l.
      replace (s + 16 + 4 * j) with (s + 4 * (j + 4)) by lia. apply Hmem. lia.
Qed.

Lemma mon_xp_loop_spec n :
  forall fuel i s len m,
    (n <= fuel)%nat -> 0 <= i -> 0 <= s < 2 ^ 32 ->
    i + 4 * Z.of_nat n < 2 ^ 32 ->
    (n <> O -> i + 4 * (Z.of_nat n - 1) < len) ->
    len <= i + 4 * Z.of_nat n ->
    (forall j, 0 <= j < 4 * Z.of_nat n ->
       PGNUM (wrap32 (s + 4 * j)) < m_npages m /\
       is_Some (m_mem m !! wrap32 (wrap32 (s + 4 * j) + KERNBASE))) ->
    mon_xp_loop fuel i s len m =
      Ret tt (set_out m (m_out m ++ dump_lines (phys_word_at m) s n)).
Proof.
  induction n as [|n IH]; intros fuel i s len m Hfuel Hi Hs Hmax Hin Hend Hmem.
  - unfold dump_lines. cbn [seq map].
    replace (set_out m (m_out m ++ [])) with m
      by (destruct m; unfold set_out; cbn; by rewrite app_nil_r).
    destruct fuel; cbn [mon_xp_loop];
      replace (i <? len) with false by (symmetry; apply Z.ltb_ge; lia); done.
  - destruct fuel as [|fuel]; [lia|]. cbn [mon_xp_loop].
    replace (i <? len) with true by (symmetry; apply Z.ltb_lt; lia).
    assert (H0 : PGNUM s < m_npages m /\
                 is_Some (m_mem m !! wrap32 (s + KERNBASE))).
    { rewrite <- (wrap32_small s) at 1 2 by done.
      replace s with (s + 4 * 0) at 1 2 by lia. apply Hmem. lia. }
    destruct H0 as [Hp0 Hm0].
    destruct (Hmem 1 ltac:(lia)) as [Hp1 Hm1].
    destruct (Hmem 2 ltac:(lia)) as [Hp2 Hm2].
    destruct (Hmem 3 ltac:(lia)) as [Hp3 Hm3].
    change (4 * 1) with 4 in Hp1, Hm1. change (4 * 2) with 8 in Hp2, Hm2.
    change (4 * 3) with 12 in Hp3, Hm3.
    unfold bind at 1. rewrite (KADDR_ok _ _ Hp0).
    unfold bind at 1. rewrite (load32_mapped _ _ Hm0).
    unfold bind at 1. rewrite (KADDR_ok _ _ Hp1).
    unfold bind at 1. rewrite (load32_mapped _ _ Hm1).
    unfold bind at 1. rewrite (KADDR_ok _ _ Hp2).
    unfold bind at 1. rewrite (load32_mapped _ _ Hm2).
    unfold bind at 1. rewrite (KADDR_ok _ _ Hp3).
    unfold bind at 1. rewrite (load32_mapped _ _ Hm3).
    unfold bind at 1, print_dump, cprintf.
    rewrite (wrap32_small (i + 4)) by (pow32; lia).
    rewrite (IH fuel (i + 4) (wrap32 (s + 16)) len); try (pow32; intros; lia).
    + rewrite dump_lines_S, dump_line_0 by done.
      unfold set_out, phys_word_at; cbn. f_equal. f_equal. by rewrite <- app_assoc.
    + apply wrap32_range.
    + intros j Hj. cbn [m_mem m_npages set_out]. rewrite wrap32_add_l.
      replace (s + 16 + 4 * j) with (s + 4 * (j + 4)) by lia. apply Hmem. lia.
Qed.

Lemma dump_count_spec len :
  0 <= len ->
  let n := Z.of_nat (dump_count len) in
  len <= 4 * n < len + 4.
Proof.
  intros Hlen n. unfold n, dump_count.
  rewrite Z2Nat.id by (apply Z.div_pos; lia).
  pose proof (Z.div_mod (len + 3) 4 ltac:(lia)).
  pose proof (Z.mod_pos_bound (len + 3) 4 ltac:(lia)). lia.
Qed.

Lemma words_printed_dump_lines rd s n :
  words_printed (dump_lines rd s n) = (4 * n)%nat.
Proof.
  unfold dump_lines.
  assert (H : forall a,
             words_printed (map (dump_line rd s) (seq a n)) = (4 * n)%nat);
    [|apply H].
  induction n as [|n IH]; intros a; [done|].
  cbn [seq map words_printed foldr]. unfold words_printed in IH.
  rewrite IH. change (event_words (dump_line rd s a)) with 4%nat. lia.
Qed.

(** C5, as amended: for every start and every length up to [2^32 - 4], [xv]
    and [xp] print the length over four, rounded up, lines of four words
    each: line [k] shows the address [start + 16 k] and word [j] of the
    dump is read at [start + 4 j] ([xp]: at that physical address, through
    [KADDR]).  So the words printed are the length rounded up to a multiple
    of four: exactly [length] words when the length is a multiple of four,
    and one line of four words for length 4. *)
Theorem dump_prints_whole_lines fuel argc argv tf m start len :
  arg_num m argv 1 = Some start -> arg_num m argv 2 = Some len ->
  len <= 2 ^ 32 - 4 ->
  let n := dump_count len in
  (n <= fuel)%nat ->
  ((forall j, 0 <= j < 4 * Z.of_nat n ->
      is_Some (m_mem m !! wrap32 (start + 4 * j))) ->
   mon_xv fuel argc argv tf m =
     Ret 0 (set_out m (m_out m ++ dump_lines (word_at m) start n))) /\
  ((forall j, 0 <= j < 4 * Z.of_nat n ->
      PGNUM (wrap32 (start + 4 * j)) < m_npages m /\
      is_Some (m_mem m !! wrap32 (wrap32 (start + 4 * j) + KERNBASE))) ->
   mon_xp fuel argc argv tf m =
     Ret 0 (set_out m (m_out m ++ dump_lines (phys_word_at m) start n))) /\
  (forall rd, words_printed (dump_lines rd start n) = (4 * n)%nat) /\
  (len mod 4 = 0 -> 4 * Z.of_nat n = len) /\
  (len = 4 -> n = 1%nat).
Proof.
  intros H1 H2 Hmax n Hfuel.
  pose proof (arg_num_range _ _ _ _ H1) as Hr1.
  pose proof (arg_num_range _ _ _ _ H2) as Hr2.
  pose proof (dump_count_spec len ltac:(lia)) as Hn. cbv zeta in Hn. fold n in Hn.
  split; [|split; [|split; [|split]]].
  - intros Hmem. unfold mon_xv, bind at 1. rewrite (strtol_at_arg _ _ _ _ H1).
    unfold bind at 1. rewrite (strtol_at_arg _ _ _ _ H2).
    unfold bind.
    rewrite (mon_xv_loop_spec n fuel 0 start len m Hfuel);
      [reflexivity | lia | done | pow32; lia | intros; lia | lia | exact Hmem].
  - intros Hmem. unfold mon_xp, bind at 1. rewrite (strtol_at_arg _ _ _ _ H1).
    unfold bind at 1. rewrite (strtol_at_arg _ _ _ _ H2).
    unfold bind.
    rewrite (mon_xp_loop_spec n fuel 0 start len m Hfuel);
      [reflexivity | lia | done | pow32; lia | intros; lia | lia | exact Hmem].
  - intros rd. apply words_printed_dump_lines.
  - intros Hmod.
    pose proof (Z.div_mod len 4 ltac:(lia)). lia.
  - intros ->. reflexivity.
Qed.

(** ** The stack unwinder *)

Lemma load32_at m a w : m_mem m !! a = Some w -> load32 a m = Ret w m.
Proof. unfold load32. by intros ->. Qed.

Lemma read_frame_Some mem fp fr :
  read_frame mem fp = Some fr ->
  exists a1 a2 a3 a4 a5,
    mem !! wrap32 (fp + 4) = Some (fr_eip fr) /\
    mem !! wrap32 (fp + 8) = Some a1 /\
    mem !! wrap32 (fp + 12) = Some a2 /\
    mem !! wrap32 (fp + 16) = Some a3 /\
    mem !! wrap32 (fp + 20) = Some a4 /\
    mem !! wrap32 (fp + 24) = Some a5 /\
    mem !! fp = Some (fr_link fr) /\
    fr_ebp fr = fp /\ fr_args fr = [a1; a2; a3; a4; a5].
Proof.
  unfold read_frame. intros H.
  destruct (mem !! wrap32 (fp + 4)) as [eip|]; [|done].
  destruct (mem !! wrap32 (fp + 8)) as [a1|]; [|done].
  destruct (mem !! wrap32 (fp + 12)) as [a2|]; [|done].
  destruct (mem !! wrap32 (fp + 16)) as [a3|]; [|done].
  destruct (mem !! wrap32 (fp + 20)) as [a4|]; [|done].
  destruct (mem !! wrap32 (fp + 24)) as [a5|]; [|done].
  destruct (mem !! fp) as [link|]; [|done].
  cbn in H. injection H as <-. by exists a1, a2, a3, a4, a5.
Qed.

(** One round of the loop on a frame that can be read. *)
Lemma mon_backtrace_loop_frame n cur m fr :
  read_frame (m_mem m) cur = Some fr ->
  mon_backtrace_loop (S n) cur m =
    (if fr_link fr =? 0 then ret tt else mon_backtrace_loop n (fr_link fr))
      (set_out m (m_out m ++ frame_record (m_syms m) fr)).
Proof.
  intros (a1 & a2 & a3 & a4 & a5 & He & H1 & H2 & H3 & H4 & H5 & Hl & Hb & Ha)%read_frame_Some.
  cbn [mon_backtrace_loop].
  unfold bind at 1. rewrite (load32_at _ _ _ He).
  unfold bind at 1. rewrite (load32_at _ _ _ H1).
  unfold bind at 1. rewrite (load32_at _ _ _ H2).
  unfold bind at 1. rewrite (load32_at _ _ _ H3).
  unfold bind at 1. rewrite (load32_at _ _ _ H4).
  unfold bind at 1. rewrite (load32_at _ _ _ H5).
  unfold bind at 1, cprintf at 1.
  unfold bind at 1. rewrite (load32_at (set_out m _) _ _ He).
  unfold bind at 1, debuginfo_eip.
  unfold bind at 1. rewrite (load32_at (set_out m _) _ _ He).
  unfold bind at 1, cprintf at 1.
  unfold bind at 1. rewrite (load32_at (set_out (set_out m _) _) _ _ Hl).
  unfold frame_record. rewrite Hb, Ha. cbn [map m_out m_syms set_out].
  rewrite <- app_assoc. reflexivity.
Qed.

Lemma frame_chain_length mem n :
  forall fp frs, frame_chain mem n fp = Some frs -> length frs = n.
Proof.
  induction n as [|n IH]; intros fp frs; [done|]. cbn [frame_chain].
  destruct (read_frame mem fp) as [fr|]; [|done]. cbn.
  destruct (fr_link fr =? 0).
  - destruct n; [|done]. by intros [= <-].
  - destruct (frame_chain mem n (fr_link fr)) as [frs'|] eqn:E; [|done].
    cbn. intros [= <-]. cbn. f_equal. by eapply IH.
Qed.

Lemma mon_backtrace_loop_spec n :
  forall fuel cur m frs,
    frame_chain (m_mem m) n cur = Some frs -> (n <= fuel)%nat ->
    mon_backtrace_loop fuel cur m =
      Ret tt (set_out m (m_out m ++ concat (map (frame_record (m_syms m)) frs))).
Proof.
  induction n as [|n IH]; intros fuel cur m frs Hch Hfuel; [done|].
  destruct fuel as [|fuel]; [lia|]. cbn [frame_chain] in Hch.
  destruct (read_frame (m_mem m) cur) as [fr|] eqn:Hfr; [|done]. cbn in Hch.
  rewrite (mon_backtrace_loop_frame _ _ _ _ Hfr).
  destruct (fr_link fr =? 0).
  - destruct n; [|done]. injection Hch as <-. cbn [map concat]. by rewrite app_nil_r.
  - destruct (frame_chain (m_mem m) n (fr_link fr)) as [frs'|] eqn:E; [|done].
    cbn in Hch. injection Hch as <-.
    rewrite (IH fuel (fr_link fr) _ frs') by (done || lia).
    cbn [map concat m_out m_syms set_out]. unfold set_out; cbn.
    by rewrite <- !app_assoc.
Qed.

Lemma frame_chain_inv mem n fp frs :
  frame_chain mem (S n) fp = Some frs ->
  exists fr,
    read_frame mem fp = Some fr /\
    ((fr_link fr = 0 /\ n = O /\ frs = [fr]) \/
     (fr_link fr <> 0 /\
      exists frs', frame_chain mem n (fr_link fr) = Some frs' /\ frs = fr :: frs')).
Proof.
  cbn [frame_chain]. destruct (read_frame mem fp) as [fr|]; [|done]. cbn.
  intros H. exists fr. split; [done|].
  destruct (Z.eqb_spec (fr_link fr) 0) as [Hz|Hnz].
  - left. destruct n; [|done]. by injection H as <-.
  - right. split; [done|].
    destruct (frame_chain mem n (fr_link fr)) as [frs'|]; [|done].
    cbn in H. injection H as <-. by exists frs'.
Qed.

(** In a chain the first frame is the one at the starting frame pointer,
    every frame but the last has a non-zero link that is the frame pointer
    of the next, and the link of the last frame is zero. *)
Lemma frame_chain_links mem n :
  forall fp frs,
    frame_chain mem n fp = Some frs ->
    fr_ebp <$> head frs = Some fp /\
    (forall i fr fr', frs !! i = Some fr -> frs !! S i = Some fr' ->
       fr_link fr <> 0 /\ fr_ebp fr' = fr_link fr) /\
    (forall fr, last frs = Some fr -> fr_link fr = 0).
Proof.
  induction n as [|n IH]; intros fp frs Hch; [done|].
  destruct (frame_chain_inv _ _ _ _ Hch)
    as (fr & Hfr & [(Hz & -> & ->)|(Hnz & frs' & Hch' & ->)]).
  - apply read_frame_Some in Hfr as (? & ? & ? & ? & ? & Hfr).
    split; [cbn; f_equal; apply Hfr|]. split; [by intros [|i]|].
    by intros fr' [= <-].
  - destruct (IH _ _ Hch') as (Hhead & Hlinks & Hlast).
    apply read_frame_Some in Hfr as (? & ? & ? & ? & ? & Hfr).
    split; [cbn; f_equal; apply Hfr|]. split.
    + intros [|i] fr1 fr2 H1 H2.
      * cbn in H1. injection H1 as <-. split; [done|].
        destruct frs' as [|fr0 frs']; [done|].
        cbn in H2, Hhead. by simplify_eq.
      * by apply (Hlinks i).
    + intros fr'. destruct frs' as [|fr0 frs']; [done|].
      rewrite last_cons_cons. apply Hlast.
Qed.

(** A chain is a matter of the words of its frames only. *)
Lemma read_frame_local mem mem' fp fr :
  read_frame mem fp = Some fr ->
  (forall a, a ∈ frame_words fr -> mem' !! a = mem !! a) ->
  read_frame mem' fp = Some fr.
Proof.
  intros Hfr Hag.
  pose proof Hfr as (a1 & a2 & a3 & a4 & a5 & He & H1 & H2 & H3 & H4 & H5 & Hl & Hb & Ha)%read_frame_Some.
  unfold frame_words in Hag. rewrite Hb in Hag.
  unfold read_frame.
  rewrite !Hag by set_solver.
  exact Hfr.
Qed.

Lemma frame_chain_local mem mem' n :
  forall fp frs,
    frame_chain mem n fp = Some frs ->
    (forall a, a ∈ concat (map frame_words frs) -> mem' !! a = mem !! a) ->
    frame_chain mem' n fp = Some frs.
Proof.
  induction n as [|n IH]; intros fp frs Hch Hag; [done|].
  destruct (frame_chain_inv _ _ _ _ Hch)
    as (fr & Hfr & [(Hz & -> & ->)|(Hnz & frs' & Hch' & ->)]).
  - cbn [frame_chain]. rewrite (read_frame_local mem mem' fp fr Hfr).
    + cbn. by rewrite Hz.
    + intros a Ha. apply Hag. cbn [map concat]. rewrite app_nil_r. done.
  - cbn [frame_chain]. rewrite (read_frame_local mem mem' fp fr Hfr).
    + cbn. replace (fr_link fr =? 0) with false by (symmetry; by apply Z.eqb_neq).
      rewrite (IH _ frs' Hch'); [done|].
      intros a Ha. apply Hag. cbn [map concat]. apply elem_of_app. by right.
    + intros a Ha. apply Hag. cbn [map concat]. apply elem_of_app. by left.
Qed.

Lemma mon_backtrace_chain fuel argc argv tf m n frs :
  frame_chain (m_mem m) n (m_ebp m) = Some frs -> (n <= fuel)%nat ->
  mon_backtrace fuel argc argv tf m =
    Ret 0 (set_out m (m_out m ++ Cprintf "Stack backtrace:\n" [] ::
             concat (map (frame_record (m_syms m)) frs))).
Proof.
  intros Hch Hfuel.
  unfold mon_backtrace, bind at 1, get.
  unfold bind at 1, cprintf at 1. unfold bind.
  rewrite (mon_backtrace_loop_spec n fuel _ (set_out m _) frs Hch Hfuel).
  unfold ret, set_out; cbn. by rewrite <- app_assoc.
Qed.

(** C9: from the frame-pointer register on, the unwinder prints one record
    per frame of the chain (the frame pointer, the return address one word
    above it, the five words after that, and the symbol information of the
    return address), takes the word at the frame pointer as the next frame
    pointer, and returns when that word is zero: on a chain of [n] frames
    it prints [n] records and returns 0.  It reads the seven words of each
    frame and nothing else: the outcome is the same on every machine that
    agrees on those words, whatever is or is not mapped elsewhere (a load
    from an unmapped address would fault). *)
Theorem unwinder_follows_chain fuel argc argv tf m n frs :
  frame_chain (m_mem m) n (m_ebp m) = Some frs -> (n <= fuel)%nat ->
  mon_backtrace fuel argc argv tf m =
    Ret 0 (set_out m (m_out m ++ Cprintf "Stack backtrace:\n" [] ::
             concat (map (frame_record (m_syms m)) frs))) /\
  length frs = n /\
  fr_ebp <$> head frs = Some (m_ebp m) /\
  (forall i fr fr', frs !! i = Some fr -> frs !! S i = Some fr' ->
     fr_link fr <> 0 /\ fr_ebp fr' = fr_link fr) /\
  (forall fr, last frs = Some fr -> fr_link fr = 0) /\
  (forall m',
     m_ebp m' = m_ebp m ->
     (forall a, a ∈ concat (map frame_words frs) -> m_mem m' !! a = m_mem m !! a) ->
     mon_backtrace fuel argc argv tf m' =
       Ret 0 (set_out m' (m_out m' ++ Cprintf "Stack backtrace:\n" [] ::
                concat (map (frame_record (m_syms m')) frs)))).
Proof.
  intros Hch Hfuel.
  split; [by apply (mon_backtrace_chain _ _ _ _ _ n)|].
  split; [by eapply frame_chain_length|].
  destruct (frame_chain_links _ _ _ _ Hch) as (Hhead & Hlinks & Hlast).
  repeat (split; [done|]).
  intros m' Hebp Hag. apply (mon_backtrace_chain _ _ _ _ _ n); [|done].
  rewrite Hebp. by apply (frame_chain_local (m_mem m)).
Qed.

Lemma unwinder_follows_chain_witness :
  let m := machine_with_stack in
  let frs :=
    [ {| fr_ebp := 0x1000; fr_eip := 0xF0100068; fr_args := [1; 2; 3; 4; 5];
         fr_link := 0x2000 |};
      {| fr_ebp := 0x2000; fr_eip := 0xF0100A10; fr_args := [6; 7; 8; 9; 10];
         fr_link := 0x3000 |};
      {| fr_ebp := 0x3000; fr_eip := 0xF010003E; fr_args := [11; 12; 13; 14; 15];
         fr_link := 0 |} ] in
  size (m_mem m) = 21%nat /\
  mon_backtrace 3 1 [SPtr 0; SNull] 0 m =
    Ret 0 (set_out m (Cprintf "Stack backtrace:\n" [] ::
             concat (map (frame_record no_syms) frs))) /\
  length frs = 3%nat.
Proof.
  intros m frs. split; [reflexivity|].
  pose proof (unwinder_follows_chain 3 1 [SPtr 0; SNull] 0 m 3 frs
                eq_refl (le_n 3)) as H.
  split; [exact (proj1 H) | exact (proj1 (proj2 H))].
Defined.

(** ** The claims about [xp] and [xv], tried *)

Lemma dump_prints_whole_lines_witness :
  let m := machine_with_words "xv 0x1000 4" in
  let argv := [SPtr 0; SPtr 3; SPtr 10; SNull] in
  mon_xv 1 3 argv 0 m =
    Ret 0 (set_out m
             [Cprintf "[%08x]: 0x%08x 0x%08x 0x%08x 0x%08x\n"
                [AInt 0x1000; AInt 11; AInt 12; AInt 13; AInt 14]]) /\
  mon_xp 1 3 argv 0 m =
    Ret 0 (set_out m
             [Cprintf "[%08x]: 0x%08x 0x%08x 0x%08x 0x%08x\n"
                [AInt 0x1000; AInt 21; AInt 22; AInt 23; AInt 24]]).
Proof.
  intros m argv.
  pose proof (dump_prints_whole_lines 1 3 argv 0 m 0x1000 4 eq_refl eq_refl
                ltac:(vm_compute; discriminate) (le_n 1)) as (Hxv & Hxp & _).
  split.
  - apply Hxv. intros j Hj.
    change (Z.of_nat (dump_count 4)) with 1 in Hj.
    assert (Hc : j = 0 \/ j = 1 \/ j = 2 \/ j = 3) by lia.
    destruct Hc as [-> | [-> | [-> | ->]]]; vm_compute; eauto.
  - apply Hxp. intros j Hj.
    change (Z.of_nat (dump_count 4)) with 1 in Hj.
    assert (Hc : j = 0 \/ j = 1 \/ j = 2 \/ j = 3) by lia.
    destruct Hc as [-> | [-> | [-> | ->]]]; vm_compute; eauto.
Defined.

(** C5 as stated fails when the length is not a multiple of four: the loop
    prints whole lines.  [xv 0x1000 1] and [xp 0x1000 1] print four words
    for a length of one. *)
Lemma dump_of_one_word_prints_four :
  arg_num (machine_with_words "xv 0x1000 1") [SPtr 0; SPtr 3; SPtr 10; SNull] 2
    = Some 1 /\
  (exists m',
     runcmd 1 0 0 (machine_with_words "xv 0x1000 1") = Ret 0 m' /\
     m_out m' = [Cprintf "[%08x]: 0x%08x 0x%08x 0x%08x 0x%08x\n"
                   [AInt 0x1000; AInt 11; AInt 12; AInt 13; AInt 14]] /\
     words_printed (m_out m') = 4%nat) /\
  (exists m',
     runcmd 1 0 0 (machine_with_words "xp 0x1000 1") = Ret 0 m' /\
     m_out m' = [Cprintf "[%08x]: 0x%08x 0x%08x 0x%08x 0x%08x\n"
                   [AInt 0x1000; AInt 21; AInt 22; AInt 23; AInt 24]] /\
     words_printed (m_out m') = 4%nat).
Proof.
  split; [reflexivity|].
  split; eexists; (split; [vm_compute; reflexivity|]); split; reflexivity.
Qed.

(** Beyond [2^32 - 4] the counter wraps before it reaches the length: the
    loop of the dumper does not return, whatever the fuel. *)
Lemma mon_xv_loop_wraps fuel :
  forall i s len m,
    0 <= i < 2 ^ 32 -> i mod 4 = 0 -> 2 ^ 32 - 4 < len ->
    forall r m', mon_xv_loop fuel i s len m <> Ret r m'.
Proof.
  induction fuel as [|fuel IH]; intros i s len m Hi Hmod Hlen r m';
    cbn [mon_xv_loop];
    assert (Hlt : i < len)
      by (pose proof (Z.div_mod i 4 ltac:(lia)); pow32; lia);
    replace (i <? len) with true by (symmetry; apply Z.ltb_lt; lia);
    [done|].
  unfold bind at 1, load32 at 1. destruct (m_mem m !! s); [|done].
  unfold bind at 1, load32 at 1. destruct (m_mem m !! wrap32 (s + 4)); [|done].
  unfold bind at 1, load32 at 1. destruct (m_mem m !! wrap32 (s + 8)); [|done].
  unfold bind at 1, load32 at 1. destruct (m_mem m !! wrap32 (s + 12)); [|done].
  unfold bind at 1, print_dump, cprintf.
  apply IH; [apply wrap32_range| |done].
  unfold wrap32. pow32.
  pose proof (Z.div_mod i 4 ltac:(lia)) as Hdm.
  destruct (Z.eq_dec i 4294967292) as [->|Hne]; [reflexivity|].
  rewrite (Z.mod_small (i + 4)) by lia.
  rewrite Z.add_mod, Hmod by lia. reflexivity.
Qed.

(** ** The claim about resuming, tried *)

Lemma resume_with_context_witness :
  let m := machine_at_breakpoint in
  let t := breakpoint_frame in
  let tf := 0xF01C0000 in
  let line :=
    Cprintf "0x%08x %s:%d: %.*s+%d\n"
      [AInt 0x800042; AStr "<unknown>"; AInt 0; AInt 9; AStr "<unknown>";
       AInt 0x800042] in
  (exists m' t',
     mon_c 0 1 [SPtr 0; SNull] tf m = EnvRun m' /\
     m' = set_tfs m (<[tf := t']> (m_tfs m)) /\
     m_tfs m' !! tf = Some t' /\
     Z.testbit (tf_eflags t') 8 = false /\
     (forall i, 0 <= i < 32 -> i <> 8 ->
        Z.testbit (tf_eflags t') i = Z.testbit 0x306 i) /\
     same_registers t t' /\
     (forall p, p <> tf -> m_tfs m' !! p = m_tfs m !! p) /\
     m_out m' = m_out m /\ m_pt m' = m_pt m) /\
  (exists m' t',
     mon_si 0 1 [SPtr 0; SNull] tf m = EnvRun m' /\
     m' = set_tfs (set_out m [line]) (<[tf := t']> (m_tfs m)) /\
     m_tfs m' !! tf = Some t' /\
     Z.testbit (tf_eflags t') 8 = true /\
     (forall i, 0 <= i -> i <> 8 ->
        Z.testbit (tf_eflags t') i = Z.testbit 0x306 i) /\
     same_registers t t' /\
     (forall p, p <> tf -> m_tfs m' !! p = m_tfs m !! p) /\
     m_out m' = [line] /\ m_pt m' = m_pt m).
Proof.
  intros m t tf line.
  apply (resume_with_context 0 1 [SPtr 0; SNull] tf m t);
    [discriminate | reflexivity | left; reflexivity].
Defined.

(** With the single-step bit set in the saved flags (0x306), [c] leaves
    0x206 and [si] leaves 0x306. *)
Lemma resume_at_breakpoint :
  mon_c 0 1 [SPtr 0; SNull] 0xF01C0000 machine_at_breakpoint =
    EnvRun (set_tfs machine_at_breakpoint
              {[ 0xF01C0000 := set_tf_eflags breakpoint_frame 0x206 ]}) /\
  exists m',
    mon_si 0 1 [SPtr 0; SNull] 0xF01C0000 machine_at_breakpoint = EnvRun m' /\
    m_tfs m' = {[ 0xF01C0000 := set_tf_eflags breakpoint_frame 0x306 ]}.
Proof. split; [|eexists; split]; vm_compute; reflexivity. Qed.

(** ** The interpreter, tried *)

(** The loop of [runcmd] always ends within its [MAXARGS] rounds. *)
Lemma parse_loop_finishes b :
  parse_loop MAXARGS b 0 0 argv0 <> Unfinished.
Proof.
  destruct (le_lt_dec MAXARGS (length (tokens b))) as [Hge|Hlt].
  - destruct (parse_loop_too_many MAXARGS [] b 0 argv0) as (b' & Hp);
      [lia | unfold MAXARGS; lia | lia |].
    cbn [app length] in Hp. by rewrite Hp.
  - destruct (parse_loop_spec MAXARGS [] b 0 argv0) as (b' & argv' & Hp & _);
      [lia | unfold MAXARGS; lia | done | lia |].
    cbn [app length] in Hp. by rewrite Hp.
Qed.

Example tokens_help : tokens (buf_of "  help  ") = [buf_of "help"].
Proof. reflexivity. Qed.

Example parse_help :
  exists argv,
    parse_loop MAXARGS (buf_of "  help  ") 0 0 argv0 =
      Parsed [NUL; NUL; "h"; "e"; "l"; "p"; NUL; NUL]%char 1 argv /\
    argv_get argv 0 = SPtr 2 /\
    cstr [NUL; NUL; "h"; "e"; "l"; "p"; NUL; NUL]%char 2 = buf_of "help".
Proof. eexists. split; [reflexivity|]. split; reflexivity. Qed.

(** Sixteen tokens are one too many already. *)
Example runcmd_rejects_sixteen :
  let m := set_buf machine0 (buf_of "a b c d e f g h i j k l m n o p") in
  exists b',
    runcmd 0 0 0 m =
      Ret 0 (set_out (set_buf m b')
               [Cprintf "Too many arguments (max %d)\n" [AInt 16]]).
Proof. eexists. vm_compute. reflexivity. Qed.

(** An unknown command is not fatal. *)
Example runcmd_unknown :
  let m := set_buf machine0 (buf_of "quit") in
  runcmd 0 0 0 m = Ret 0 (set_out m [Cprintf "Unknown command '%s'\n" [AStr "quit"]]).
Proof. vm_compute. reflexivity. Qed.

(** Strictly above [KERNBASE] the address is refused. *)
Example set_above_KERNBASE :
  let m := set_buf machine0 (buf_of "set 0xf0001000 0x7") in
  exists b',
    runcmd 0 0 0 m =
      Ret 0 (set_out (set_buf m b')
               [Cprintf "Invalid parameters[page=%08x]\n" [AInt 0xF0001000]]).
Proof. eexists. vm_compute. reflexivity. Qed.

(** [map 0 0xffffffff]: the cursor wraps after the last page, so the loop is
    still running whatever the fuel. *)
Lemma mon_map_loop_wraps fuel :
  forall i end_ m,
    0 <= i < 2 ^ 32 -> i mod PGSIZE = 0 -> 2 ^ 32 - PGSIZE < end_ ->
    forall r m', mon_map_loop fuel i end_ m <> Ret r m'.
Proof.
  unfold PGSIZE.
  induction fuel as [|fuel IH]; intros i end_ m Hi Hmod Hend r m';
    cbn [mon_map_loop];
    assert (Hlt : i < end_)
      by (pose proof (Z.div_mod i 4096 ltac:(lia)); pow32; lia);
    replace (i <? end_) with true by (symmetry; apply Z.ltb_lt; lia);
    [done|].
  unfold bind at 1. rewrite pgdir_walk_touch.
  unfold bind at 1, pte_load at 1.
  unfold bind at 1, print_row, cprintf.
  apply IH; [apply wrap32_range| |done].
  unfold wrap32, PGSIZE. pow32.
  pose proof (Z.div_mod i 4096 ltac:(lia)) as Hdm.
  destruct (Z.eq_dec i 4294963200) as [->|Hne]; [reflexivity|].
  rewrite (Z.mod_small (i + 4096)) by lia.
  rewrite Z.add_mod, Hmod by lia. reflexivity.
Qed.

(** Typed at the prompt, [set 0xf0000000 0x7] goes through: the entry of the
    first kernel page is created and gets the flags. *)
Example set_at_KERNBASE_typed :
  let m := set_buf machine0 (buf_of "set 0xf0000000 0x7") in
  exists m',
    runcmd 0 0 0 m = Ret 0 m' /\
    m_pt m !! PGNUM KERNBASE = None /\
    m_pt m' !! PGNUM KERNBASE = Some 7 /\
    m_out m' = [Cprintf "[%5x-%5x] %s %5x\n"
                  [AInt 0xF0000; AInt 0xF0001; AStr "------UWP"; AInt 0]].
Proof. eexists. split; [vm_compute; reflexivity|]. by repeat split. Qed.

(** * More of the monitor *)

(** ** The tokenizer and the line buffer *)

Lemma zeroed_char_refl c : zeroed_char c c.
Proof. by left. Qed.

Lemma zeroed_char_trans c1 c2 c3 :
  zeroed_char c1 c2 -> zeroed_char c2 c3 -> zeroed_char c1 c3.
Proof.
  intros [->|[Hw ->]] [->|[Hw' ->]]; try (by left); try (by right).
Qed.

Lemma only_ws_zeroed_refl b : only_ws_zeroed b b.
Proof. apply Forall2_same_length_lookup_2; [done|]. intros i x y Hx Hy. simplify_eq. apply zeroed_char_refl. Qed.

Lemma only_ws_zeroed_trans b1 b2 b3 :
  only_ws_zeroed b1 b2 -> only_ws_zeroed b2 b3 -> only_ws_zeroed b1 b3.
Proof.
  unfold only_ws_zeroed. intros H12. revert b3.
  induction H12 as [|c1 c2 b1 b2 Hc H12 IH]; intros b3 H23.
  - by apply Forall2_nil_inv_l in H23 as ->.
  - apply Forall2_cons_inv_l in H23 as (c3 & b3' & Hc' & H23 & ->).
    constructor; [by eapply zeroed_char_trans|by apply IH].
Qed.

Lemma skip_ws_zeroed s k :
  (k + length (skip_ws s) = length s)%nat ->
  only_ws_zeroed s (replicate k NUL ++ skip_ws s).
Proof.
  revert k. induction s as [|c s IH]; intros k Hk.
  - destruct k; [constructor|done].
  - cbn [skip_ws] in *. destruct (is_ws c) eqn:Hc.
    + pose proof (skip_ws_length s). destruct k as [|k]; [cbn [length] in Hk; lia|].
      cbn [replicate app]. constructor; [by right|].
      apply IH. cbn [length] in Hk. lia.
    + assert (k = O) as -> by lia. apply only_ws_zeroed_refl.
Qed.

Lemma parse_loop_zeroes n :
  forall pre s argc argv,
    match parse_loop n (pre ++ s) (length pre) argc argv with
    | Parsed b' _ _ | TooMany b' => only_ws_zeroed (pre ++ s) b'
    | Unfinished => True
    end.
Proof.
  induction n as [|n IH]; intros pre s argc argv; [done|].
  destruct (parse_loop_gobbled n pre s argc argv) as (k & Hk & _ & ->).
  cbv zeta.
  assert (Hz : only_ws_zeroed (pre ++ s) ((pre ++ replicate k NUL) ++ skip_ws s)).
  { rewrite <- app_assoc. apply Forall2_app; [apply only_ws_zeroed_refl|].
    by apply skip_ws_zeroed. }
  destruct (is_nul (deref (skip_ws s) 0)); [done|].
  destruct (argc =? MAXARGS - 1)%nat; [done|].
  specialize (IH ((pre ++ replicate k NUL) ++ take_tok (skip_ws s))
                 (drop_tok (skip_ws s)) (S argc)
                 (<[argc:=SPtr (length (pre ++ replicate k NUL))]> argv)).
  destruct (parse_loop _ _ _ _ _); [| |done];
    rewrite <- (app_assoc _ (take_tok (skip_ws s))), take_drop_tok in IH;
    by eapply only_ws_zeroed_trans.
Qed.

(** X1: the tokenizer agrees with the tokens of the line.  For every line
    of at most fifteen tokens the loop of [runcmd] ends with [argc] the
    number of tokens and, for every [i], [argv[i]] pointing into the
    rewritten buffer at the null-terminated text of token [i]; for sixteen
    tokens or more, and only then, it ends in the too-many exit. *)
Theorem tokenizer_refines_tokens (b : list ascii) :
  ((length (tokens b) < MAXARGS)%nat ->
     exists b' argv,
       parse_loop MAXARGS b 0 0 argv0 = Parsed b' (length (tokens b)) argv /\
       forall i t, tokens b !! i = Some t ->
         exists q, argv !! i = Some (SPtr q) /\ cstr b' q = t) /\
  ((MAXARGS <= length (tokens b))%nat <->
     exists b', parse_loop MAXARGS b 0 0 argv0 = TooMany b').
Proof.
  assert (Hok : (length (tokens b) < MAXARGS)%nat ->
     exists b' argv,
       parse_loop MAXARGS b 0 0 argv0 = Parsed b' (length (tokens b)) argv /\
       forall i t, tokens b !! i = Some t ->
         exists q, argv !! i = Some (SPtr q) /\ cstr b' q = t).
  { intros Hlt.
    destruct (parse_loop_spec MAXARGS [] b 0 argv0)
      as (b' & argv' & Hp & _ & _ & Hptr & _);
      [lia | unfold MAXARGS; lia | done | lia |].
    cbn [app length Nat.add] in Hp. exists b', argv'. split; [done|].
    intros i t Hi. apply (Hptr i t Hi). }
  split; [exact Hok|]. split.
  - intros Hge.
    destruct (parse_loop_too_many MAXARGS [] b 0 argv0) as (b' & Hp);
      [lia | unfold MAXARGS; lia | lia |].
    by exists b'.
  - intros (b' & Hp).
    destruct (le_lt_dec MAXARGS (length (tokens b))) as [Hge|Hlt]; [done|].
    destruct (Hok Hlt) as (b'' & argv & Hp' & _). congruence.
Qed.

Lemma tokenizer_refines_tokens_witness :
  let b := buf_of "xp  0x100 4 " in
  tokens b = [buf_of "xp"; buf_of "0x100"; buf_of "4"] /\
  exists b' argv,
    parse_loop MAXARGS b 0 0 argv0 = Parsed b' 3 argv /\
    forall i t, tokens b !! i = Some t ->
      exists q, argv !! i = Some (SPtr q) /\ cstr b' q = t.
Proof.
  intros b. split; [reflexivity|].
  apply (proj1 (tokenizer_refines_tokens b)). vm_compute. lia.
Defined.

(** X2: the tokenizer works in place and touches white space only.
    However the loop of [runcmd] ends, the buffer it leaves has the length
    of the line, and each character is the one of the line or, where the
    line had white space, a null: no character of a token is changed. *)
Theorem tokenizer_only_zeroes_whitespace (b : list ascii) :
  exists b',
    ((exists argc argv, parse_loop MAXARGS b 0 0 argv0 = Parsed b' argc argv) \/
     parse_loop MAXARGS b 0 0 argv0 = TooMany b') /\
    length b' = length b /\
    forall i c, b !! i = Some c ->
      b' !! i = Some c \/ (is_ws c = true /\ b' !! i = Some NUL).
Proof.
  pose proof (parse_loop_zeroes MAXARGS [] b 0 argv0) as Hz.
  pose proof (parse_loop_finishes b) as Hfin.
  cbn [app length] in Hz.
  assert (Hchars : forall b', only_ws_zeroed b b' ->
            length b' = length b /\
            forall i c, b !! i = Some c ->
              b' !! i = Some c \/ (is_ws c = true /\ b' !! i = Some NUL)).
  { intros b' H. split; [symmetry; by eapply Forall2_length|].
    intros i c Hi.
    destruct (Forall2_lookup_l _ _ _ _ _ H Hi) as (c' & Hi' & [->|[Hw ->]]);
      eauto. }
  destruct (parse_loop MAXARGS b 0 0 argv0) as [b' argc argv|b'|]; [| |done];
    exists b'; (split; [eauto|by apply Hchars]).
Qed.

(** ** The dispatcher *)

Lemma tokens_blank s : blank s -> tokens s = [].
Proof.
  unfold blank. induction s as [|c s IH]; [done|]. cbn [until_nul].
  destruct (is_nul c) eqn:Hn; [intros _; by apply tokens_nul|].
  intros [Hc Hs]%Forall_cons. rewrite tokens_ws; [by apply IH|].
  unfold is_ws. by rewrite Hn, Hc.
Qed.

(** X3: a line without a token is not an error and does nothing.  For
    every line that is white space up to its first null (the empty line
    among them) [runcmd] returns 0 without printing, and the page tables
    and trap frames are as before. *)
Theorem runcmd_blank_line fuel tf m :
  blank (m_buf m) ->
  exists m',
    runcmd fuel 0 tf m = Ret 0 m' /\
    m_out m' = m_out m /\ m_pt m' = m_pt m /\ m_tfs m' = m_tfs m.
Proof.
  intros Hb. destruct (runcmd_empty fuel tf m (tokens_blank _ Hb)) as (b' & ->).
  by eexists.
Qed.

Lemma runcmd_blank_line_witness :
  let m := set_buf machine0 (buf_of "   ") in
  exists m',
    runcmd 0 0 0 m = Ret 0 m' /\
    m_out m' = m_out m /\ m_pt m' = m_pt m /\ m_tfs m' = m_tfs m.
Proof.
  intros m. apply (runcmd_blank_line 0 0 m).
  unfold blank. vm_compute. repeat constructor.
Defined.

Lemma find_command_None t cs :
  (forall c, c ∈ cs -> name c <> string_of_list_ascii t) ->
  find_command t cs = None.
Proof.
  induction cs as [|c cs IH]; intros Hno; [done|]. cbn [find_command].
  destruct (String.eqb_spec (string_of_list_ascii t) (name c)) as [He|_].
  - exfalso. apply (Hno c); [left|done].
  - apply IH. intros c' Hc'. apply Hno. by right.
Qed.

Lemma find_command_Some t cs c :
  find_command t cs = Some c -> c ∈ cs /\ name c = string_of_list_ascii t.
Proof.
  induction cs as [|c0 cs IH]; [done|]. cbn [find_command].
  destruct (String.eqb_spec (string_of_list_ascii t) (name c0)) as [He|_].
  - intros [= <-]. split; [left|done].
  - intros H. destruct (IH H). split; [by right|done].
Qed.

(** Every command of the table is found under its own name. *)
Lemma find_command_own c :
  c ∈ commands -> find_command (buf_of (name c)) commands = Some c.
Proof.
  unfold commands. intros Hc.
  repeat (apply elem_of_cons in Hc as [->|Hc]; [reflexivity|]).
  by apply elem_of_nil in Hc.
Qed.

(** X4: an unknown command is reported and is not fatal.  For every line of
    at most fifteen tokens whose first token is not the name of a command,
    [runcmd] prints the unknown-command line with that token and returns 0;
    page tables and trap frames are as before. *)
Theorem runcmd_unknown_command fuel tf m t0 ts :
  tokens (m_buf m) = t0 :: ts -> (length (t0 :: ts) < MAXARGS)%nat ->
  (forall c, c ∈ commands -> name c <> string_of_list_ascii t0) ->
  exists m',
    runcmd fuel 0 tf m = Ret 0 m' /\
    m_out m' = m_out m ++
      [Cprintf "Unknown command '%s'\n" [AStr (string_of_list_ascii t0)]] /\
    m_pt m' = m_pt m /\ m_tfs m' = m_tfs m.
Proof.
  intros Htoks Hlen Hno.
  destruct (runcmd_dispatch fuel tf m t0 ts Htoks Hlen) as (b' & argv & _ & ->).
  rewrite (find_command_None _ _ Hno). by eexists.
Qed.

Lemma runcmd_unknown_command_witness :
  let m := set_buf machine0 (buf_of "Help me") in
  exists m',
    runcmd 0 0 0 m = Ret 0 m' /\
    m_out m' = m_out m ++ [Cprintf "Unknown command '%s'\n" [AStr "Help"]] /\
    m_pt m' = m_pt m /\ m_tfs m' = m_tfs m.
Proof.
  intros m.
  apply (runcmd_unknown_command 0 0 m (buf_of "Help") [buf_of "me"]);
    [reflexivity | vm_compute; lia |].
  intros c Hc. unfold commands in Hc.
  repeat (apply elem_of_cons in Hc as [->|Hc]; [discriminate|]).
  by apply elem_of_nil in Hc.
Defined.

(** X5: dispatch is by exact name and every name of the table reaches its
    own function.  The names of the table are pairwise distinct, and for
    every command of the table and every line of at most fifteen tokens
    whose first token is its name, [runcmd] is the call of that command's
    function with [argc] the number of tokens and the argument vector of
    the line. *)
Theorem runcmd_dispatches_by_name fuel tf m c ts :
  c ∈ commands ->
  tokens (m_buf m) = buf_of (name c) :: ts ->
  (length (buf_of (name c) :: ts) < MAXARGS)%nat ->
  NoDup (name <$> commands) /\
  exists b' argv,
    argv_holds b' argv (buf_of (name c) :: ts) /\
    runcmd fuel 0 tf m = call (func c) fuel (S (length ts)) argv tf (set_buf m b').
Proof.
  intros Hc Htoks Hlen. split.
  - apply (bool_decide_unpack _). vm_compute. exact I.
  - destruct (runcmd_dispatch fuel tf m _ ts Htoks Hlen) as (b' & argv & Hh & ->).
    rewrite (find_command_own c Hc). by exists b', argv.
Qed.

Lemma runcmd_dispatches_by_name_witness :
  let m := set_buf machine0 (buf_of "kerninfo now") in
  exists b' argv,
    argv_holds b' argv [buf_of "kerninfo"; buf_of "now"] /\
    runcmd 0 0 0 m = mon_kerninfo 0 2 argv 0 (set_buf m b').
Proof.
  intros m.
  apply (proj2 (runcmd_dispatches_by_name 0 0 m
     {| name := "kerninfo"; desc := "Display information about the kernel";
        func := fn_mon_kerninfo |} [buf_of "now"]
     ltac:(unfold commands; set_solver) eq_refl ltac:(vm_compute; lia))).
Defined.

(** ** [mon_help] *)

Lemma mon_help_loop_spec cs m :
  mon_help_loop cs m = Ret tt (set_out m (m_out m ++ map help_line cs)).
Proof.
  revert m. induction cs as [|c cs IH]; intros m.
  - cbn. f_equal. destruct m; unfold set_out; cbn. by rewrite app_nil_r.
  - cbn [mon_help_loop map]. unfold bind at 1, cprintf at 1. rewrite IH.
    unfold set_out; cbn. by rewrite <- app_assoc.
Qed.

(** X6: [help] lists exactly the commands the dispatcher accepts.  Whatever
    its arguments, [mon_help] returns 0 after printing one line per command
    of the table, in table order, and changes nothing else; a name is on
    one of these lines exactly when [runcmd] finds a command under it. *)
Theorem mon_help_lists_commands fuel argc argv tf m :
  mon_help fuel argc argv tf m =
    Ret 0 (set_out m (m_out m ++ map help_line commands)) /\
  length (map help_line commands) = NCOMMANDS /\
  forall s : string,
    (exists c, c ∈ commands /\ name c = s) <->
    (exists c, find_command (buf_of s) commands = Some c).
Proof.
  split; [|split].
  - unfold mon_help, bind. by rewrite mon_help_loop_spec.
  - apply length_map.
  - intros s. split.
    + intros (c & Hc & <-). exists c. by apply find_command_own.
    + intros (c & Hf). exists c.
      apply find_command_Some in Hf as [Hc Hn]. split; [done|].
      rewrite Hn. apply string_of_list_ascii_of_string.
Qed.

(** ** What the commands leave alone *)

Lemma keeps_refl pt tfs m : keeps pt tfs m m.
Proof. split; [done|]. split; [exists []; by rewrite app_nil_r|done]. Qed.

Lemma keeps_trans pt tfs m1 m2 m3 :
  keeps pt tfs m1 m2 -> keeps pt tfs m2 m3 -> keeps pt tfs m1 m3.
Proof.
  intros (Hb & (e & Ho) & Hp & Ht) (Hb' & (e' & Ho') & Hp' & Ht').
  split; [congruence|]. split; [|split].
  - exists (e ++ e'). by rewrite Ho', Ho, app_assoc.
  - intros H. rewrite Hp', Hp; done.
  - intros H. rewrite Ht', Ht; done.
Qed.

Lemma keeps_out pt tfs m o : keeps pt tfs m (set_out m (m_out m ++ o)).
Proof. split; [done|]. split; [by exists o|done]. Qed.

Lemma preserves_weaken {A} pt tfs (c : M A) :
  preserves true true c -> preserves pt tfs c.
Proof.
  intros H m. destruct (H m) as (Hb & Ho & Hp & Ht).
  split; [done|]. split; [done|]. split; intros _; auto.
Qed.

Lemma preserves_ret {A} pt tfs (a : A) : preserves pt tfs (ret a).
Proof. intros m. apply keeps_refl. Qed.

Lemma preserves_bind {A B} pt tfs (c : M A) (k : A -> M B) :
  preserves pt tfs c -> (forall a, preserves pt tfs (k a)) ->
  preserves pt tfs (bind c k).
Proof.
  intros Hc Hk m. unfold bind. specialize (Hc m).
  destruct (c m) as [a m1|m1|e m1|m1|m1]; cbn [final] in *; try done.
  eapply keeps_trans; [done|apply Hk].
Qed.

Lemma preserves_cprintf pt tfs fmt args : preserves pt tfs (cprintf fmt args).
Proof. intros m. apply keeps_out. Qed.

Lemma preserves_get pt tfs : preserves pt tfs get.
Proof. intros m. apply keeps_refl. Qed.

Lemma preserves_out_of_fuel {A} pt tfs : preserves pt tfs (@out_of_fuel A).
Proof. intros m. apply keeps_refl. Qed.

Lemma preserves_env_run {A} pt tfs : preserves pt tfs (@env_run A).
Proof. intros m. apply keeps_refl. Qed.

Lemma preserves_load32 pt tfs a : preserves pt tfs (load32 a).
Proof. intros m. unfold load32. destruct (m_mem m !! a); apply keeps_refl. Qed.

Lemma preserves_KADDR pt tfs pa : preserves pt tfs (KADDR pa).
Proof. intros m. unfold KADDR. destruct (_ <=? _); apply keeps_refl. Qed.

Lemma preserves_debuginfo_eip pt tfs a : preserves pt tfs (debuginfo_eip a).
Proof. intros m. apply keeps_refl. Qed.

Lemma preserves_strtol_at pt tfs s : preserves pt tfs (strtol_at s).
Proof.
  apply preserves_bind; [|intros; apply preserves_ret].
  intros m. unfold str_at. destruct s; apply keeps_refl.
Qed.

Lemma preserves_tf_load pt tfs p : preserves pt tfs (tf_load p).
Proof. intros m. unfold tf_load. destruct (m_tfs m !! p); apply keeps_refl. Qed.

Lemma preserves_tf_store pt p t : preserves pt false (tf_store p t).
Proof. intros m. split; [done|]. split; [exists []; cbn; by rewrite app_nil_r|done]. Qed.

Lemma preserves_pgdir_walk tfs va : preserves false tfs (pgdir_walk va).
Proof.
  intros m. rewrite pgdir_walk_touch.
  split; [done|]. split; [exists []; cbn; by rewrite app_nil_r|done].
Qed.

Lemma preserves_pte_load pt tfs p : preserves pt tfs (pte_load p).
Proof. intros m. apply keeps_refl. Qed.

Lemma preserves_pte_store tfs p v : preserves false tfs (pte_store p v).
Proof. intros m. split; [done|]. split; [exists []; cbn; by rewrite app_nil_r|done]. Qed.

Lemma preserves_bad_trapframe pt tfs tf : preserves pt tfs (bad_trapframe tf).
Proof.
  unfold bad_trapframe. destruct (tf =? 0); [apply preserves_ret|].
  apply preserves_bind; [apply preserves_tf_load|intros; apply preserves_ret].
Qed.

Ltac pres :=
  repeat first
    [ apply preserves_ret | apply preserves_cprintf | apply preserves_get
    | apply preserves_out_of_fuel | apply preserves_env_run
    | apply preserves_load32 | apply preserves_KADDR
    | apply preserves_debuginfo_eip | apply preserves_strtol_at
    | apply preserves_tf_load | apply preserves_tf_store
    | apply preserves_pgdir_walk | apply preserves_pte_load
    | apply preserves_pte_store | apply preserves_bad_trapframe
    | (apply preserves_bind; [|intros]) ].

Lemma preserves_mon_help_loop pt tfs cs : preserves pt tfs (mon_help_loop cs).
Proof. induction cs; cbn [mon_help_loop]; pres. done. Qed.

Lemma preserves_mon_backtrace_loop pt tfs n :
  forall cur, preserves pt tfs (mon_backtrace_loop n cur).
Proof.
  induction n as [|n IH]; intros cur; cbn [mon_backtrace_loop]; pres.
  destruct (_ =? 0); [pres|apply IH].
Qed.

Lemma preserves_mon_map_loop tfs n :
  forall i end_, preserves false tfs (mon_map_loop n i end_).
Proof.
  induction n as [|n IH]; intros i end_; cbn [mon_map_loop];
    destruct (i <? end_); unfold print_row; pres. apply IH.
Qed.

Lemma preserves_mon_xp_loop pt tfs n :
  forall i s len, preserves pt tfs (mon_xp_loop n i s len).
Proof.
  induction n as [|n IH]; intros i s len; cbn [mon_xp_loop];
    destruct (i <? len); unfold print_dump; pres. apply IH.
Qed.

Lemma preserves_mon_xv_loop pt tfs n :
  forall i s len, preserves pt tfs (mon_xv_loop n i s len).
Proof.
  induction n as [|n IH]; intros i s len; cbn [mon_xv_loop];
    destruct (i <? len); unfold print_dump; pres. apply IH.
Qed.

Lemma call_preserves (f : fn) fuel argc argv tf :
  preserves (negb (touches_pt f)) (negb (touches_tf f))
    (call f fuel argc argv tf).
Proof.
  destruct f; cbn [call touches_pt touches_tf negb].
  - unfold mon_help. pres; try apply preserves_mon_help_loop.
  - unfold mon_kerninfo. pres.
  - unfold mon_backtrace. pres. apply preserves_mon_backtrace_loop.
  - unfold mon_map. pres. destruct (_ || _); pres.
    apply preserves_mon_map_loop.
  - unfold mon_set. pres. destruct (_ || _); unfold print_row; pres.
  - unfold mon_xp. pres. apply preserves_mon_xp_loop.
  - unfold mon_xv. pres. apply preserves_mon_xv_loop.
  - unfold mon_c. pres. destruct a; pres.
  - unfold mon_si. pres. destruct a; pres.
Qed.

(** X7: what each command leaves alone, however it ends (returning,
    handing over through [env_run], faulting, or still looping).  No
    command changes the line buffer, and none erases console output: it
    only appends.  Only [map] and [set] can change the page tables, and
    only [c] and [si] can change a trap frame. *)
Theorem commands_keep_state (f : fn) fuel argc argv tf m :
  let m' := final (call f fuel argc argv tf m) in
  m_buf m' = m_buf m /\
  (exists evs, m_out m' = m_out m ++ evs) /\
  (touches_pt f = false -> m_pt m' = m_pt m) /\
  (touches_tf f = false -> m_tfs m' = m_tfs m).
Proof.
  intros m'. destruct (call_preserves f fuel argc argv tf m) as (Hb & Ho & Hp & Ht).
  split; [done|]. split; [done|].
  split; intros E; [apply Hp|apply Ht]; by rewrite E.
Qed.

(** ** The status of a command *)

Lemma returns_zero_ret : returns_zero (ret 0).
Proof. by intros m r m' [= <- _]. Qed.

Lemma returns_zero_bind {A} (c : M A) (k : A -> M Z) :
  (forall a, returns_zero (k a)) -> returns_zero (bind c k).
Proof.
  intros Hk m r m'. unfold bind.
  destruct (c m) as [a m1| | | |]; try discriminate. apply Hk.
Qed.

Lemma returns_zero_if (b : bool) (c1 c2 : M Z) :
  returns_zero c1 -> returns_zero c2 -> returns_zero (if b then c1 else c2).
Proof. by destruct b. Qed.

Ltac rz :=
  repeat first
    [ apply returns_zero_ret
    | apply returns_zero_if
    | (apply returns_zero_bind; intros) ].

Lemma bad_trapframe_inv tf m b m1 :
  bad_trapframe tf m = Ret b m1 ->
  m1 = m /\ (b = true -> no_valid_context m tf).
Proof.
  unfold bad_trapframe. destruct (Z.eqb_spec tf 0) as [->|Hnz].
  - intros [= <- <-]. split; [done|]. by left.
  - unfold bind, tf_load. destruct (m_tfs m !! tf) as [t|] eqn:Ht; [|done].
    intros [= <- <-]. split; [done|].
    intros [H1 H2]%andb_true_iff. right. exists t.
    apply negb_true_iff, Z.eqb_neq in H1, H2. done.
Qed.

Lemma mon_c_status fuel argc argv tf m r m' :
  mon_c fuel argc argv tf m = Ret r m' -> r = -1 /\ no_valid_context m tf.
Proof.
  unfold mon_c, bind at 1.
  destruct (bad_trapframe tf m) as [b m1| | | |] eqn:Hb; try discriminate.
  apply bad_trapframe_inv in Hb as [-> Hbad]. destruct b.
  - intros [= <- _]. split; [done|]. by apply Hbad.
  - unfold bind, tf_load. by destruct (m_tfs m !! tf).
Qed.

Lemma mon_si_status fuel argc argv tf m r m' :
  mon_si fuel argc argv tf m = Ret r m' -> r = -1 /\ no_valid_context m tf.
Proof.
  unfold mon_si, bind at 1.
  destruct (bad_trapframe tf m) as [b m1| | | |] eqn:Hb; try discriminate.
  apply bad_trapframe_inv in Hb as [-> Hbad]. destruct b.
  - intros [= <- _]. split; [done|]. by apply Hbad.
  - unfold bind, tf_load, debuginfo_eip, cprintf. destruct (m_tfs m !! tf) as [t|] eqn:Ht; [|done].
    cbn [m_tfs set_out]. by rewrite Ht.
Qed.

Lemma call_status f fuel argc argv tf m r m' :
  call f fuel argc argv tf m = Ret r m' ->
  r = 0 \/ (r = -1 /\ touches_tf f = true /\ no_valid_context m tf).
Proof.
  destruct f; cbn [call touches_tf];
    try (intros H; left; revert m r m' H;
         change (returns_zero (mon_help fuel argc argv tf)) ||
         change (returns_zero (mon_kerninfo fuel argc argv tf)) ||
         change (returns_zero (mon_backtrace fuel argc argv tf)) ||
         change (returns_zero (mon_map fuel argc argv tf)) ||
         change (returns_zero (mon_set fuel argc argv tf)) ||
         change (returns_zero (mon_xp fuel argc argv tf)) ||
         change (returns_zero (mon_xv fuel argc argv tf));
         unfold mon_help, mon_kerninfo, mon_backtrace, mon_map, mon_set,
           mon_xp, mon_xv; rz).
  - intros [-> H]%mon_c_status. by right.
  - intros [-> H]%mon_si_status. by right.
Qed.

Lemma resume_names c :
  c ∈ commands -> touches_tf (func c) = true -> name c = "c"%string \/ name c = "si"%string.
Proof.
  unfold commands. intros Hc.
  repeat (apply elem_of_cons in Hc as [->|Hc]; [cbn; (discriminate || auto)|]).
  by apply elem_of_nil in Hc.
Qed.

(** X8: there is no quit.  Whenever [runcmd] returns, the status is 0 or
    -1, and it is -1 only for a line whose first token is [c] or [si] typed
    without a context to resume: no other line can end the monitor loop. *)
Theorem runcmd_status fuel tf m r m' :
  runcmd fuel 0 tf m = Ret r m' ->
  r = 0 \/
  (r = -1 /\ no_valid_context m tf /\
   exists ts, tokens (m_buf m) = buf_of "c" :: ts \/
              tokens (m_buf m) = buf_of "si" :: ts).
Proof.
  intros Hr.
  destruct (le_lt_dec MAXARGS (length (tokens (m_buf m)))) as [Hge|Hlt].
  { destruct (runcmd_too_many fuel tf m Hge) as (b' & _ & Hr').
    rewrite Hr' in Hr. left. congruence. }
  destruct (tokens (m_buf m)) as [|t0 ts] eqn:Htoks.
  { destruct (runcmd_empty fuel tf m Htoks) as (b' & Hr').
    rewrite Hr' in Hr. left. congruence. }
  destruct (runcmd_dispatch fuel tf m t0 ts Htoks Hlt) as (b' & argv & _ & Hr').
  rewrite Hr' in Hr.
  destruct (find_command t0 commands) as [c|] eqn:Hf; [|left; congruence].
  apply find_command_Some in Hf as [Hc Hn].
  apply call_status in Hr as [->|(-> & Htf & Hbad)]; [by left|].
  right. split; [done|]. split; [exact Hbad|]. exists ts.
  assert (Ht0 : t0 = buf_of (name c)).
  { rewrite Hn. unfold buf_of. by rewrite list_ascii_of_string_of_list_ascii. }
  destruct (resume_names c Hc Htf) as [E|E]; rewrite Ht0, E; auto.
Qed.

Lemma runcmd_status_witness :
  let m := set_buf machine0 (buf_of "si") in
  -1 = 0 \/
  (-1 = -1 /\ no_valid_context m 0 /\
   exists ts, tokens (m_buf m) = buf_of "c" :: ts \/
              tokens (m_buf m) = buf_of "si" :: ts).
Proof.
  intros m.
  exact (runcmd_status 0 0 m (-1)
           (set_out m [Cprintf "Invalid Trapframe\n" []]) eq_refl).
Defined.

(** ** The monitor, left alone *)

Lemma monitor_loop_quiet fuel tf input :
  forall m,
    Forall quiet_line input ->
    exists m',
      monitor_loop fuel input tf m = AwaitInput m' /\
      m_out m' = m_out m ++ replicate (S (length input)) (Readline "K> ") /\
      m_pt m' = m_pt m /\ m_tfs m' = m_tfs m.
Proof.
  induction input as [|line input IH]; intros m Hq.
  - eexists. split; [reflexivity|]. by repeat split.
  - apply Forall_cons in Hq as [Hl Hq]. rewrite monitor_loop_cons.
    unfold bind at 1. destruct line as [s|].
    + rewrite monitor_body_line.
      set (m1 := set_buf (set_out m (m_out m ++ [Readline "K> "])) s).
      destruct (runcmd_empty fuel tf m1 (tokens_blank _ Hl)) as (b' & Hr).
      unfold bind at 1. rewrite Hr. cbn [Z.ltb Z.compare ret].
      destruct (IH (set_buf m1 b') Hq) as (m' & -> & Ho & Hp & Ht).
      exists m'. split; [done|]. rewrite Ho, Hp, Ht. cbn.
      by rewrite <- app_assoc.
    + rewrite monitor_body_eof.
      destruct (IH (set_out m (m_out m ++ [Readline "K> "])) Hq)
        as (m' & -> & Ho & Hp & Ht).
      exists m'. split; [done|]. rewrite Ho, Hp, Ht. cbn.
      by rewrite <- app_assoc.
Qed.

(** X9: the monitor never ends on its own.  Started without a context or
    with a trap frame to show, [monitor] prints its two banner lines, the
    trap frame if there is one, and then, as long as [readline] hands over
    null pointers or lines without a token, only prompts: one per line and
    one more, at which it waits; nothing else of the machine changes. *)
Theorem monitor_stays_at_prompt fuel input tf m :
  Forall quiet_line input ->
  tf = 0 \/ is_Some (m_tfs m !! tf) ->
  exists m',
    monitor fuel input tf m = AwaitInput m' /\
    m_out m' =
      m_out m ++
      [Cprintf "%<RWelcome to the JOS kernel monitor!\n" [];
       Cprintf "%<GType 'help' for a list of commands.\n" []] ++
      (if tf =? 0 then []
       else match m_tfs m !! tf with
            | Some t => [PrintTrapframe t]
            | None => []
            end) ++
      replicate (S (length input)) (Readline "K> ") /\
    m_pt m' = m_pt m /\ m_tfs m' = m_tfs m.
Proof.
  intros Hq Htf. unfold monitor.
  unfold bind at 1, cprintf at 1. unfold bind at 1, cprintf at 1.
  unfold bind at 1.
  destruct (Z.eqb_spec tf 0) as [->|Hnz].
  - cbn [ret].
    match goal with
    | |- context [monitor_loop _ _ _ ?m0] =>
        destruct (monitor_loop_quiet fuel 0 input m0 Hq) as (m' & -> & Ho & Hp & Ht)
    end.
    exists m'. split; [done|]. rewrite Ho, Hp, Ht. cbn.
    by rewrite <- !app_assoc.
  - destruct Htf as [?|[t Ht]]; [done|].
    unfold print_trapframe. cbn [m_tfs set_out]. rewrite Ht.
    match goal with
    | |- context [monitor_loop _ _ _ ?m0] =>
        destruct (monitor_loop_quiet fuel tf input m0 Hq) as (m' & -> & Ho & Hp & Ht')
    end.
    exists m'. split; [done|]. rewrite Ho, Hp, Ht'. cbn.
    by rewrite <- !app_assoc.
Qed.

Lemma monitor_stays_at_prompt_witness :
  let m := machine_at_breakpoint in
  exists m',
    monitor 0 [None; Some (buf_of "  "); Some []] 0xF01C0000 m = AwaitInput m' /\
    m_out m' =
      [Cprintf "%<RWelcome to the JOS kernel monitor!\n" [];
       Cprintf "%<GType 'help' for a list of commands.\n" [];
       PrintTrapframe breakpoint_frame;
       Readline "K> "; Readline "K> "; Readline "K> "; Readline "K> "] /\
    m_pt m' = m_pt m /\ m_tfs m' = m_tfs m.
Proof.
  intros m.
  apply (monitor_stays_at_prompt 0 [None; Some (buf_of "  "); Some []]
           0xF01C0000 m).
  - repeat constructor.
  - right. eexists. reflexivity.
Defined.

(** ** What a line can change *)

Lemma table_names c :
  c ∈ commands ->
  (touches_pt (func c) = true -> name c = "map"%string \/ name c = "set"%string) /\
  (touches_tf (func c) = true -> name c = "c"%string \/ name c = "si"%string).
Proof.
  unfold commands. intros Hc.
  repeat (apply elem_of_cons in Hc as [->|Hc];
          [cbn; split; intros; (discriminate || auto)|]).
  by apply elem_of_nil in Hc.
Qed.

(** X19: what a typed line can change.  However [runcmd] ends on a line, it
    has only appended to the console; unless the first token of the line is
    [map] or [set] the page tables are as before, and unless it is [c] or
    [si] the trap frames are as before. *)
Theorem runcmd_keeps_state fuel tf m :
  let m' := final (runcmd fuel 0 tf m) in
  let first := head (tokens (m_buf m)) in
  (exists evs, m_out m' = m_out m ++ evs) /\
  (first <> Some (buf_of "map") -> first <> Some (buf_of "set") ->
   m_pt m' = m_pt m) /\
  (first <> Some (buf_of "c") -> first <> Some (buf_of "si") ->
   m_tfs m' = m_tfs m).
Proof.
  intros m' first. unfold m', first. clear m' first.
  destruct (le_lt_dec MAXARGS (length (tokens (m_buf m)))) as [Hge|Hlt].
  { destruct (runcmd_too_many fuel tf m Hge) as (b' & _ & ->).
    cbn. split; [eauto|done]. }
  destruct (tokens (m_buf m)) as [|t0 ts] eqn:Htoks.
  { destruct (runcmd_empty fuel tf m Htoks) as (b' & ->).
    cbn. split; [exists []; by rewrite app_nil_r|done]. }
  destruct (runcmd_dispatch fuel tf m t0 ts Htoks Hlt) as (b' & argv & _ & ->).
  destruct (find_command t0 commands) as [c|] eqn:Hf;
    [|cbn; split; [eauto|done]].
  apply find_command_Some in Hf as [Hc Hn].
  assert (Ht0 : t0 = buf_of (name c)).
  { rewrite Hn. unfold buf_of. by rewrite list_ascii_of_string_of_list_ascii. }
  destruct (table_names c Hc) as [Hpt Htf].
  destruct (call_preserves (func c) fuel (length (t0 :: ts)) argv tf (set_buf m b'))
    as (_ & Ho & Hp & Ht).
  cbn [head m_out m_pt m_tfs set_buf] in *. split; [done|]. split.
  - intros H1 H2. apply Hp. apply negb_true_iff.
    destruct (touches_pt (func c)); [|done].
    destruct (Hpt eq_refl) as [E|E]; rewrite Ht0, E in *; done.
  - intros H1 H2. apply Ht. apply negb_true_iff.
    destruct (touches_tf (func c)); [|done].
    destruct (Htf eq_refl) as [E|E]; rewrite Ht0, E in *; done.
Qed.

(** ** [map] over a range *)

Lemma touch_keeps pt va k v : pt !! k = Some v -> touch pt va !! k = Some v.
Proof.
  unfold touch. intros Hk. destruct (pt !! PGNUM va) eqn:E; [done|].
  rewrite lookup_insert_ne; [done|]. intros <-. congruence.
Qed.

Lemma touch_dom pt va : dom (touch pt va) = dom pt ∪ {[PGNUM va]}.
Proof.
  unfold touch. destruct (pt !! PGNUM va) eqn:E.
  - apply (elem_of_dom_2 (D := gset Z)) in E.
    rewrite union_comm_L. symmetry.
    by apply subseteq_union_1_L, singleton_subseteq_l.
  - rewrite dom_insert_L. apply union_comm_L.
Qed.

Lemma foldl_touch_default pages :
  forall pt k, default 0 (foldl touch pt pages !! k) = default 0 (pt !! k).
Proof.
  induction pages as [|va pages IH]; intros pt k; [done|].
  cbn [foldl]. by rewrite IH, touch_default.
Qed.

Lemma foldl_touch_keeps pages :
  forall pt k v, pt !! k = Some v -> foldl touch pt pages !! k = Some v.
Proof.
  induction pages as [|va pages IH]; intros pt k v Hk; [done|].
  cbn [foldl]. by apply IH, touch_keeps.
Qed.

Lemma foldl_touch_dom pages :
  forall pt, dom (foldl touch pt pages) = dom pt ∪ list_to_set (PGNUM <$> pages).
Proof.
  induction pages as [|va pages IH]; intros pt; cbn [foldl].
  - cbn [fmap list_fmap list_to_set]. by rewrite union_empty_r_L.
  - rewrite IH, touch_dom. cbn [fmap list_fmap list_to_set].
    by rewrite (assoc_L (∪)).
Qed.

Lemma foldl_touch_present pages :
  forall pt, Forall (fun va => is_Some (pt !! PGNUM va)) pages ->
             foldl touch pt pages = pt.
Proof.
  induction pages as [|va pages IH]; intros pt Hp; [done|].
  apply Forall_cons in Hp as [[v Hv] Hp]. cbn [foldl].
  rewrite (touch_present _ _ _ Hv). by apply IH.
Qed.

Lemma map_pages_seq n :
  forall va, map_pages n va = (fun k => va + PGSIZE * Z.of_nat k) <$> seq 0 n.
Proof.
  induction n as [|n IH]; intros va; [done|].
  cbn [map_pages seq fmap list_fmap]. f_equal; [lia|].
  rewrite IH, <- seq_shift, <- list_fmap_compose. apply list_fmap_ext.
  intros _ k _. cbn. unfold PGSIZE. lia.
Qed.

(** The rows of a range are its page-aligned addresses. *)
Lemma map_pages_range start end_ va :
  0 <= start < 2 ^ 32 -> start <= end_ ->
  let rd := ROUNDDOWN start PGSIZE in
  let n := Z.to_nat ((end_ - rd + PGSIZE - 1) / PGSIZE) in
  va ∈ map_pages n rd <-> rd <= va < end_ /\ va mod PGSIZE = 0.
Proof.
  intros Hs Hle rd n. rewrite map_pages_seq.
  assert (Hrd : rd = 4096 * (start / 4096)) by (by apply ROUNDDOWN_PGSIZE).
  pose proof (Z.div_mod start 4096 ltac:(lia)) as Hdm.
  pose proof (Z.mod_pos_bound start 4096 ltac:(lia)) as Hmb.
  assert (Hn : Z.of_nat n = (end_ - rd + 4095) / 4096).
  { unfold n, PGSIZE. rewrite Z2Nat.id; [f_equal; lia|].
    apply Z.div_pos; lia. }
  pose proof (Z.div_mod (end_ - rd + 4095) 4096 ltac:(lia)) as Hdm'.
  pose proof (Z.mod_pos_bound (end_ - rd + 4095) 4096 ltac:(lia)) as Hmb'.
  unfold PGSIZE in *. rewrite list_elem_of_fmap. split.
  - intros (k & -> & Hk). apply elem_of_seq in Hk.
    split; [lia|]. rewrite Hrd.
    replace (4096 * (start / 4096) + 4096 * Z.of_nat k)
      with ((start / 4096 + Z.of_nat k) * 4096) by lia.
    apply Z.mod_mul. lia.
  - intros [Hva Hal].
    pose proof (Z.div_mod va 4096 ltac:(lia)) as Hdv.
    exists (Z.to_nat (va / 4096 - start / 4096)). split.
    + rewrite Z2Nat.id by lia. lia.
    + apply elem_of_seq. lia.
Qed.

(** X10: [map start end] walks the pages of the range, each once.  For
    start <= end <= 2^32 - PGSIZE and enough fuel it returns 0 after one
    row per page-aligned address from the rounded start up to, not
    including, end, in rising order, each row showing the entry as it read
    before.  It creates a zeroed entry for exactly the visited pages that
    had none and changes no existing entry, so every entry reads as it did
    before. *)
Theorem mon_map_walks_range fuel argc argv tf m start end_ :
  arg_num m argv 1 = Some start -> arg_num m argv 2 = Some end_ ->
  start <= end_ -> end_ <= 2 ^ 32 - PGSIZE ->
  let rd := ROUNDDOWN start PGSIZE in
  let n := Z.to_nat ((end_ - rd + PGSIZE - 1) / PGSIZE) in
  let pages := (fun k => rd + PGSIZE * Z.of_nat k) <$> seq 0 n in
  (n <= fuel)%nat ->
  exists m',
    mon_map fuel argc argv tf m = Ret 0 m' /\
    m_out m' = m_out m ++ map (fun va => row va (pte_of m va)) pages /\
    (forall va, va ∈ pages <-> rd <= va < end_ /\ va mod PGSIZE = 0) /\
    (forall va, pte_of m' va = pte_of m va) /\
    (forall k v, m_pt m !! k = Some v -> m_pt m' !! k = Some v) /\
    dom (m_pt m') = dom (m_pt m) ∪ list_to_set (PGNUM <$> pages).
Proof.
  intros H1 H2 Hle Hmax rd n pages Hfuel.
  pose proof (arg_num_range _ _ _ _ H1) as Hr1.
  eexists. split; [by apply mon_map_rows|].
  fold rd n. rewrite (map_pages_seq n rd). fold pages.
  cbn [m_out m_pt set_out set_pt]. split; [done|]. split.
  - intros va. unfold pages. rewrite <- map_pages_seq.
    by apply map_pages_range.
  - split; [|split].
    + intros va. unfold pte_of. cbn [m_pt set_out set_pt].
      apply foldl_touch_default.
    + intros k v. apply foldl_touch_keeps.
    + apply foldl_touch_dom.
Qed.

Lemma mon_map_walks_range_witness :
  let m := set_pt (set_buf machine0 (buf_of "map 0x1234 0x3001")) {[ 2 := 0x5007 ]} in
  exists m',
    mon_map 3 3 [SPtr 0; SPtr 4; SPtr 11; SNull] 0 m = Ret 0 m' /\
    m_out m' = [row 0x1000 0; row 0x2000 0x5007; row 0x3000 0] /\
    (forall va, va ∈ [0x1000; 0x2000; 0x3000] <->
                0x1000 <= va < 0x3001 /\ va mod PGSIZE = 0) /\
    (forall va, pte_of m' va = pte_of m va) /\
    (forall k v, m_pt m !! k = Some v -> m_pt m' !! k = Some v) /\
    dom (m_pt m') = dom (m_pt m) ∪ list_to_set (PGNUM <$> [0x1000; 0x2000; 0x3000]).
Proof.
  intros m.
  apply (mon_map_walks_range 3 3 [SPtr 0; SPtr 4; SPtr 11; SNull] 0 m
           0x1234 0x3001 eq_refl eq_refl);
    [lia | vm_compute; discriminate | vm_compute; lia].
Defined.

(** X11: [map] twice is [map] once.  After a [map] over a range, a second
    [map] over the same range prints the same rows and leaves the page
    tables exactly as the first one left them. *)
Theorem mon_map_twice fuel argc argv tf m start end_ :
  arg_num m argv 1 = Some start -> arg_num m argv 2 = Some end_ ->
  start <= end_ -> end_ <= 2 ^ 32 - PGSIZE ->
  let rd := ROUNDDOWN start PGSIZE in
  let n := Z.to_nat ((end_ - rd + PGSIZE - 1) / PGSIZE) in
  (n <= fuel)%nat ->
  exists m1 rows,
    mon_map fuel argc argv tf m = Ret 0 m1 /\
    m_out m1 = m_out m ++ rows /\
    forall argc' argv' tf' m2,
      m_pt m2 = m_pt m1 ->
      arg_num m2 argv' 1 = Some start -> arg_num m2 argv' 2 = Some end_ ->
      mon_map fuel argc' argv' tf' m2 = Ret 0 (set_out m2 (m_out m2 ++ rows)).
Proof.
  intros H1 H2 Hle Hmax rd n Hfuel.
  eexists. eexists. split; [by apply mon_map_rows|].
  fold rd n. cbn [m_out m_pt set_out set_pt]. split; [done|].
  intros argc' argv' tf' m2 Hpt H1' H2'.
  rewrite (mon_map_rows _ _ _ _ _ _ _ H1' H2' Hle Hmax) by done.
  fold rd n. rewrite Hpt. cbn [m_pt set_out set_pt].
  rewrite (foldl_touch_present (map_pages n rd)).
  - rewrite <- Hpt, set_pt_id. f_equal. f_equal. f_equal.
    apply map_ext. intros va. f_equal. unfold pte_of. rewrite Hpt.
    cbn [m_pt set_out set_pt]. apply foldl_touch_default.
  - apply Forall_forall. intros va Hva.
    apply (elem_of_dom (D := gset Z)). rewrite foldl_touch_dom.
    apply elem_of_union_r, elem_of_list_to_set, list_elem_of_fmap. eauto.
Qed.

Lemma mon_map_twice_witness :
  let m := set_buf machine0 (buf_of "map 0x1000 0x3000") in
  let argv := [SPtr 0; SPtr 4; SPtr 11; SNull] in
  exists m1 rows,
    mon_map 2 3 argv 0 m = Ret 0 m1 /\
    m_out m1 = m_out m ++ rows /\
    forall argc' argv' tf' m2,
      m_pt m2 = m_pt m1 ->
      arg_num m2 argv' 1 = Some 0x1000 -> arg_num m2 argv' 2 = Some 0x3000 ->
      mon_map 2 argc' argv' tf' m2 = Ret 0 (set_out m2 (m_out m2 ++ rows)).
Proof.
  intros m argv.
  apply (mon_map_twice 2 3 argv 0 m 0x1000 0x3000 eq_refl eq_refl);
    [lia | vm_compute; discriminate | vm_compute; lia].
Defined.

Lemma mon_map_loop_runs_on fuel :
  forall i end_ m,
    0 <= i < 2 ^ 32 -> i mod PGSIZE = 0 -> 2 ^ 32 - PGSIZE < end_ ->
    exists m',
      mon_map_loop fuel i end_ m = OutOfFuel m' /\
      length (m_out m') = (length (m_out m) + fuel)%nat.
Proof.
  unfold PGSIZE.
  induction fuel as [|fuel IH]; intros i end_ m Hi Hmod Hend;
    cbn [mon_map_loop];
    assert (Hlt : i < end_)
      by (pose proof (Z.div_mod i 4096 ltac:(lia)); pow32; lia);
    replace (i <? end_) with true by (symmetry; apply Z.ltb_lt; lia).
  - exists m. split; [done|lia].
  - unfold bind at 1. rewrite pgdir_walk_touch.
    unfold bind at 1, pte_load at 1.
    unfold bind at 1, print_row, cprintf.
    match goal with
    | |- context [mon_map_loop fuel ?i' end_ ?m0] =>
        destruct (IH i' end_ m0) as (m' & -> & Hlen)
    end.
    + apply wrap32_range.
    + unfold wrap32, PGSIZE. pow32.
      pose proof (Z.div_mod i 4096 ltac:(lia)) as Hdm.
      destruct (Z.eq_dec i 4294963200) as [->|Hne]; [reflexivity|].
      rewrite (Z.mod_small (i + 4096)) by lia.
      rewrite Z.add_mod, Hmod by lia. reflexivity.
    + done.
    + exists m'. split; [done|]. rewrite Hlen. cbn [m_out set_out].
      rewrite length_app. cbn. lia.
Qed.

(** X12: with an end above [2^32 - PGSIZE], [map] does not come back.  For
    every accepted range with such an end the cursor of the loop wraps to
    page 0 before it reaches the end: whatever the fuel, the command is
    still looping when it runs out, having printed one row per round. *)
Theorem mon_map_wraps fuel argc argv tf m start end_ :
  arg_num m argv 1 = Some start -> arg_num m argv 2 = Some end_ ->
  start <= end_ -> 2 ^ 32 - PGSIZE < end_ ->
  exists m',
    mon_map fuel argc argv tf m = OutOfFuel m' /\
    length (m_out m') = (length (m_out m) + fuel)%nat.
Proof.
  intros H1 H2 Hle Hend.
  pose proof (arg_num_range _ _ _ _ H1) as Hr1.
  rewrite (mon_map_range _ _ _ _ _ _ _ H1 H2 Hle). unfold bind.
  destruct (mon_map_loop_runs_on fuel (ROUNDDOWN start PGSIZE) end_ m)
    as (m' & -> & Hlen); [| |done|by exists m'].
  - rewrite ROUNDDOWN_PGSIZE by done.
    pose proof (Z.div_mod start 4096 ltac:(lia)).
    pose proof (Z.mod_pos_bound start 4096 ltac:(lia)). pow32. lia.
  - rewrite ROUNDDOWN_PGSIZE by done. unfold PGSIZE.
    rewrite Z.mul_comm. apply Z.mod_mul. lia.
Qed.

Lemma mon_map_wraps_witness :
  let m := set_buf machine0 (buf_of "map 0xffffe000 0xffffffff") in
  exists m',
    mon_map 5 3 [SPtr 0; SPtr 4; SPtr 15; SNull] 0 m = OutOfFuel m' /\
    length (m_out m') = 5%nat.
Proof.
  intros m.
  apply (mon_map_wraps 5 3 [SPtr 0; SPtr 4; SPtr 15; SNull] 0 m
           0xffffe000 0xffffffff eq_refl eq_refl); [lia | vm_compute; reflexivity].
Defined.

(** ** [set], in general *)

Lemma PTE_ADDR_lor a f : PTE_ADDR (Z.lor a f) = Z.lor (PTE_ADDR a) (PTE_ADDR f).
Proof. unfold PTE_ADDR. apply Z.land_lor_distr_l. Qed.

Lemma PTE_ADDR_idem a : PTE_ADDR (PTE_ADDR a) = PTE_ADDR a.
Proof. unfold PTE_ADDR. by rewrite <- Z.land_assoc, Z.land_diag. Qed.

Lemma PTE_FLAGS_lor_addr a f : PTE_FLAGS (Z.lor (PTE_ADDR a) f) = PTE_FLAGS f.
Proof. unfold PTE_FLAGS. by apply land_set_low. Qed.

(** X13: what [set] writes, for every flags value.  For every accepted
    address the new entry of its page is the old frame address or-ed with
    the flags value: the low twelve bits of the entry become those of the
    value, its frame-address bits can gain the high bits of the value and
    never lose one.  The entries of all other pages, the line buffer and
    the trap frames are untouched. *)
Theorem mon_set_writes fuel argc argv tf m page flag :
  arg_num m argv 1 = Some page -> arg_num m argv 2 = Some flag ->
  page <= KERNBASE ->
  exists m',
    mon_set fuel argc argv tf m = Ret 0 m' /\
    pte_of m' page = Z.lor (PTE_ADDR (pte_of m page)) flag /\
    PTE_FLAGS (pte_of m' page) = PTE_FLAGS flag /\
    PTE_ADDR (pte_of m' page) = Z.lor (PTE_ADDR (pte_of m page)) (PTE_ADDR flag) /\
    (forall k, k <> PGNUM page -> m_pt m' !! k = m_pt m !! k) /\
    m_buf m' = m_buf m /\ m_tfs m' = m_tfs m.
Proof.
  intros H1 H2 Hle. eexists. split; [by apply mon_set_accept|].
  rewrite !pte_of_set. split; [done|]. split; [apply PTE_FLAGS_lor_addr|].
  split; [by rewrite PTE_ADDR_lor, PTE_ADDR_idem|].
  split; [|done]. intros k Hk. cbn [m_pt set_out set_pt].
  by rewrite lookup_insert_ne.
Qed.

Lemma mon_set_writes_witness :
  let m := set_pt (set_buf machine0 (buf_of "set 0x2abc 0x1003")) {[ 2 := 0x5067; 7 := 1 ]} in
  exists m',
    mon_set 0 3 [SPtr 0; SPtr 4; SPtr 11; SNull] 0 m = Ret 0 m' /\
    pte_of m' 0x2abc = Z.lor (PTE_ADDR 0x5067) 0x1003 /\
    PTE_FLAGS (pte_of m' 0x2abc) = PTE_FLAGS 0x1003 /\
    PTE_ADDR (pte_of m' 0x2abc) = Z.lor (PTE_ADDR 0x5067) (PTE_ADDR 0x1003) /\
    (forall k, k <> PGNUM 0x2abc -> m_pt m' !! k = m_pt m !! k) /\
    m_buf m' = m_buf m /\ m_tfs m' = m_tfs m.
Proof.
  intros m.
  apply (mon_set_writes 0 3 [SPtr 0; SPtr 4; SPtr 11; SNull] 0 m 0x2abc 0x1003
           eq_refl eq_refl).
  vm_compute. discriminate.
Defined.

(** X14: strictly above [KERNBASE] the address is refused.  [set] prints
    the invalid-parameters line with the address, returns 0, and the page
    tables are as before: no entry is created or changed. *)
Theorem mon_set_refuses_above fuel argc argv tf m page flag :
  arg_num m argv 1 = Some page -> arg_num m argv 2 = Some flag ->
  KERNBASE < page ->
  exists m',
    mon_set fuel argc argv tf m = Ret 0 m' /\
    m_out m' = m_out m ++ [Cprintf "Invalid parameters[page=%08x]\n" [AInt page]] /\
    m_pt m' = m_pt m.
Proof.
  intros H1 H2 Hlt. eexists. split; [by eapply mon_set_reject|]. by split.
Qed.

Lemma mon_set_refuses_above_witness :
  let m := set_buf machine0 (buf_of "set 0xf0000001 0x7") in
  exists m',
    mon_set 0 3 [SPtr 0; SPtr 4; SPtr 15; SNull] 0 m = Ret 0 m' /\
    m_out m' = [Cprintf "Invalid parameters[page=%08x]\n" [AInt 0xF0000001]] /\
    m_pt m' = m_pt m.
Proof.
  intros m.
  apply (mon_set_refuses_above 0 3 [SPtr 0; SPtr 4; SPtr 15; SNull] 0 m
           0xF0000001 7 eq_refl eq_refl).
  vm_compute. reflexivity.
Defined.

(** X15: two [set] commands on one page.  The second flags value decides
    the flag bits of the entry; of the first one only the bits above the
    flag bits survive, or-ed into the frame address.  In particular a [set]
    repeated with the same arguments changes nothing the second time. *)
Theorem mon_set_twice fuel argc argv tf m page f1 :
  arg_num m argv 1 = Some page -> arg_num m argv 2 = Some f1 ->
  page <= KERNBASE ->
  exists m1,
    mon_set fuel argc argv tf m = Ret 0 m1 /\
    forall fuel' argc' argv' tf' m2 page' f2,
      m_pt m2 = m_pt m1 ->
      arg_num m2 argv' 1 = Some page' -> arg_num m2 argv' 2 = Some f2 ->
      page' <= KERNBASE -> PGNUM page' = PGNUM page ->
      exists m3,
        mon_set fuel' argc' argv' tf' m2 = Ret 0 m3 /\
        pte_of m3 page =
          Z.lor (Z.lor (PTE_ADDR (pte_of m page)) (PTE_ADDR f1)) f2 /\
        (f2 = f1 -> m_pt m3 = m_pt m1).
Proof.
  intros H1 H2 Hle. eexists. split; [by apply mon_set_accept|].
  intros fuel' argc' argv' tf' m2 page' f2 Hpt H1' H2' Hle' Hpg.
  eexists. split; [by apply mon_set_accept|].
  assert (Hold : pte_of m2 page' = Z.lor (PTE_ADDR (pte_of m page)) f1).
  { unfold pte_of at 1. rewrite Hpt, Hpg. cbn [m_pt set_out set_pt].
    by rewrite lookup_insert_eq. }
  rewrite Hold, PTE_ADDR_lor, PTE_ADDR_idem.
  split.
  - unfold pte_of at 1. cbn [m_pt set_out set_pt]. rewrite Hpg.
    by rewrite lookup_insert_eq.
  - intros ->. cbn [m_pt set_out set_pt]. rewrite Hpt, Hpg.
    cbn [m_pt set_out set_pt]. rewrite insert_insert_eq. f_equal.
    unfold PTE_ADDR. apply Z.bits_inj'. intros n Hn.
    rewrite !Z.lor_spec, !Z.land_spec.
    by destruct (Z.testbit (pte_of m page) n), (Z.testbit f1 n),
      (Z.testbit (wrap32 (Z.lnot 4095)) n).
Qed.

Lemma mon_set_twice_witness :
  let m := set_buf machine0 (buf_of "set 0x2000 0x1003") in
  let argv := [SPtr 0; SPtr 4; SPtr 11; SNull] in
  exists m1,
    mon_set 0 3 argv 0 m = Ret 0 m1 /\
    forall fuel' argc' argv' tf' m2 page' f2,
      m_pt m2 = m_pt m1 ->
      arg_num m2 argv' 1 = Some page' -> arg_num m2 argv' 2 = Some f2 ->
      page' <= KERNBASE -> PGNUM page' = PGNUM 0x2000 ->
      exists m3,
        mon_set fuel' argc' argv' tf' m2 = Ret 0 m3 /\
        pte_of m3 0x2000 =
          Z.lor (Z.lor (PTE_ADDR (pte_of m 0x2000)) (PTE_ADDR 0x1003)) f2 /\
        (f2 = 0x1003 -> m_pt m3 = m_pt m1).
Proof.
  intros m argv.
  apply (mon_set_twice 0 3 argv 0 m 0x2000 0x1003 eq_refl eq_refl).
  vm_compute. discriminate.
Defined.

(** ** The dumpers and the unwinder, without an end *)

Lemma mon_xp_loop_wraps fuel :
  forall i s len m,
    0 <= i < 2 ^ 32 -> i mod 4 = 0 -> 2 ^ 32 - 4 < len ->
    forall r m', mon_xp_loop fuel i s len m <> Ret r m'.
Proof.
  induction fuel as [|fuel IH]; intros i s len m Hi Hmod Hlen r m';
    cbn [mon_xp_loop];
    assert (Hlt : i < len)
      by (pose proof (Z.div_mod i 4 ltac:(lia)); pow32; lia);
    replace (i <? len) with true by (symmetry; apply Z.ltb_lt; lia);
    [done|].
  unfold bind at 1, KADDR at 1. destruct (_ <=? _); [done|].
  unfold bind at 1, load32 at 1. destruct (m_mem m !! _); [|done].
  unfold bind at 1, KADDR at 1. destruct (_ <=? _); [done|].
  unfold bind at 1, load32 at 1. destruct (m_mem m !! _); [|done].
  unfold bind at 1, KADDR at 1. destruct (_ <=? _); [done|].
  unfold bind at 1, load32 at 1. destruct (m_mem m !! _); [|done].
  unfold bind at 1, KADDR at 1. destruct (_ <=? _); [done|].
  unfold bind at 1, load32 at 1. destruct (m_mem m !! _); [|done].
  unfold bind at 1, print_dump, cprintf.
  apply IH; [apply wrap32_range| |done].
  unfold wrap32. pow32.
  pose proof (Z.div_mod i 4 ltac:(lia)) as Hdm.
  destruct (Z.eq_dec i 4294967292) as [->|Hne]; [reflexivity|].
  rewrite (Z.mod_small (i + 4)) by lia.
  rewrite Z.add_mod, Hmod by lia. reflexivity.
Qed.

(** X16: with a length above [2^32 - 4], [xv] and [xp] do not come back.
    The counter of the loop wraps to 0 before it reaches the length, so
    whatever the fuel and whatever memory holds, neither command returns:
    it faults on the way or is still looping. *)
Theorem dump_wraps fuel argc argv tf m start len :
  arg_num m argv 1 = Some start -> arg_num m argv 2 = Some len ->
  2 ^ 32 - 4 < len ->
  (forall r m', mon_xv fuel argc argv tf m <> Ret r m') /\
  (forall r m', mon_xp fuel argc argv tf m <> Ret r m').
Proof.
  intros H1 H2 Hlen. split; intros r m'.
  - unfold mon_xv, bind at 1. rewrite (strtol_at_arg _ _ _ _ H1).
    unfold bind at 1. rewrite (strtol_at_arg _ _ _ _ H2). unfold bind.
    destruct (mon_xv_loop fuel 0 start len m) as [u m1| | | |] eqn:E; try done.
    exfalso. revert E. apply mon_xv_loop_wraps; [pow32; lia|done|done].
  - unfold mon_xp, bind at 1. rewrite (strtol_at_arg _ _ _ _ H1).
    unfold bind at 1. rewrite (strtol_at_arg _ _ _ _ H2). unfold bind.
    destruct (mon_xp_loop fuel 0 start len m) as [u m1| | | |] eqn:E; try done.
    exfalso. revert E. apply mon_xp_loop_wraps; [pow32; lia|done|done].
Qed.

Lemma dump_wraps_witness :
  let m := machine_with_words "xv 0x1000 0xfffffffd" in
  let argv := [SPtr 0; SPtr 3; SPtr 10; SNull] in
  (forall r m', mon_xv 9 3 argv 0 m <> Ret r m') /\
  (forall r m', mon_xp 9 3 argv 0 m <> Ret r m').
Proof.
  intros m argv.
  apply (dump_wraps 9 3 argv 0 m 0x1000 0xfffffffd eq_refl eq_refl).
  vm_compute. reflexivity.
Defined.

Lemma mon_backtrace_loop_open n :
  forall cur m frs,
    open_chain (m_mem m) n cur = Some frs ->
    mon_backtrace_loop n cur m =
      OutOfFuel (set_out m (m_out m ++ concat (map (frame_record (m_syms m)) frs))).
Proof.
  induction n as [|n IH]; intros cur m frs Hch.
  - injection Hch as <-. cbn. unfold out_of_fuel. f_equal.
    destruct m; unfold set_out; cbn. by rewrite app_nil_r.
  - cbn [open_chain] in Hch.
    destruct (read_frame (m_mem m) cur) as [fr|] eqn:Hfr; [|done]. cbn in Hch.
    rewrite (mon_backtrace_loop_frame _ _ _ _ Hfr).
    destruct (fr_link fr =? 0); [done|].
    destruct (open_chain (m_mem m) n (fr_link fr)) as [frs'|] eqn:E; [|done].
    cbn in Hch. injection Hch as <-.
    rewrite (IH (fr_link fr) _ frs') by done.
    cbn [map concat m_out m_syms set_out]. unfold set_out; cbn.
    by rewrite <- !app_assoc.
Qed.

Lemma open_chain_length mem n :
  forall fp frs, open_chain mem n fp = Some frs -> length frs = n.
Proof.
  induction n as [|n IH]; intros fp frs; [by intros [= <-]|]. cbn [open_chain].
  destruct (read_frame mem fp) as [fr|]; [|done]. cbn.
  destruct (fr_link fr =? 0); [done|].
  destruct (open_chain mem n (fr_link fr)) as [frs'|] eqn:E; [|done].
  cbn. intros [= <-]. cbn. f_equal. by eapply IH.
Qed.

(** X17: the unwinder has no depth limit of its own.  As long as the chain
    of saved frame pointers goes on without a zero link (a cycle, say), it
    keeps printing: on a chain with [fuel] readable frames and no zero
    link among them, [mon_backtrace] has printed the header and [fuel]
    records and is still looping. *)
Theorem unwinder_has_no_limit fuel argc argv tf m frs :
  open_chain (m_mem m) fuel (m_ebp m) = Some frs ->
  mon_backtrace fuel argc argv tf m =
    OutOfFuel (set_out m (m_out m ++ Cprintf "Stack backtrace:\n" [] ::
                 concat (map (frame_record (m_syms m)) frs))) /\
  length frs = fuel.
Proof.
  intros Hch. split; [|by eapply open_chain_length].
  unfold mon_backtrace, bind at 1, get.
  unfold bind at 1, cprintf at 1. unfold bind.
  rewrite (mon_backtrace_loop_open fuel _ (set_out m _) frs Hch).
  unfold set_out; cbn. by rewrite <- app_assoc.
Qed.

Lemma unwinder_has_no_limit_witness :
  let m := machine_with_loop in
  let fr := {| fr_ebp := 0x1000; fr_eip := 0xF0100068;
               fr_args := [1; 2; 3; 4; 5]; fr_link := 0x1000 |} in
  mon_backtrace 4 1 [SPtr 0; SNull] 0 m =
    OutOfFuel (set_out m (Cprintf "Stack backtrace:\n" [] ::
                 concat (map (frame_record no_syms) [fr; fr; fr; fr]))) /\
  length [fr; fr; fr; fr] = 4%nat.
Proof.
  intros m fr.
  exact (unwinder_has_no_limit 4 1 [SPtr 0; SNull] 0 m [fr; fr; fr; fr] eq_refl).
Defined.

(** ** [mon_kerninfo] *)

(** X18: the footprint [kerninfo] reports is the kernel size rounded up to
    whole kilobytes.  For linker symbols with entry <= end and a size below
    [2^31 - 1024], [mon_kerninfo] returns 0 after seven lines, the last one
    reporting the least number of kilobytes that hold [end - entry] bytes;
    nothing else of the machine changes. *)
Theorem mon_kerninfo_footprint fuel argc argv tf m :
  let k := m_ksyms m in
  0 <= sym_entry k <= sym_end k -> sym_end k - sym_entry k < 2 ^ 31 - 1024 ->
  exists lines kb,
    mon_kerninfo fuel argc argv tf m =
      Ret 0 (set_out m (m_out m ++ lines ++
               [Cprintf "Kernel executable memory footprint: %dKB\n" [AInt kb]])) /\
    length lines = 6%nat /\
    1024 * (kb - 1) < sym_end k - sym_entry k <= 1024 * kb.
Proof.
  intros k Hle Hsz.
  eexists [_; _; _; _; _; _], (footprint_kb k). split; [|split; [done|]].
  - unfold mon_kerninfo, bind, get, cprintf, ret, set_out; cbn.
    rewrite <- !app_assoc. reflexivity.
  - unfold footprint_kb, ROUNDUP, ROUNDDOWN.
    set (d := sym_end k - sym_entry k) in *.
    assert (Hd : 0 <= d < 2147483648 - 1024) by (change (2 ^ 31) with 2147483648 in Hsz; lia).
    rewrite (wrap32_small d) by (pow32; lia).
    rewrite (wrap32_small (d + 1024 - 1)) by (pow32; lia).
    pose proof (Z.div_mod (d + 1024 - 1) 1024 ltac:(lia)) as Hdm.
    pose proof (Z.mod_pos_bound (d + 1024 - 1) 1024 ltac:(lia)) as Hmb.
    rewrite wrap32_small by (pow32; lia).
    replace (d + 1024 - 1 - (d + 1024 - 1) mod 1024)
      with ((d + 1024 - 1) / 1024 * 1024) by lia.
    unfold signed32. change (2 ^ 31) with 2147483648.
    replace ((d + 1024 - 1) / 1024 * 1024 <? 2147483648) with true
      by (symmetry; apply Z.ltb_lt; lia).
    rewrite Z.quot_div_nonneg by lia.
    rewrite Z.div_mul by lia. lia.
Qed.

Lemma mon_kerninfo_footprint_witness :
  exists lines kb,
    mon_kerninfo 0 1 [SPtr 0; SNull] 0 machine0 =
      Ret 0 (set_out machine0 (lines ++
               [Cprintf "Kernel executable memory footprint: %dKB\n" [AInt kb]])) /\
    length lines = 6%nat /\
    1024 * (kb - 1) < 0xF0113000 - 0xF010000C <= 1024 * kb.
Proof.
  apply (mon_kerninfo_footprint 0 1 [SPtr 0; SNull] 0 machine0);
    vm_compute; split; discriminate || reflexivity.
Defined.

(** The footprint is a signed number: with [end] one page below [entry]
    the line reports -4. *)
Example footprint_is_signed :
  footprint_kb {| sym_start := 0; sym_entry := 0xF0101000; sym_etext := 0;
                  sym_edata := 0; sym_end := 0xF0100000 |} = -4.
Proof. reflexivity. Qed.
